(* ===== verification/_CoqProject ===== *)
-Q . S2P
Prelude.v
JsRuntime.v
Types.v
Helpers.v
Script.v
Traces.v
Pacing.v
Scanner.v
Config.v
Submitter.v
Signing.v
BatchRuns.v
Main.v
