(* ===== verification/Prelude.v ===== *)
(** * Verification of the snapshot registration script

    The repository (src/snapshot/) is one administrative script,
    [register-snapshot.ts], and two shared modules, [shared/helpers.ts]
    ([getArg], [timeout], [chunkArray]) and [shared/types.ts]
    ([SnapshotCandidate], [SnapshotMember]).  The script runs one linear
    pipeline:

      config loader  ->  holder scanner (token pass, then SFT pass)
                     ->  batcher ([chunkArray members 500])
                     ->  transaction submitter (one signed contract call
                         per batch, nonces taken from one [Account])

    The parts interact only through values passed down this pipeline,
    through the [Account] object whose nonce every submission mutates
    (threaded through the batch loop as the state it is), and through the
    external world (file system, REST API, proxy, signer).

    ** Files, in dependency order

    - [Prelude] (this file): the scope [snap_scope], the hint databases
      [snap] and [snap_rw], and the generic lemmas on lists, strings and
      integers the components share.
    - [JsRuntime]: the JavaScript built-ins the code relies on, written
      out as the ECMAScript and bignumber.js semantics give them: dynamic
      values and property access on parsed JSON (with the keys inherited
      from [Object.prototype]), truthiness, [ToNumber] (unary [+]),
      template-literal [ToString], decimal printing of integers,
      [Array.prototype.slice], and bignumber.js's [BigNumber] constructor,
      [shiftedBy] and [gte] on an extended rational type [xnum] (NaN, the
      infinities, exact rationals).
    - [Types]: the records of [shared/types.ts] and [BigNumber.Value].
    - [Helpers]: [getArg] and [chunkArray] of [shared/helpers.ts];
      [chunkArray]'s [while] loop is a [Fixpoint] on fuel, related to the
      reference chunking [chunks] (an [Equations] definition by
      well-founded recursion).
    - [Script]: the effects of the script as a reader / writer / exception
      monad [M]: a run reads a [World] (argv, the parsed configuration,
      the signer, the answers of the API and the proxy), appends [Event]s
      (console lines, pauses, requests, broadcasts) to a trace and may
      throw; [timeout] of helpers.ts and [doGetGeneric] live here, with the
      rewrite lemmas ([run_simpl]) that compute the trace and the outcome
      of a composed computation.
    - [Traces]: predicates that hold for every run, whatever the world
      answers: [every P m] (each event satisfies [P]), [phased P Q m] (a
      [P] part then a [Q] part), [throws_only E m] (each exception
      satisfies [E]), [ends_with P m] (a run that returns ends with a [P]
      event), one closure lemma per construct of the monad, in the hint
      database [traces]; and automata over traces ([run_auto]) with the
      per-world Hoare triple [follows_in step w s Q m] and its closure
      lemmas.
    - [Pacing]: the automaton of the rate-limiting pauses
      ([timeout(500)]), the predicate [paces] that composes it through
      [bind], and its soundness: two paced events are separated by a pause
      of at least 500 ms.
    - [Scanner]: [getPaginatedTokenAccounts], [getPaginatedSftAccounts]
      and the two paginated loops of [main] ([scan_loop], with their
      [forEach] callbacks and the [seenAddresses] set), related to the
      abstract membership list [snapshot_spec].
    - [Config]: [loadMxpyConfig] and the lookups and guard of lines 22-34.
    - [Submitter]: [registerSnapshotInContract] (payload builder, gas
      limit, nonce, signature, broadcast) and the batch loop of [main]; the
      SDK's encoders, [Address] and [serializeForSigning] are the
      interface class [Sdk] with the laws the proofs use ([test_sdk] is one
      executable instance, used by the concrete runs).
    - [Signing]: the automaton [nonce_step] that follows the [Account]'s
      nonce along a trace and checks each broadcast's nonce, sender and
      signature ([signed_by]: the signer's signature of [unsigned tx], the
      transaction as [serializeForSigning] saw it); the batch loop is
      accepted in every world.
    - [BatchRuns]: the transactions the batch loop plans ([planned]: one
      per batch, consecutive nonces, up to the first batch that does not
      encode), the one-iteration equation of the loop in any world, and
      what any run broadcasts: the planned transactions up to and
      including the first one the proxy rejects ([accepted_prefix]).
    - [Main]: [main] composed from the above, [getAdminSigner],
      [getAccount], the exit status of the top-level call [main()]
      ([exit_status], line 176), and the theorems about whole runs.

    ** What the theorems show

    - Refinement: the two passes build exactly [snapshot_spec] (eligible
      token holders, then SFT holders, each address at its first
      occurrence), and a successful run of [main] sends calls that the
      contract decodes to exactly those members, in order, 500 per call,
      with consecutive nonces from the on-chain nonce ([Main], C1); a run
      that fails (a member that does not encode, a rejected broadcast)
      sends exactly a prefix of those transactions, ending with the
      rejected one ([Main], [BatchRuns]).
    - Invariants of the scan state (distinct addresses, [seenAddresses]
      equal to the members' addresses), de-duplication, the threshold.
    - The batch loop: every batch registered, consecutive nonces, the gas
      cap on full batches, no rollback on failure.
    - [chunkArray]: equivalence with [chunks], round trip, shape,
      divergence for a non-positive size.
    - Every run of [main], for every world: page requests come before
      broadcasts, broadcasts are well-formed contract calls, broadcasts
      and the pages of one pass are separated by pauses, the account is
      read once and before any broadcast, the broadcasts carry the
      consecutive nonces from that read and the admin's signature of the
      transaction as sent, and a status-0
      exit ends with the invalid-configuration or the final line; and the
      error paths of the configuration (each of the six values the guard
      of line 31 tests, when falsy, stops the run) and of a failed request.
    - What the code does not do: the passes are not paced against each
      other (the [break] on an empty page skips the pause), an invalid
      configuration exits with status 0 like a completed run, a missing
      minimum drops every token holder while a blank one keeps them all
      (zero balances included), a missing section throws before
      the guard, a failed batch is not rolled back.

    ** Fuel

    [chunkArray] gets [S (length members)] iterations: its loop runs once
    per chunk plus a final test, so more than the array length is enough
    (proved).  A page loop gets [scan_fuel = 11] iterations, one per page
    [1 .. 10] and the final test of [page <= 10]; the batch loop gets one
    more iteration than there are batches.  For both loops more fuel gives
    the same run (proved), so these bounds do not cut a loop short.  The
    model's exception [OutOfFuel] stands only for these bounds; the
    development does not state a theorem over all of [main]'s exceptions,
    since a run can also end with [NotModelled] (below).

    ** Not modelled

    - The network, the file system and the clock: their answers are the
      fields of the [World]; [JSON.parse] of the configuration file and
      [UserSigner.fromPem] are inputs (the parsed value, the signer).
    - The MultiversX SDK's internals (bech32 decoding, the argument
      encoding, the transaction's serialized bytes, the signature scheme):
      reached through [Sdk] and its laws.
    - JavaScript numbers are modelled as exact rationals: [+s] of a
      decimal literal with more than 17 significant digits would round in
      JavaScript and not here; [${x}] of a non-integer number is outside
      the model ([NotModelled]), and so is a number of [1e21] or more,
      which JavaScript prints in exponent form; a run that interpolates
      such a value (e.g. a non-integer [itheum-tokenid] or minimum
      balance) ends with [NotModelled].
    - [provider.getNetworkConfig()] is requested once per batch (line
      148) but the [World] holds one answer for the whole run: a network
      configuration that changes, or fails only at a later batch, between
      batches is not modelled.
    - The [Sdk] laws state that decoding an address and printing it back
      gives the same string; this holds for canonical lower-case bech32
      addresses, and a configuration with an upper-case address is
      outside what the end-to-end theorems cover.
    - The text of console messages beyond their template and interpolated
      values. *)

From Stdlib Require Export ZArith QArith.
From stdpp Require Export base list strings gmap pretty.

Declare Scope snap_scope.
Delimit Scope snap_scope with snap.

Local Set Warnings "-clear-no-such-hyp".

Create HintDb snap discriminated.
Create Rewrite HintDb snap_rw.

(** ** Generic lemmas on lists *)

Section ListFacts.
Context {A : Type}.

Lemma take_drop_concat_cons (n : nat) (l : list A) (ls : list (list A)) :
  concat ls = drop n l -> concat (take n l :: ls) = l.
Proof. intros H. simpl. rewrite H. apply take_drop. Qed.

Lemma length_drop_lt (n : nat) (l : list A) :
  (0 < n)%nat -> l <> [] -> (length (drop n l) < length l)%nat.
Proof. intros Hn Hl. rewrite length_drop. destruct l; [done|simpl; lia]. Qed.
End ListFacts.

(** In a list whose images by [f] are distinct, each image value is hit
    by exactly one element, or by none. *)
Lemma NoDup_fmap_filter_length {A B} `{EqDecision B} (f : A -> B) (l : list A) (b : B) :
  NoDup (f <$> l) ->
  length (filter (fun x => f x = b) l) = (if bool_decide (b ∈ f <$> l) then 1 else 0)%nat.
Proof.
  induction l as [|x l IH]; intros Hnd; [done|].
  rewrite fmap_cons, NoDup_cons in Hnd. destruct Hnd as [Hx Hnd].
  rewrite filter_cons, fmap_cons. destruct (decide (f x = b)) as [<-|Hfx].
  - rewrite bool_decide_true by set_solver. simpl. rewrite IH by done.
    by rewrite bool_decide_false.
  - rewrite IH by done. do 2 case_bool_decide; first [done | set_solver].
Qed.

Lemma fold_left_ext {A B} (f g : A -> B -> A) (l : list B) (a : A) :
  (forall x y, f x y = g x y) -> fold_left f l a = fold_left g l a.
Proof. intros Hfg. revert a. induction l as [|y l IH]; intros a; simpl; [done|]. by rewrite Hfg. Qed.

(** A functional relation relates a list to at most one list. *)
Lemma Forall2_functional {A B} (R : A -> B -> Prop) (l : list A) (l1 l2 : list B) :
  (forall x y1 y2, R x y1 -> R x y2 -> y1 = y2) ->
  Forall2 R l l1 -> Forall2 R l l2 -> l1 = l2.
Proof.
  intros HR H1. revert l2. induction H1 as [|x y l l1 Hxy _ IH]; intros l2 H2; inversion H2; subst; [done|].
  f_equal; [by eapply HR | by apply IH].
Qed.

#[export] Hint Resolve take_drop_concat_cons : snap.

(** ** Strings *)

(** stdpp makes [String.append] opaque to [simpl]; these unfold it. *)
Lemma string_app_cons (c : Ascii.ascii) (s1 s2 : string) : String c s1 +:+ s2 = String c (s1 +:+ s2).
Proof. reflexivity. Qed.

Lemma string_app_nil_l (s : string) : "" +:+ s = s.
Proof. reflexivity. Qed.

Lemma string_app_assoc (s1 s2 s3 : string) : (s1 +:+ s2) +:+ s3 = s1 +:+ (s2 +:+ s3).
Proof. induction s1 as [|c s1 IH]; [done|]. by rewrite !string_app_cons, IH. Qed.

Lemma string_app_nil_r (s : string) : s +:+ "" = s.
Proof. induction s as [|c s IH]; [done|]. by rewrite string_app_cons, IH. Qed.

Lemma string_length_app (s1 s2 : string) :
  String.length (s1 +:+ s2) = (String.length s1 + String.length s2)%nat.
Proof. induction s1 as [|c s1 IH]; [done|]. rewrite string_app_cons. simpl. by rewrite IH. Qed.

#[export] Hint Rewrite string_app_cons string_app_nil_l string_app_assoc string_app_nil_r
  string_length_app : snap_rw.

(** ** Arithmetic *)

(** One more piece of [S n] elements: the ceiling of [m / S n] grows by
    one when [m] grows by [S n]. *)
Lemma div_ceil_step (m n : nat) :
  S ((S m - S n + n) / S n) = ((S m + n) / S n)%nat.
Proof.
  destruct (Nat.le_gt_cases n m).
  - replace (S m + n)%nat with (m + 1 * S n)%nat by lia.
    rewrite Nat.div_add by lia. replace (S m - S n + n)%nat with m by lia. lia.
  - replace (S m - S n + n)%nat with n by lia.
    rewrite (Nat.div_small n (S n)) by lia.
    apply (Nat.div_unique _ _ _ m); lia.
Qed.
