(* ===== verification/JsRuntime.v ===== *)
(** * JavaScript built-ins used by the script

    The script relies on a handful of ECMAScript and bignumber.js
    behaviours.  They are not code of the repository; this file writes
    them out from the language and library semantics so that the
    components can be modelled line by line:
    - [js_slice]: [Array.prototype.slice(start, end)] with its clamping of
      negative and out-of-range indices;
    - [xnum]: numbers as the script uses them: NaN, the two infinities and
      exact rationals.  bignumber.js is exact; a JavaScript number is a
      double, and reading it as the rational it prints as is exact for the
      integers and the short decimals the script handles;
    - [xnum_gte], [xnum_shifted_by]: [BigNumber.prototype.gte] and
      [shiftedBy];
    - [dec_literal]: the decimal literal grammar shared by [ToNumber] and
      the [BigNumber] constructor ([digits] [.digits] [e[+-]digits]);
    - [js_to_string_int]: [Number.prototype.toString] on integers, which is
      stdpp's [pretty] on [Z]. *)

From S2P Require Import Prelude.
From Stdlib Require Import Ascii.

Local Open Scope Z_scope.

(** ** [Array.prototype.slice] *)

(** The relative index of the ECMAScript algorithm: a negative argument
    counts from the end, and the result is clamped to [0, len]. *)
Definition js_rel_index (len rel : Z) : Z :=
  if rel <? 0 then Z.max (len + rel) 0 else Z.min rel len.

Definition js_slice {A} (l : list A) (start end_ : Z) : list A :=
  let len := Z.of_nat (length l) in
  let k := js_rel_index len start in
  let fin := js_rel_index len end_ in
  take (Z.to_nat (fin - k)) (drop (Z.to_nat k) l).

(** [a[i]] on an array: [undefined] (here [None]) outside [0, length). *)
Definition js_index {A} (l : list A) (i : Z) : option A :=
  if 0 <=? i then l !! Z.to_nat i else None.

(** ** Numbers *)

Inductive xnum :=
| XNaN
| XInf (negative : bool)
| XFin (q : Q).

(** [x.gte(y)]: false as soon as one side is NaN. *)
Definition xnum_gte (x y : xnum) : bool :=
  match x, y with
  | XNaN, _ | _, XNaN => false
  | XInf false, _ => true
  | _, XInf true => true
  | XInf true, _ => false
  | _, XInf false => false
  | XFin a, XFin b => Qle_bool b a
  end.

(** [x.shiftedBy(k)]: multiplication by [10^k]; NaN and infinities are
    left as they are. *)
Definition xnum_shifted_by (x : xnum) (k : Z) : xnum :=
  match x with
  | XFin q => XFin (q * Qpower (inject_Z 10) k)%Q
  | _ => x
  end.

Definition xnum_neg (x : xnum) : xnum :=
  match x with
  | XNaN => XNaN
  | XInf b => XInf (negb b)
  | XFin q => XFin (- q)%Q
  end.

(** ** Numeric literals *)

(** The value of a digit character in base [b] ([0-9], then [a-z] or
    [A-Z] for 10 to 35), when it is a digit of that base. *)
Definition digit_in_base (b : Z) (c : ascii) : option Z :=
  let n := Z.of_N (N_of_ascii c) in
  let v :=
    if (48 <=? n) && (n <=? 57) then n - 48
    else if (97 <=? n) && (n <=? 122) then n - 87
    else if (65 <=? n) && (n <=? 90) then n - 55
    else b in
  if v <? b then Some v else None.

(** [span_digits b acc n s] reads the longest prefix of base-[b] digits of
    [s]: it returns the accumulated value, the number of digits read and
    the rest of the string. *)
Fixpoint span_digits (b acc : Z) (n : nat) (s : string) : Z * nat * string :=
  match s with
  | String c s' =>
      match digit_in_base b c with
      | Some d => span_digits b (b * acc + d) (S n) s'
      | None => (acc, n, s)
      end
  | EmptyString => (acc, n, s)
  end.

(** The exponent part [e[+-]digits], or the empty string (exponent 0). *)
Definition dec_exponent (s : string) : option Z :=
  match s with
  | EmptyString => Some 0
  | String c s' =>
      if (c =? "e")%char || (c =? "E")%char then
        let '(sign, s'') :=
          match s' with
          | String "+" r => (1, r)
          | String "-" r => (-1, r)
          | _ => (1, s')
          end in
        match span_digits 10 0 0 s'' with
        | (v, S _, EmptyString) => Some (sign * v)
        | _ => None
        end
      else None
  end.

(** The unsigned decimal literal [digits [. [digits]] [exponent]] or
    [. digits [exponent]], with at least one digit in the mantissa, and
    nothing after it; its exact value. *)
Definition dec_literal (s : string) : option Q :=
  let '(ip, ni, r) := span_digits 10 0 0 s in
  let '(m, nf, r') :=
    match r with
    | String "." r1 => span_digits 10 ip 0 r1
    | _ => (ip, O, r)
    end in
  if (ni + nf =? 0)%nat then None else
  match dec_exponent r' with
  | Some e => Some (inject_Z m * Qpower (inject_Z 10) (e - Z.of_nat nf))%Q
  | None => None
  end.

(** A whole string of base-[b] digits, at least one. *)
Definition base_integer (b : Z) (s : string) : option Z :=
  match span_digits b 0 0 s with
  | (v, S _, EmptyString) => Some v
  | _ => None
  end.

(** The radix named by the letter of a [0x], [0o] or [0b] prefix. *)
Definition radix_of (c : ascii) : option Z :=
  if (c =? "x")%char || (c =? "X")%char then Some 16
  else if (c =? "o")%char || (c =? "O")%char then Some 8
  else if (c =? "b")%char || (c =? "B")%char then Some 2
  else None.

(** ** Whitespace *)

(** The ASCII white space and line terminators of ECMAScript (tab, line
    feed, vertical tab, form feed, carriage return, space); they are also
    the ASCII members of the regular-expression class [\s]. *)
Definition is_js_space (c : ascii) : bool :=
  let n := N_of_ascii c in ((9 <=? n) && (n <=? 13))%N || (n =? 32)%N.

Fixpoint trim_start (s : string) : string :=
  match s with
  | String c s' => if is_js_space c then trim_start s' else s
  | EmptyString => s
  end.

Definition string_rev (s : string) : string :=
  String.string_of_list_ascii (rev (String.list_ascii_of_string s)).

Definition trim_end (s : string) : string := string_rev (trim_start (string_rev s)).

Definition js_trim (s : string) : string := trim_end (trim_start s).

(** ** [ToNumber] on strings (ECMAScript StringToNumber) *)

Definition string_to_number (str : string) : xnum :=
  match js_trim str with
  | EmptyString => XFin 0
  | String "0" (String c rest) as s =>
      match radix_of c with
      | Some b => match base_integer b rest with Some v => XFin (inject_Z v) | None => XNaN end
      | None => match dec_literal s with Some q => XFin q | None => XNaN end
      end
  | s =>
      let '(neg, u) :=
        match s with
        | String "-" u => (true, u)
        | String "+" u => (false, u)
        | _ => (false, s)
        end in
      let v :=
        if String.eqb u "Infinity" then XInf false
        else match dec_literal u with Some q => XFin q | None => XNaN end in
      if neg then xnum_neg v else v
  end.

(** ** The [BigNumber] constructor on a string (bignumber.js 9) *)

(** bignumber.js's [isNumeric] pattern: an optional minus sign, then
    digits with an optional point and fraction, or a point and digits,
    then an optional exponent; nothing else. *)
Definition bn_numeric (s : string) : option xnum :=
  match s with
  | String "-" u => match dec_literal u with Some q => Some (XFin (- q)%Q) | None => None end
  | _ => match dec_literal s with Some q => Some (XFin q) | None => None end
  end.

Definition is_word_char (c : ascii) : bool :=
  let n := N_of_ascii c in
  ((48 <=? n) && (n <=? 57))%N || ((65 <=? n) && (n <=? 90))%N
  || ((97 <=? n) && (n <=? 122))%N || (n =? 95)%N.

(** [str.replace(/^\s*\+(?=[\w.])|^\s+|\s+$/g, '')]. *)
Definition bn_strip (str : string) : string :=
  let t := trim_start str in
  let lead :=
    match t with
    | String "+" (String c r) => if is_word_char c || (c =? ".")%char then String c r else t
    | _ => t
    end in
  trim_end lead.

(** [/^-?(Infinity|NaN)$/]. *)
Definition bn_inf_or_nan (s : string) : option xnum :=
  if String.eqb s "Infinity" then Some (XInf false)
  else if String.eqb s "-Infinity" then Some (XInf true)
  else if String.eqb s "NaN" || String.eqb s "-NaN" then Some XNaN
  else None.

(** [/^(-?)0([xbo])(?=\w[\w.]*$)/i] followed by the base-[b] parse of the
    rest: integer digits and an optional fraction after one point. *)
Definition bn_base_prefix (s : string) : option xnum :=
  let '(neg, u) := match s with String "-" u => (true, u) | _ => (false, s) end in
  match u with
  | String "0" (String c (String d r)) =>
      match radix_of c with
      | Some b =>
          if negb (is_word_char d) then None else
          let v :=
            match span_digits b 0 0 (String d r) with
            | (i, S _, EmptyString) => XFin (inject_Z i)
            | (i, S _, String "." f) =>
                match span_digits b i 0 f with
                | (m, nf, EmptyString) => XFin (inject_Z m / inject_Z (b ^ Z.of_nat nf))%Q
                | _ => XNaN
                end
            | _ => XNaN
            end in
          Some (if neg then xnum_neg v else v)
      | None => None
      end
  | _ => None
  end.

(** [new BigNumber(str)] with the library's default configuration: a
    string that is not a number gives NaN (no exception, [DEBUG] is off). *)
Definition bignumber_of_string (str : string) : xnum :=
  match bn_numeric str with
  | Some x => x
  | None =>
      let s := bn_strip str in
      match bn_inf_or_nan s with
      | Some x => x
      | None =>
          match bn_base_prefix s with
          | Some x => x
          | None =>
              if String.eqb s str then XNaN
              else match bn_numeric s with Some x => x | None => XNaN end
          end
      end
  end.

(** ** Printing integers *)

(** [String(n)] and a template literal [`${n}`] on an integer below
    [10^21] print its decimal digits with a leading [-] when negative:
    stdpp's [pretty] on [Z] prints exactly these. *)
Definition js_to_string_int (n : Z) : string := pretty n.

Local Set Warnings "-register-all".

(** ** Dynamic values *)

(** The values the script reads out of the parsed configuration: what
    [JSON.parse] produces, [undefined], and [JProtoMember] for a member
    inherited from [Object.prototype] (a function, or the prototype itself
    for [__proto__]). *)
Inductive jsval :=
| JUndefined
| JNull
| JBool (b : bool)
| JNumber (n : xnum)
| JString (s : string)
| JArray (vs : list jsval)
| JObject (props : list (string * jsval))
| JProtoMember.

Definition object_prototype_keys : list string :=
  ["constructor"; "hasOwnProperty"; "isPrototypeOf"; "propertyIsEnumerable";
   "toLocaleString"; "toString"; "valueOf"; "__defineGetter__";
   "__defineSetter__"; "__lookupGetter__"; "__lookupSetter__"; "__proto__"].

(** A property that is not an own property: found on the prototype chain
    or [undefined]. *)
Definition inherited_prop (k : string) : jsval :=
  if bool_decide (k ∈ object_prototype_keys) then JProtoMember else JUndefined.

(** [JSON.parse] keeps the last of duplicate keys. *)
Fixpoint assoc_last (k : string) (props : list (string * jsval)) : option jsval :=
  match props with
  | [] => None
  | (k', v) :: ps =>
      match assoc_last k ps with
      | Some w => Some w
      | None => if String.eqb k k' then Some v else None
      end
  end.

(** [v[k]]: [None] is the [TypeError] thrown on [undefined] and [null].
    An array answers its canonical indices and [length]; a string its
    [length]; the other members of [Array.prototype], [String.prototype]
    and [Function.prototype] are not modelled (none of the keys the script
    reads is one of them). *)
Definition get_prop (v : jsval) (k : string) : option jsval :=
  match v with
  | JUndefined | JNull => None
  | JObject ps => Some (match assoc_last k ps with Some w => w | None => inherited_prop k end)
  | JArray vs =>
      if String.eqb k "length" then Some (JNumber (XFin (inject_Z (Z.of_nat (length vs)))))
      else match span_digits 10 0 0 k with
           | (i, S _, EmptyString) =>
               if String.eqb (js_to_string_int i) k
               then Some (match vs !! Z.to_nat i with Some w => w | None => JUndefined end)
               else Some (inherited_prop k)
           | _ => Some (inherited_prop k)
           end
  | JString s =>
      if String.eqb k "length" then Some (JNumber (XFin (inject_Z (Z.of_nat (String.length s)))))
      else Some (inherited_prop k)
  | JBool _ | JNumber _ | JProtoMember => Some (inherited_prop k)
  end.

(** [ToBoolean], which [!x] negates. *)
Definition js_truthy (v : jsval) : bool :=
  match v with
  | JUndefined | JNull => false
  | JBool b => b
  | JNumber XNaN => false
  | JNumber (XFin q) => negb (Qeq_bool q 0)
  | JNumber (XInf _) => true
  | JString s => negb (String.eqb s "")
  | JArray _ | JObject _ | JProtoMember => true
  end.

(** [ToNumber] (unary [+]).  An object converts through its string form:
    ["[object Object]"] for a plain object and a function's source text,
    both NaN; an array through [join(",")]: the empty array is [""], a
    one-element array is the string of its element ([""] for [null] and
    [undefined]), and two or more elements contain a comma. *)
Fixpoint js_to_number (v : jsval) : xnum :=
  match v with
  | JUndefined => XNaN
  | JNull => XFin 0
  | JBool b => XFin (if b then 1 else 0)
  | JNumber n => n
  | JString s => string_to_number s
  | JArray [] => XFin 0
  | JArray [w] =>
      match w with
      | JUndefined | JNull => XFin 0
      | JBool _ | JObject _ | JProtoMember => XNaN
      | _ => js_to_number w
      end
  | JArray _ => XNaN
  | JObject _ | JProtoMember => XNaN
  end.

(** ** Facts about the built-ins *)

Lemma js_rel_index_nonneg (len rel : Z) :
  0 <= rel -> js_rel_index len rel = Z.min rel len.
Proof. intros H. unfold js_rel_index. destruct (Z.ltb_spec rel 0); lia. Qed.

(** A window [slice(i, n + i)] taken at a non-negative index. *)
Lemma js_slice_window {A} (l : list A) (i n : Z) :
  0 <= i -> 0 <= n -> js_slice l i (n + i) = take (Z.to_nat n) (drop (Z.to_nat i) l).
Proof.
  intros Hi Hn. unfold js_slice.
  rewrite !js_rel_index_nonneg by lia.
  destruct (Z.le_gt_cases (Z.of_nat (length l)) i) as [Hle|Hlt].
  - rewrite !drop_ge by lia. by rewrite !take_nil.
  - rewrite (Z.min_l i) by lia.
    destruct (Z.le_gt_cases (n + i) (Z.of_nat (length l))).
    + rewrite Z.min_l by lia. by replace (n + i - i) with n by lia.
    + rewrite Z.min_r by lia. rewrite !take_ge; [done | rewrite length_drop; lia..].
Qed.

(** [slice(i)] (or [slice(i, length)]) at a non-negative index. *)
Lemma js_slice_from {A} (l : list A) (i : Z) :
  0 <= i -> js_slice l i (Z.of_nat (length l)) = drop (Z.to_nat i) l.
Proof.
  intros Hi. unfold js_slice.
  rewrite !js_rel_index_nonneg by lia.
  destruct (Z.le_gt_cases (Z.of_nat (length l)) i).
  - rewrite !drop_ge by lia. by rewrite take_nil.
  - rewrite (Z.min_l i) by lia. apply take_ge. rewrite length_drop. lia.
Qed.

Lemma js_index_nonneg {A} (l : list A) (i : Z) :
  0 <= i -> js_index l i = l !! Z.to_nat i.
Proof. intros Hi. unfold js_index. destruct (Z.leb_spec 0 i); [done | lia]. Qed.

Lemma js_index_neg {A} (l : list A) (i : Z) : i < 0 -> js_index l i = None.
Proof. intros Hi. unfold js_index. destruct (Z.leb_spec 0 i); [lia | done]. Qed.

#[export] Hint Rewrite @js_slice_window @js_slice_from using lia : snap_rw.

(** ** Printing and reading back integers *)

Lemma digit_of_pretty_char (d : N) :
  (d < 10)%N -> digit_in_base 10 (pretty_N_char d) = Some (Z.of_N d).
Proof.
  intros Hd.
  assert (d = 0 \/ d = 1 \/ d = 2 \/ d = 3 \/ d = 4 \/ d = 5 \/ d = 6 \/ d = 7 \/ d = 8 \/ d = 9)%N
    as Hcases by lia.
  repeat destruct Hcases as [->|Hcases]; [reflexivity..|]. by subst.
Qed.

(** Reading the digits that [pretty_N_go] prints multiplies what was read
    before by a power of ten and adds the printed number. *)
Lemma span_pretty_N_go (x : N) :
  forall acc n s, exists k,
  span_digits 10 acc n (pretty_N_go x s) = span_digits 10 (acc * 10 ^ Z.of_nat k + Z.of_N x) (n + k) s /\
  (x <> 0%N -> k <> 0%nat).
Proof.
  induction (N.lt_wf_0 x) as [x _ IH]; intros acc n s.
  destruct (decide (x = 0%N)) as [->|Hx].
  - exists 0%nat. rewrite pretty_N_go_0. split; [|done]. by rewrite Z.mul_1_r, Z.add_0_r, Nat.add_0_r.
  - rewrite pretty_N_go_step by lia.
    destruct (IH (x `div` 10)%N ltac:(apply N.div_lt; lia) acc n
                (String (pretty_N_char (x `mod` 10)) s)) as [k [Hk _]].
    exists (S k). split; [|done]. rewrite Hk. cbn [span_digits].
    rewrite digit_of_pretty_char by (apply N.mod_lt; lia).
    replace (n + S k)%nat with (S (n + k)) by lia. f_equal.
    rewrite Nat2Z.inj_succ, Z.pow_succ_r by lia.
    pose proof (N.div_mod x 10 ltac:(lia)) as Hdm. apply (f_equal Z.of_N) in Hdm.
    rewrite N2Z.inj_add, N2Z.inj_mul in Hdm. change (Z.of_N 10) with 10 in Hdm. rewrite Hdm. ring.
Qed.

(** The first character [pretty_N_go] prints for a positive number is a
    digit. *)
Lemma pretty_N_go_head (x : N) :
  forall s, x <> 0%N -> exists d s', (d < 10)%N /\ pretty_N_go x s = String (pretty_N_char d) s'.
Proof.
  induction (N.lt_wf_0 x) as [x _ IH]; intros s Hx.
  rewrite pretty_N_go_step by lia.
  destruct (decide (x `div` 10 = 0)%N) as [Hq|Hq].
  - rewrite Hq, pretty_N_go_0. exists (x `mod` 10)%N, s. split; [apply N.mod_lt; lia | done].
  - apply IH; [apply N.div_lt; lia | done].
Qed.

Lemma dec_literal_pretty_N (x : N) :
  dec_literal (pretty (Z.of_N x)) = Some (inject_Z (Z.of_N x)).
Proof.
  destruct x as [|p]; [reflexivity|]. cbn [Z.of_N pretty pretty_Z]. unfold pretty_positive, pretty, pretty_N.
  rewrite decide_False by done.
  destruct (span_pretty_N_go (N.pos p) 0 0 "") as [k [Hk Hk0]].
  unfold dec_literal. rewrite Hk. cbn [span_digits].
  destruct k as [|k]; [by destruct Hk0|]. cbn.
  unfold Qmult, inject_Z. cbn. by rewrite Z.mul_1_r.
Qed.

(** Round trip: bignumber.js reads back the decimal string of a
    non-negative integer (what [String(n)] prints) as that integer. *)
Lemma bignumber_of_string_pretty (x : N) :
  bignumber_of_string (pretty (Z.of_N x)) = XFin (inject_Z (Z.of_N x)).
Proof.
  unfold bignumber_of_string. pose proof (dec_literal_pretty_N x) as Hdec.
  destruct x as [|p]; [reflexivity|].
  revert Hdec. cbn [Z.of_N pretty pretty_Z]. unfold pretty_positive, pretty, pretty_N.
  rewrite decide_False by done.
  destruct (pretty_N_go_head (N.pos p) "" ltac:(done)) as (d & s' & Hd & ->).
  intros Hdec.
  assert (d = 0 \/ d = 1 \/ d = 2 \/ d = 3 \/ d = 4 \/ d = 5 \/ d = 6 \/ d = 7 \/ d = 8 \/ d = 9)%N
    as Hcases by lia.
  repeat destruct Hcases as [->|Hcases]; try subst d; cbn [bn_numeric pretty_N_char] in Hdec |- *;
    by rewrite Hdec.
Qed.

Lemma span_pretty_N (x : N) :
  exists k, span_digits 10 0 0 (pretty (Z.of_N x)) = (Z.of_N x, S k, "").
Proof.
  destruct x as [|p]; [by exists 0%nat|]. cbn [Z.of_N pretty pretty_Z].
  unfold pretty_positive, pretty, pretty_N. rewrite decide_False by done.
  destruct (span_pretty_N_go (N.pos p) 0 0 "") as [[|k] [Hk Hk0]]; [by destruct Hk0|].
  exists k. by rewrite Hk.
Qed.

(** What [span_digits] reads to the end consists of digits of its base. *)
Lemma span_digits_all (b acc : Z) (n : nat) (s : string) v k :
  span_digits b acc n s = (v, k, "") ->
  Forall (fun c => is_Some (digit_in_base b c)) (String.list_ascii_of_string s).
Proof.
  revert acc n. induction s as [|c s IH]; intros acc n; cbn; [constructor|].
  destruct (digit_in_base b c) eqn:Hc; [|done]. intros H. constructor; [done|]. by eapply IH.
Qed.

Lemma digit_in_base_mono (b b' : Z) (c : ascii) :
  b <= b' -> b <= 36 -> is_Some (digit_in_base b c) -> is_Some (digit_in_base b' c).
Proof.
  unfold digit_in_base. intros Hb Hb36.
  repeat match goal with |- context [if ?t then _ else _] => destruct t eqn:? end;
  rewrite ?Z.ltb_lt, ?Z.ltb_ge, ?andb_true_iff, ?Z.leb_le in *;
  intros [? Hs]; try discriminate Hs; eauto; lia.
Qed.

(** ** [ToString] for template literals *)

Fixpoint join_comma (ss : list string) : string :=
  match ss with
  | [] => ""
  | [s] => s
  | s :: ss' => s +:+ "," +:+ join_comma ss'
  end.

(** [`${v}`].  A number prints as [Number.prototype.toString] does only
    for integers below [10^21] ([None] for the other finite numbers, whose
    shortest round-trip digits are not modelled), and a function's source
    text is not modelled either. *)
Fixpoint js_to_string (v : jsval) : option string :=
  match v with
  | JUndefined => Some "undefined"
  | JNull => Some "null"
  | JBool b => Some (if b then "true" else "false")
  | JString s => Some s
  | JNumber XNaN => Some "NaN"
  | JNumber (XInf false) => Some "Infinity"
  | JNumber (XInf true) => Some "-Infinity"
  | JNumber (XFin q) =>
      let q' := Qred q in
      if (Qden q' =? 1)%positive && (Z.abs (Qnum q') <? 10 ^ 21) then Some (js_to_string_int (Qnum q'))
      else None
  | JArray vs =>
      join_comma <$> mapM (fun w => match w with
                                    | JUndefined | JNull => Some ""
                                    | _ => js_to_string w
                                    end) vs
  | JObject _ => Some "[object Object]"
  | JProtoMember => None
  end.
