(* ===== verification/Types.v ===== *)
(** * The records of [shared/types.ts]

    [SnapshotCandidate] is one row of a holder query; [SnapshotMember] is an
    address with its weight.  [BigNumber.Value] is bignumber.js's union of
    a string, a number and a [BigNumber]; the script only ever stores a
    candidate's balance string in it. *)

From S2P Require Import Prelude JsRuntime.

Inductive BigNumberValue :=
| BVString (s : string)
| BVNumber (n : xnum)
| BVBigNumber (n : xnum).

Record SnapshotCandidate := mkCandidate {
  address : string;
  balance : string
}.

Record SnapshotMember := mkMember {
  member_address : string;
  weight : BigNumberValue
}.

(** [new BigNumber(v)] on a [BigNumber.Value]: a number is read as the
    decimal it prints as, a [BigNumber] is copied. *)
Definition bignumber_of_value (v : BigNumberValue) : xnum :=
  match v with
  | BVString s => bignumber_of_string s
  | BVNumber n | BVBigNumber n => n
  end.

#[export] Instance Q_eq_decision : EqDecision Q.
Proof. intros [a b] [c d]. unfold Decision. decide equality; solve_decision. Defined.
#[export] Instance xnum_eq_decision : EqDecision xnum.
Proof. solve_decision. Defined.
#[export] Instance BigNumberValue_eq_decision : EqDecision BigNumberValue.
Proof. solve_decision. Defined.
#[export] Instance SnapshotCandidate_eq_decision : EqDecision SnapshotCandidate.
Proof. solve_decision. Defined.
#[export] Instance SnapshotMember_eq_decision : EqDecision SnapshotMember.
Proof. solve_decision. Defined.
