(* ===== verification/Helpers.v ===== *)
(** * [shared/helpers.ts]: [getArg] and [chunkArray]

    [getArg] reads the script's positional arguments.  [chunkArray] is a
    [while] loop over an index; it is written as [chunkArray_loop], a
    [Fixpoint] whose fuel bounds the number of loop tests ([None] is "the
    loop had not finished when the fuel ran out").  The reference
    chunking is [chunks], defined by well-founded recursion on the length
    of the list; the theorems relate the two: equality for a positive size
    and enough fuel, and non-termination for a size that is not positive.
    ([timeout] needs the effects of [Script] and lives there.) *)

From S2P Require Import Prelude JsRuntime.
From Equations Require Import Equations.

Local Open Scope Z_scope.

(** [getArg = (index) => process.argv.slice(2)[index]] *)
Definition getArg (argv : list string) (index : Z) : option string :=
  js_index (js_slice argv 2 (Z.of_nat (length argv))) index.

(** The body of [chunkArray]: [while (index < array.length) {
    chunked.push(array.slice(index, size + index)); index += size }]. *)
Fixpoint chunkArray_loop {T} (fuel : nat) (array : list T) (size index : Z)
    (chunked : list (list T)) : option (list (list T)) :=
  match fuel with
  | O => None
  | S fuel' =>
      if index <? Z.of_nat (length array)
      then chunkArray_loop fuel' array size (index + size)
             (chunked ++ [js_slice array index (size + index)])
      else Some chunked
  end.

(** [chunkArray(array, size)]: [chunked = []], [index = 0], the loop. *)
Definition chunkArray {T} (fuel : nat) (array : list T) (size : Z) : option (list (list T)) :=
  chunkArray_loop fuel array size 0 [].

(** The reference chunking into pieces of [S n] elements. *)
Equations? chunks {T} (n : nat) (l : list T) : list (list T) by wf (length l) lt :=
  chunks n [] := [];
  chunks n (x :: xs) := take (S n) (x :: xs) :: chunks n (drop (S n) (x :: xs)).
Proof. simpl. rewrite length_drop. lia. Qed.

(** ** The reference chunking *)

Section Chunks.
Context {T : Type}.

Lemma chunks_nil (n : nat) : chunks n (@nil T) = [].
Proof. by simp chunks. Qed.

Lemma chunks_nonempty (n : nat) (l : list T) :
  l <> [] -> chunks n l = take (S n) l :: chunks n (drop (S n) l).
Proof. destruct l as [|x xs]; [done|]. intros _. by simp chunks. Qed.

Lemma chunks_concat (n : nat) (l : list T) : concat (chunks n l) = l.
Proof.
  funelim (chunks n l); simp chunks; [done|].
  match goal with IH : concat (chunks _ _) = _ |- _ => by apply take_drop_concat_cons end.
Qed.

Lemma chunks_sizes (n : nat) (l : list T) :
  Forall (fun c => (0 < length c <= S n)%nat) (chunks n l).
Proof.
  funelim (chunks n l); simp chunks; constructor; [|done].
  rewrite length_take. simpl. lia.
Qed.

Lemma chunks_full (n : nat) (l : list T) :
  forall i c, chunks n l !! i = Some c ->
  (S i < length (chunks n l))%nat -> length c = S n.
Proof.
  funelim (chunks n l); simp chunks; [done|].
  intros [|i] c Hc Hlen; simpl in *.
  - injection Hc as <-. simpl. rewrite length_take.
    destruct (drop n xs) eqn:E; [rewrite chunks_nil in Hlen; simpl in Hlen; lia|].
    apply (f_equal length) in E. rewrite length_drop in E. simpl in E. lia.
  - match goal with IH : forall _ _, _ -> _ -> _ |- _ => apply (IH i c); [done | lia] end.
Qed.

Lemma chunks_count (n : nat) (l : list T) :
  length (chunks n l) = ((length l + n) / S n)%nat.
Proof.
  funelim (chunks n l); simp chunks; cbn [length].
  - symmetry. apply Nat.div_small. lia.
  - match goal with IH : length (chunks _ _) = _ |- _ => rewrite IH end.
    rewrite length_drop. cbn [length]. apply div_ceil_step.
Qed.
End Chunks.

(** ** The loop of [chunkArray] *)

Section ChunkArrayLoop.
Context {T : Type}.

(** From index [i], with a size of [S n] and enough fuel, the loop
    appends the reference chunks of the rest of the array. *)
Lemma chunkArray_loop_spec (array : list T) (n : nat) :
  forall fuel (i : nat) chunked, (length array - i < fuel)%nat ->
  chunkArray_loop fuel array (Z.of_nat (S n)) (Z.of_nat i) chunked
  = Some (chunked ++ chunks n (drop i array)).
Proof.
  induction fuel as [|fuel IH]; intros i chunked Hf; [lia|]. simpl.
  destruct (Z.ltb_spec (Z.of_nat i) (Z.of_nat (length array))).
  - rewrite js_slice_window by lia. rewrite <- Nat2Z.inj_add, IH by lia.
    rewrite (chunks_nonempty n (drop i array)); last first.
    { intros E. apply drop_nil_inv in E. lia. }
    by rewrite drop_drop, <- app_assoc, !Nat2Z.id.
  - rewrite drop_ge by lia. by rewrite chunks_nil, app_nil_r.
Qed.

(** With a size that is not positive the index never grows, so once the
    test [index < array.length] holds it holds forever. *)
Lemma chunkArray_loop_stuck (array : list T) (size : Z) :
  size <= 0 -> forall fuel index chunked, index < Z.of_nat (length array) ->
  chunkArray_loop fuel array size index chunked = None.
Proof.
  intros Hs. induction fuel as [|fuel IH]; intros index chunked Hi; simpl; [done|].
  destruct (Z.ltb_spec index (Z.of_nat (length array))); [apply IH|]; lia.
Qed.
End ChunkArrayLoop.

(** ** [getArg] *)

Lemma getArg_spec (argv : list string) (index : Z) :
  getArg argv index = if 0 <=? index then argv !! (2 + Z.to_nat index)%nat else None.
Proof.
  unfold getArg. rewrite js_slice_from by lia.
  destruct (Z.leb_spec 0 index).
  - rewrite js_index_nonneg, lookup_drop by done. done.
  - by apply js_index_neg.
Qed.

(** ** Properties of [chunkArray] *)

(** C9: [chunkArray] refines the reference chunking: with a positive size
    and more fuel than the array has elements, the [while] loop terminates
    and returns the consecutive pieces of [size] elements of the array. *)
Theorem chunkArray_refines {T} (array : list T) (size : Z) (fuel : nat) :
  0 < size -> (length array < fuel)%nat ->
  chunkArray fuel array size = Some (chunks (Z.to_nat size - 1) array).
Proof.
  intros Hs Hf. unfold chunkArray.
  replace size with (Z.of_nat (S (Z.to_nat size - 1))) at 1 by lia.
  rewrite (chunkArray_loop_spec array _ fuel 0 []) by lia. done.
Qed.

Lemma chunkArray_refines_witness :
  (0 < 2 /\ length [1; 2; 3] < 4)%nat /\
  chunkArray 4 [1; 2; 3] 2 = Some (chunks 1 [1; 2; 3]).
Proof. split; [simpl; lia|]. apply (chunkArray_refines [1; 2; 3] 2 4); simpl; lia. Defined.

(** C32: round trip: concatenating the chunks gives the array back, so no
    element is lost, duplicated or reordered. *)
Theorem chunkArray_concat {T} (array : list T) (size : Z) (fuel : nat) :
  0 < size -> (length array < fuel)%nat ->
  (fun cs => concat cs) <$> chunkArray fuel array size = Some array.
Proof. intros Hs Hf. rewrite chunkArray_refines by done. simpl. by rewrite chunks_concat. Qed.

Lemma chunkArray_concat_witness :
  (fun cs => concat cs) <$> chunkArray 6 [1; 2; 3; 4; 5] 2 = Some [1; 2; 3; 4; 5].
Proof. apply chunkArray_concat; simpl; lia. Defined.

(** C33: the shape of the batches: there are [ceil(length / size)] of
    them, each has between one and [size] elements, and all but the last
    have exactly [size]. *)
Theorem chunkArray_shape {T} (array : list T) (size : Z) (fuel : nat) cs :
  0 < size -> (length array < fuel)%nat -> chunkArray fuel array size = Some cs ->
  length cs = ((length array + Z.to_nat size - 1) / Z.to_nat size)%nat /\
  forall i c, cs !! i = Some c ->
    (0 < length c <= Z.to_nat size)%nat /\
    ((S i < length cs)%nat -> length c = Z.to_nat size).
Proof.
  intros Hs Hf. rewrite chunkArray_refines by done. intros [= <-].
  assert (Z.to_nat size = S (Z.to_nat size - 1))%nat as Hsz by lia.
  revert Hsz. generalize (Z.to_nat size - 1)%nat as n. intros n ->.
  split; [rewrite chunks_count; f_equal; lia|].
  intros i c Hc. split.
  - pose proof (chunks_sizes n array) as HF. rewrite Forall_lookup in HF. by apply (HF i c).
  - by apply (chunks_full _ array i c).
Qed.

Lemma chunkArray_shape_witness :
  exists cs, chunkArray 1201 (seq 0 1200) 500 = Some cs /\
  length cs = 3%nat /\ length <$> cs = [500; 500; 200]%nat.
Proof.
  eexists. split; [vm_compute; reflexivity|].
  pose proof (chunkArray_shape (seq 0 1200) 500 1201 _ ltac:(lia) ltac:(rewrite length_seq; lia)
    ltac:(vm_compute; reflexivity)) as [Hn _].
  split; [exact Hn | vm_compute; reflexivity].
Defined.

(** C34: [chunkArray] does not terminate when the size is not positive
    and the array is not empty: every fuel runs out. *)
Theorem chunkArray_nonpositive_diverges {T} (array : list T) (size : Z) (fuel : nat) :
  size <= 0 -> array <> [] -> chunkArray fuel array size = None.
Proof.
  intros Hs Ha. apply chunkArray_loop_stuck; [done|].
  destruct array; [done|]. simpl. lia.
Qed.

Lemma chunkArray_nonpositive_diverges_witness :
  chunkArray 1000 [tt] 0 = None.
Proof. apply chunkArray_nonpositive_diverges; [lia | done]. Defined.
