(* ===== verification/Script.v ===== *)
(** * The script's effects

    [register-snapshot.ts] is a sequence of awaited calls on the outside
    world.  A computation of type [M A] reads the [World] (its answers are
    fixed for the run), appends the [Event]s it causes to a trace (console
    lines, pauses, requests, broadcasts) and either returns a value or
    throws, keeping the events that happened before the throw.  An
    uncaught throw ends the process.  [timeout] of [shared/helpers.ts] is
    here, since it is an effect. *)

From S2P Require Import Prelude JsRuntime Types.

Local Open Scope Z_scope.

(** ** What the outside world answers *)

(** The fields of the network configuration the script reads. *)
Record NetworkConfig := mkNetworkConfig {
  GasPerDataByte : Z;
  ChainID : string
}.

(** A transaction as the SDK's [Transaction] holds it. *)
Record Transaction := mkTransaction {
  tx_nonce : Z;
  tx_value : Z;
  tx_receiver : string;
  tx_sender : string;
  tx_gasLimit : Z;
  tx_data : string;
  tx_chainID : string;
  tx_signature : option string
}.

(** [UserSigner]: its address and its signing function on the bytes
    returned by [serializeForSigning]. *)
Record UserSigner := mkUserSigner {
  signer_address : string;
  signer_sign : string -> string
}.

Record World := mkWorld {
  (** [process.argv] *)
  w_argv : list string;
  (** the parsed [mxpy.data-storage.json]; [None] when reading or parsing
      throws *)
  w_config : option jsval;
  (** the admin PEM wallet turned into a signer; [None] when the file is
      missing or [UserSigner.fromPem] throws *)
  w_admin_signer : option UserSigner;
  (** [getDefinitionOfFungibleToken(id).decimals] *)
  w_token_decimals : string -> option Z;
  (** [doGetGeneric(path)] on the API *)
  w_api_get : string -> option (list SnapshotCandidate);
  (** [getAccount(address).nonce] *)
  w_account_nonce : string -> option Z;
  (** [getNetworkConfig()] on the proxy *)
  w_network_config : option NetworkConfig;
  (** whether [sendTransaction(tx)] succeeds *)
  w_send_ok : Transaction -> bool
}.

(** ** What the script does to it *)

(** The console lines, by template, with the interpolated values. *)
Inductive LogMsg :=
| LogInvalidConfig (env : option string)
| LogScanTokens (minHold : xnum)
| LogTokensDone
| LogScanSft
| LogIncluded (count : Z)
| LogRegistering
| LogBatch (index total : Z)
| LogDone (count : Z)
| LogWaiting (seconds : Q).

Inductive Event :=
| ELog (m : LogMsg)
| ESleep (ms : Z)
| EGetTokenDefinition (tokenId : string)
| EGet (path : string)
| EGetAccount (addr : string)
| EGetNetworkConfig
| ESend (tx : Transaction).

(** Why the process stops with an unhandled rejection. *)
Inductive Exn :=
| TypeErrorUndefined
| ConfigReadFailed
| PemReadFailed
| RequestFailed (what : string)
| InvalidArgument (what : string)
| SendFailed (tx : Transaction)
(** the fuel of a modelled loop ran out (proved unreachable where used) *)
| OutOfFuel
(** a value whose conversion is outside the model (see [js_to_string]) *)
| NotModelled (what : string).

Inductive Outcome (A : Type) :=
| Ok (a : A)
| Thrown (e : Exn).
Arguments Ok {A} a.
Arguments Thrown {A} e.

(** ** The monad *)

Definition M (A : Type) : Type := World -> list Event * Outcome A.

#[export] Instance M_ret : MRet M := fun A a w => ([], Ok a).
#[export] Instance M_bind : MBind M := fun A B k m w =>
  match m w with
  | (t1, Ok a) => let '(t2, r) := k a w in (t1 ++ t2, r)
  | (t1, Thrown e) => (t1, Thrown e)
  end.

Definition ask : M World := fun w => ([], Ok w).
Definition emit (e : Event) : M unit := fun _ => ([e], Ok tt).
Definition throw {A} (e : Exn) : M A := fun _ => ([], Thrown e).
Definition lift_option {A} (e : Exn) (o : option A) : M A :=
  match o with Some a => mret a | None => throw e end.
Definition log (m : LogMsg) : M unit := emit (ELog m).

Definition trace_of {A} (m : M A) (w : World) : list Event := fst (m w).
Definition outcome_of {A} (m : M A) (w : World) : Outcome A := snd (m w).

(** [timeout(milliseconds, log = false)] *)
Definition timeout (milliseconds : Z) (log_it : bool) : M unit :=
  (if log_it then log (LogWaiting (inject_Z milliseconds / inject_Z 1000)%Q) else mret tt) ;;
  emit (ESleep milliseconds).

(** ** Running computations *)

Section Run.
Context {A B : Type}.

Lemma run_ret (a : A) (w : World) : (mret a : M A) w = ([], Ok a).
Proof. done. Qed.

Lemma run_bind_ok (m : M A) (k : A -> M B) (w : World) t a :
  m w = (t, Ok a) -> (m ≫= k) w = (t ++ fst (k a w), snd (k a w)).
Proof. intros H. unfold mbind, M_bind. rewrite H. by destruct (k a w). Qed.

Lemma run_bind_thrown (m : M A) (k : A -> M B) (w : World) t e :
  m w = (t, Thrown e) -> (m ≫= k) w = (t, Thrown e).
Proof. intros H. unfold mbind, M_bind. by rewrite H. Qed.

(** Two continuations that agree on every value give the same run. *)
Lemma run_bind_ext (m : M A) (k1 k2 : A -> M B) (w : World) :
  (forall a, k1 a w = k2 a w) -> (m ≫= k1) w = (m ≫= k2) w.
Proof. intros Hk. unfold mbind, M_bind. destruct (m w) as [t [a|e]]; [by rewrite Hk | done]. Qed.

Lemma run_emit (e : Event) (w : World) : emit e w = ([e], Ok tt).
Proof. done. Qed.

Lemma run_lift_option_some (ex : Exn) (a : A) (w : World) :
  lift_option ex (Some a) w = ([], Ok a).
Proof. done. Qed.

Lemma run_lift_option_none (ex : Exn) (w : World) :
  lift_option ex (@None A) w = ([], Thrown ex).
Proof. done. Qed.
End Run.

Lemma run_timeout (ms : Z) (w : World) : timeout ms false w = ([ESleep ms], Ok tt).
Proof. done. Qed.

#[export] Hint Rewrite @run_ret @run_emit @run_lift_option_some @run_lift_option_none
  run_timeout : snap_rw.

(** [ApiNetworkProvider.doGetGeneric(path)]: one request, whose failure
    rejects the promise. *)
Definition doGetGeneric (path : string) : M (list SnapshotCandidate) :=
  emit (EGet path) ;;
  w ← ask;
  lift_option (RequestFailed path) (w_api_get w path).

Lemma run_doGetGeneric (path : string) (w : World) :
  doGetGeneric path w =
  ([EGet path], match w_api_get w path with Some cs => Ok cs | None => Thrown (RequestFailed path) end).
Proof. unfold doGetGeneric, mbind, M_bind. simpl. by destruct (w_api_get w path). Qed.

(** ** Projections of traces *)

(** The requests of a trace. *)
Definition gets (t : list Event) : list string :=
  omap (fun e => match e with EGet p => Some p | _ => None end) t.

Lemma gets_app (t1 t2 : list Event) : gets (t1 ++ t2) = gets t1 ++ gets t2.
Proof. apply omap_app. Qed.

(** The broadcasts of a trace. *)
Definition sends (t : list Event) : list Transaction :=
  omap (fun e => match e with ESend tx => Some tx | _ => None end) t.

Lemma sends_app (t1 t2 : list Event) : sends (t1 ++ t2) = sends t1 ++ sends t2.
Proof. apply omap_app. Qed.

(** The console lines of a trace. *)
Definition logs (t : list Event) : list LogMsg :=
  omap (fun e => match e with ELog m => Some m | _ => None end) t.

Lemma logs_app (t1 t2 : list Event) : logs (t1 ++ t2) = logs t1 ++ logs t2.
Proof. apply omap_app. Qed.

Lemma logs_silent (t : list Event) : Forall (fun e => forall m, e <> ELog m) t -> logs t = [].
Proof. induction 1 as [|e t He _ IH]; [done|]. destruct e; try done. by destruct (He m). Qed.

(** ** Traces and outcomes of composed computations *)

Section Compose.
Context {A B : Type}.

Lemma outcome_of_bind (m : M A) (k : A -> M B) (w : World) :
  outcome_of (m ≫= k) w =
  match outcome_of m w with Ok a => outcome_of (k a) w | Thrown e => Thrown e end.
Proof.
  unfold outcome_of, mbind, M_bind. destruct (m w) as [t [a|e]]; [|done].
  cbn. by destruct (k a w).
Qed.

Lemma trace_of_bind (m : M A) (k : A -> M B) (w : World) :
  trace_of (m ≫= k) w =
  trace_of m w ++ match outcome_of m w with Ok a => trace_of (k a) w | Thrown _ => [] end.
Proof.
  unfold trace_of, outcome_of, mbind, M_bind. destruct (m w) as [t [a|e]].
  - cbn. by destruct (k a w).
  - cbn. by rewrite app_nil_r.
Qed.

Lemma outcome_of_ret (a : A) (w : World) : outcome_of (mret a : M A) w = Ok a.
Proof. done. Qed.

Lemma trace_of_ret (a : A) (w : World) : trace_of (mret a : M A) w = [].
Proof. done. Qed.

Lemma outcome_of_throw (e : Exn) (w : World) : outcome_of (throw e : M A) w = Thrown e.
Proof. done. Qed.

Lemma trace_of_throw (e : Exn) (w : World) : trace_of (throw e : M A) w = [].
Proof. done. Qed.

Lemma outcome_of_lift_option (e : Exn) (o : option A) (w : World) :
  outcome_of (lift_option e o) w = match o with Some a => Ok a | None => Thrown e end.
Proof. by destruct o. Qed.

Lemma trace_of_lift_option (e : Exn) (o : option A) (w : World) :
  trace_of (lift_option e o) w = [].
Proof. by destruct o. Qed.
End Compose.

Lemma outcome_of_emit (e : Event) (w : World) : outcome_of (emit e) w = Ok tt.
Proof. done. Qed.

Lemma trace_of_emit (e : Event) (w : World) : trace_of (emit e) w = [e].
Proof. done. Qed.

Lemma outcome_of_log (m : LogMsg) (w : World) : outcome_of (log m) w = Ok tt.
Proof. done. Qed.

Lemma trace_of_log (m : LogMsg) (w : World) : trace_of (log m) w = [ELog m].
Proof. done. Qed.

Lemma outcome_of_ask (w : World) : outcome_of ask w = Ok w.
Proof. done. Qed.

Lemma trace_of_ask (w : World) : trace_of ask w = [].
Proof. done. Qed.

Lemma outcome_of_timeout (ms : Z) (w : World) : outcome_of (timeout ms false) w = Ok tt.
Proof. done. Qed.

Lemma trace_of_timeout (ms : Z) (w : World) : trace_of (timeout ms false) w = [ESleep ms].
Proof. done. Qed.

Lemma outcome_of_doGetGeneric (path : string) (w : World) :
  outcome_of (doGetGeneric path) w =
  match w_api_get w path with Some cs => Ok cs | None => Thrown (RequestFailed path) end.
Proof. unfold outcome_of. by rewrite run_doGetGeneric. Qed.

Lemma trace_of_doGetGeneric (path : string) (w : World) :
  trace_of (doGetGeneric path) w = [EGet path].
Proof. unfold trace_of. by rewrite run_doGetGeneric. Qed.

#[export] Hint Rewrite @outcome_of_bind @trace_of_bind @outcome_of_ret @trace_of_ret
  @outcome_of_throw @trace_of_throw @outcome_of_lift_option @trace_of_lift_option
  outcome_of_emit trace_of_emit outcome_of_log trace_of_log outcome_of_ask trace_of_ask outcome_of_timeout trace_of_timeout
  outcome_of_doGetGeneric trace_of_doGetGeneric : snap_rw.

(** Rewrite the traces and outcomes of a composed computation into those
    of its parts. *)
Ltac run_simpl := autorewrite with snap_rw; cbn beta iota.
