(* ===== verification/Traces.v ===== *)
(** * Properties of every run

    Predicates on the traces of a computation that hold for every [World]:
    [every P m] (each event [m] causes satisfies [P]) and [phased P Q m]
    (the trace is a part where [P] holds followed by a part where [Q]
    holds), and [throws_only E m] (each exception [m] can end with
    satisfies [E]), [ends_with P m] (a run that returns ends with an event
    satisfying [P]), and [follows_in step w s Q m] (an automaton [step]
    run over the trace from [s] accepts it, a Hoare triple per world).  Each
    construct of the monad has its closure lemma, the first three
    collected in the hint database [traces], so that the property of a
    whole handler follows from those of its calls, one [bind] at a
    time. *)

From S2P Require Import Prelude JsRuntime Types Script.

Local Open Scope Z_scope.

(** ** Classes of events *)

Definition not_send (e : Event) : Prop := match e with ESend _ => False | _ => True end.
Definition not_get (e : Event) : Prop := match e with EGet _ => False | _ => True end.

(** ** Every event of every run *)

Section Every.
Context (P : Event -> Prop).

Definition every {A} (m : M A) : Prop := forall w, Forall P (trace_of m w).

Lemma every_ret {A} (a : A) : every (mret a).
Proof. intros w. constructor. Qed.

Lemma every_throw {A} (e : Exn) : every (throw e : M A).
Proof. intros w. constructor. Qed.

Lemma every_ask : every ask.
Proof. intros w. constructor. Qed.

Lemma every_lift_option {A} (e : Exn) (o : option A) : every (lift_option e o).
Proof. intros w. rewrite trace_of_lift_option. constructor. Qed.

Lemma every_emit (e : Event) : P e -> every (emit e).
Proof. intros He w. by repeat constructor. Qed.

Lemma every_bind_ok {A B} (m : M A) (k : A -> M B) :
  every m -> (forall w a, outcome_of m w = Ok a -> Forall P (trace_of (k a) w)) -> every (m ≫= k).
Proof.
  intros Hm Hk w. rewrite trace_of_bind. apply Forall_app. split; [apply Hm|].
  destruct (outcome_of m w) eqn:Ho; [by apply Hk | constructor].
Qed.

Lemma every_bind {A B} (m : M A) (k : A -> M B) :
  every m -> (forall a, every (k a)) -> every (m ≫= k).
Proof. intros Hm Hk. apply every_bind_ok; [done|]. intros w a _. apply Hk. Qed.

Lemma every_if {A} (b : bool) (m1 m2 : M A) : every m1 -> every m2 -> every (if b then m1 else m2).
Proof. by destruct b. Qed.
End Every.

(** ** Two phases *)

Section Phased.
Context (P Q : Event -> Prop).

Definition phased {A} (m : M A) : Prop :=
  forall w, exists t1 t2, trace_of m w = t1 ++ t2 /\ Forall P t1 /\ Forall Q t2.

Lemma phased_of_every_l {A} (m : M A) : every P m -> phased m.
Proof. intros Hm w. exists (trace_of m w), []. by rewrite app_nil_r. Qed.

Lemma phased_of_every_r {A} (m : M A) : every Q m -> phased m.
Proof. intros Hm w. by exists [], (trace_of m w). Qed.

(** A first part in the first phase, then a computation that switches. *)
Lemma phased_bind_l {A B} (m : M A) (k : A -> M B) :
  every P m -> (forall a, phased (k a)) -> phased (m ≫= k).
Proof.
  intros Hm Hk w. rewrite trace_of_bind. destruct (outcome_of m w) as [a|e].
  - destruct (Hk a w) as (t1 & t2 & -> & H1 & H2).
    exists (trace_of m w ++ t1), t2. rewrite app_assoc. split_and!; [done | |done].
    apply Forall_app. split; [apply Hm | done].
  - exists (trace_of m w), []. rewrite !app_nil_r. split_and!; [done | apply Hm | constructor].
Qed.

(** A computation that switches, then a part in the second phase. *)
Lemma phased_bind_r {A B} (m : M A) (k : A -> M B) :
  phased m -> (forall a, every Q (k a)) -> phased (m ≫= k).
Proof.
  intros Hm Hk w. rewrite trace_of_bind. destruct (Hm w) as (t1 & t2 & Ht & H1 & H2).
  exists t1, (t2 ++ match outcome_of m w with Ok a => trace_of (k a) w | Thrown _ => [] end).
  rewrite Ht, app_assoc. split_and!; [done | done |].
  apply Forall_app. split; [done|]. destruct (outcome_of m w); [apply Hk | constructor].
Qed.

Lemma phased_if {A} (b : bool) (m1 m2 : M A) : phased m1 -> phased m2 -> phased (if b then m1 else m2).
Proof. by destruct b. Qed.
End Phased.

(** In a trace split into a part without broadcasts and a part without
    requests, every request comes before every broadcast. *)
Lemma split_order (t1 t2 : list Event) :
  Forall not_send t1 -> Forall not_get t2 ->
  forall i j tx path, (t1 ++ t2) !! i = Some (ESend tx) -> (t1 ++ t2) !! j = Some (EGet path) ->
  (j < i)%nat.
Proof.
  intros H1 H2 i j tx path Hi Hj.
  destruct (decide (i < length t1)%nat) as [Hi1|Hi1].
  - rewrite lookup_app_l in Hi by done. by pose proof (Forall_lookup_1 _ _ _ _ H1 Hi).
  - destruct (decide (j < length t1)%nat) as [Hj1|Hj1]; [lia|].
    rewrite lookup_app_r in Hj by lia. by pose proof (Forall_lookup_1 _ _ _ _ H2 Hj).
Qed.

Lemma Forall_not_send_sends (t : list Event) : Forall not_send t -> sends t = [].
Proof. induction 1 as [|[] t Hx _ IH]; done. Qed.

(** ** The exceptions of every run *)

Section Throws.
Context (E : Exn -> Prop).

(** Every exception [m] can end with satisfies [E]. *)
Definition throws_only {A} (m : M A) : Prop := forall w e, outcome_of m w = Thrown e -> E e.

Lemma throws_only_ret {A} (a : A) : throws_only (mret a).
Proof. by intros w e. Qed.

Lemma throws_only_ask : throws_only ask.
Proof. by intros w e. Qed.

Lemma throws_only_emit (ev : Event) : throws_only (emit ev).
Proof. by intros w e. Qed.

Lemma throws_only_throw {A} (e : Exn) : E e -> throws_only (throw e : M A).
Proof. intros He w e' [= <-]. done. Qed.

Lemma throws_only_lift_option {A} (e : Exn) (o : option A) : E e -> throws_only (lift_option e o).
Proof. intros He w e'. rewrite outcome_of_lift_option. destruct o; [done | by intros [= <-]]. Qed.

Lemma throws_only_bind {A B} (m : M A) (k : A -> M B) :
  throws_only m -> (forall a, throws_only (k a)) -> throws_only (m ≫= k).
Proof.
  intros Hm Hk w e. rewrite outcome_of_bind.
  destruct (outcome_of m w) as [a|e'] eqn:Ho; [apply Hk | intros [= <-]; by eapply Hm].
Qed.

Lemma throws_only_if {A} (b : bool) (m1 m2 : M A) :
  throws_only m1 -> throws_only m2 -> throws_only (if b then m1 else m2).
Proof. by destruct b. Qed.
End Throws.

(** ** The last event of a normal end *)

Section Ends.
Context (P : Event -> Prop).

(** Every run of [m] that returns has a last event, and it satisfies
    [P]. *)
Definition ends_with {A} (m : M A) : Prop :=
  forall w a, outcome_of m w = Ok a -> exists e, last (trace_of m w) = Some e /\ P e.

Lemma ends_with_emit (e : Event) : P e -> ends_with (emit e).
Proof. intros He w a _. exists e. by rewrite trace_of_emit. Qed.

Lemma ends_with_bind {A B} (m : M A) (k : A -> M B) : (forall a, ends_with (k a)) -> ends_with (m ≫= k).
Proof.
  intros Hk w b. rewrite outcome_of_bind, trace_of_bind.
  destruct (outcome_of m w) as [a|e]; [|done]. intros Hb.
  destruct (Hk a w b Hb) as (e & Hl & He). exists e. by rewrite last_app, Hl.
Qed.

Lemma ends_with_if {A} (b : bool) (m1 m2 : M A) : ends_with m1 -> ends_with m2 -> ends_with (if b then m1 else m2).
Proof. by destruct b. Qed.
End Ends.

(** ** Runs checked by an automaton

    [run_auto step s t] runs the automaton [step] over the trace [t] from
    the state [s]; [None] is a violation.  [follows_in step w s Q m] is a
    Hoare triple for one world [w]: the run of [m] in [w] is accepted
    from [s], and when [m] returns [a] the automaton is in a state [s']
    with [Q s' a]. *)

Section Automaton.
Context {S : Type} (step : S -> Event -> option S).

Fixpoint run_auto (s : S) (t : list Event) : option S :=
  match t with
  | [] => Some s
  | e :: t' => step s e ≫= fun s' => run_auto s' t'
  end.

Lemma run_auto_app (s : S) (t1 t2 : list Event) :
  run_auto s (t1 ++ t2) = run_auto s t1 ≫= fun s' => run_auto s' t2.
Proof.
  revert s. induction t1 as [|e t1 IH]; intros s; [done|]. cbn.
  destruct (step s e); [apply IH | done].
Qed.

(** Events of a class that leaves the state as it is do not count. *)
Lemma run_auto_quiet (P : Event -> Prop) (t : list Event) (s : S) :
  (forall e, P e -> step s e = Some s) -> Forall P t -> run_auto s t = Some s.
Proof. intros Hq. induction 1 as [|e t He _ IH]; [done|]. cbn. by rewrite Hq. Qed.

Definition follows_in {A} (w : World) (s : S) (Q : S -> A -> Prop) (m : M A) : Prop :=
  exists s', run_auto s (trace_of m w) = Some s' /\ (forall a, outcome_of m w = Ok a -> Q s' a).

Section OneWorld.
Context (w : World).

Lemma follows_in_weaken {A} (m : M A) s (Q Q' : S -> A -> Prop) :
  follows_in w s Q m -> (forall s' a, Q s' a -> Q' s' a) -> follows_in w s Q' m.
Proof. intros (s' & Hr & Hq) HQ. exists s'. eauto. Qed.

Lemma follows_in_ret {A} (a : A) s (Q : S -> A -> Prop) : Q s a -> follows_in w s Q (mret a).
Proof. intros Hq. exists s. rewrite trace_of_ret, outcome_of_ret. split; [done|]. by intros ? [= <-]. Qed.

Lemma follows_in_ask s (Q : S -> World -> Prop) : Q s w -> follows_in w s Q ask.
Proof. intros Hq. exists s. rewrite trace_of_ask, outcome_of_ask. split; [done|]. by intros ? [= <-]. Qed.

Lemma follows_in_throw {A} (e : Exn) s (Q : S -> A -> Prop) : follows_in w s Q (throw e).
Proof. exists s. rewrite trace_of_throw, outcome_of_throw. by split. Qed.

Lemma follows_in_lift_option {A} (e : Exn) (o : option A) s (Q : S -> A -> Prop) :
  (forall a, o = Some a -> Q s a) -> follows_in w s Q (lift_option e o).
Proof.
  intros Hq. exists s. rewrite trace_of_lift_option, outcome_of_lift_option. split; [done|].
  destruct o; [intros ? [= <-]; by apply Hq | done].
Qed.

Lemma follows_in_emit (e : Event) s s' (Q : S -> unit -> Prop) :
  step s e = Some s' -> Q s' tt -> follows_in w s Q (emit e).
Proof.
  intros Hs Hq. exists s'. rewrite trace_of_emit, outcome_of_emit. cbn. rewrite Hs.
  split; [done|]. by intros [] _.
Qed.

Lemma follows_in_bind {A B} (m : M A) (k : A -> M B) s (P : S -> A -> Prop) (Q : S -> B -> Prop) :
  follows_in w s P m -> (forall s' a, P s' a -> follows_in w s' Q (k a)) -> follows_in w s Q (m ≫= k).
Proof.
  intros (s1 & Hr & Hp) Hk. unfold follows_in. rewrite trace_of_bind, outcome_of_bind, run_auto_app, Hr. cbn.
  destruct (outcome_of m w) as [a|e]; [exact (Hk s1 a (Hp a eq_refl))|]. exists s1. by split.
Qed.

Lemma follows_in_if {A} (b : bool) (m1 m2 : M A) s (Q : S -> A -> Prop) :
  follows_in w s Q m1 -> follows_in w s Q m2 -> follows_in w s Q (if b then m1 else m2).
Proof. by destruct b. Qed.

(** A computation whose events leave every state as it is. *)
Lemma follows_in_quiet (P : Event -> Prop) {A} (m : M A) s (Q : S -> A -> Prop) :
  (forall e, P e -> step s e = Some s) -> every P m -> (forall a, Q s a) -> follows_in w s Q m.
Proof. intros Hq Hm HQ. exists s. split; [by eapply run_auto_quiet | eauto]. Qed.
End OneWorld.
End Automaton.

Create HintDb traces discriminated.
#[export] Hint Resolve throws_only_ret throws_only_ask throws_only_emit throws_only_throw
  throws_only_lift_option throws_only_bind throws_only_if : traces.
#[export] Hint Extern 1 (throws_only _ (log _)) => apply throws_only_emit : traces.
#[export] Hint Extern 1 (throws_only _ (timeout _ false)) =>
  (apply throws_only_bind; [apply throws_only_ret | intros; apply throws_only_emit]) : traces.
#[export] Hint Resolve every_ret every_throw every_ask every_lift_option every_emit
  every_bind every_if : traces.
#[export] Hint Resolve phased_bind_l | 1 : traces.
#[export] Hint Resolve phased_bind_r | 2 : traces.
#[export] Hint Resolve phased_if phased_of_every_r : traces.
#[export] Hint Extern 1 (not_send _) => exact I : traces.
#[export] Hint Extern 1 (not_get _) => exact I : traces.
#[export] Hint Extern 1 (every _ (log _)) => apply every_emit : traces.
#[export] Hint Extern 1 (every _ (timeout _ false)) => (apply every_bind; [apply every_ret | intros; apply every_emit]) : traces.
#[export] Hint Extern 1 (every _ (doGetGeneric _)) =>
  (apply every_bind; [apply every_emit | intros; apply every_bind; [apply every_ask | intros; apply every_lift_option]]) : traces.
#[export] Hint Extern 1 (throws_only _ (doGetGeneric _)) =>
  (apply throws_only_bind; [apply throws_only_emit | intros; apply throws_only_bind;
     [apply throws_only_ask | intros; apply throws_only_lift_option]]) : traces.
