(* ===== verification/Pacing.v ===== *)
(** * Pauses between requests

    The script calls [timeout(500)] after each page of a scan and after
    each batch, to stay under the services' rate limits.  [pace p h t]
    runs an automaton over a trace: it is "hot" after an event of the
    class [p] (a request, a broadcast) and cools down at a pause of at
    least 500 ms; an event of class [p] while hot is a violation
    ([None]).  [paces p h h' m] states that from state [h] no run of [m]
    violates the rule and every normal end is in a state no hotter than
    [h'].  Its closure lemmas, in the database [traces], give the pacing
    of a handler from that of its calls. *)

From S2P Require Import Prelude JsRuntime Types Script Traces.

Local Open Scope Z_scope.

Definition is_send (e : Event) : bool := match e with ESend _ => true | _ => false end.
Definition is_get (e : Event) : bool := match e with EGet _ => true | _ => false end.

Section Pace.
Context (p : Event -> bool).

(** One event: a long enough pause cools down; an event of class [p]
    while hot is a violation. *)
Definition pace_step (hot : bool) (e : Event) : option bool :=
  match e with
  | ESleep ms => Some (if 500 <=? ms then false else hot)
  | _ => if p e then (if hot then None else Some true) else Some hot
  end.

Definition pace (hot : bool) (t : list Event) : option bool := run_auto pace_step hot t.

(** Starting cooler never hurts. *)
Lemma pace_mono (t : list Event) :
  forall h1 h2 r2, implb h1 h2 = true -> pace h2 t = Some r2 ->
  exists r1, pace h1 t = Some r1 /\ implb r1 r2 = true.
Proof.
  unfold pace. induction t as [|e t IH]; intros h1 h2 r2 Himp H; cbn in *; [injection H as <-; by eexists|].
  destruct e; cbn in *;
    repeat match goal with
    | H : context [if ?b then _ else _] |- _ => destruct b eqn:?
    | |- context [if ?b then _ else _] => destruct b eqn:?
    end; cbn in *; try discriminate; destruct h1, h2; cbn in *; try discriminate; eauto.
Qed.

(** [paces h h' m]: from [h], every run is accepted and a normal end is
    no hotter than [h']. *)
Definition paces {A} (h h' : bool) (m : M A) : Prop :=
  forall w, follows_in pace_step w h (fun r _ => implb r h' = true) m.

Lemma paces_weaken {A} (m : M A) h1 h2 h1' h2' :
  paces h1 h2 m -> implb h1' h1 = true -> implb h2 h2' = true -> paces h1' h2' m.
Proof.
  intros Hm H1 H2 w. destruct (Hm w) as (r & Hr & Hok).
  destruct (pace_mono _ h1' h1 r H1 Hr) as (r' & Hr' & Himp).
  exists r'. split; [done|]. intros a Ha. specialize (Hok a Ha).
  destruct r', r, h2, h2'; done.
Qed.

Lemma paces_ret {A} (a : A) h : paces h h (mret a).
Proof. intros w. apply follows_in_ret. by destruct h. Qed.

Lemma paces_ask h : paces h h ask.
Proof. intros w. apply follows_in_ask. by destruct h. Qed.

Lemma paces_throw {A} (e : Exn) h h' : paces h h' (throw e : M A).
Proof. intros w. apply follows_in_throw. Qed.

Lemma paces_lift_option {A} (e : Exn) (o : option A) h : paces h h (lift_option e o).
Proof. intros w. apply follows_in_lift_option. by destruct h. Qed.

Lemma paces_emit (e : Event) h h' : pace_step h e = Some h' -> paces h h' (emit e).
Proof. intros He w. eapply follows_in_emit; [done|]. by destruct h'. Qed.

Lemma paces_bind {A B} (m : M A) (k : A -> M B) h1 h2 h3 :
  paces h1 h2 m -> (forall a, paces h2 h3 (k a)) -> paces h1 h3 (m ≫= k).
Proof.
  intros Hm Hk w. eapply follows_in_bind; [apply Hm|]. intros r a Hr.
  refine (paces_weaken _ h2 h3 r h3 (Hk a) Hr _ w). by destruct h3.
Qed.

Lemma paces_if {A} (b : bool) (m1 m2 : M A) h h' : paces h h' m1 -> paces h h' m2 -> paces h h' (if b then m1 else m2).
Proof. by destruct b. Qed.

(** A trace without events of class [p] never ends hotter than it
    starts. *)
Lemma pace_quiet (t : list Event) :
  Forall (fun e => p e = false) t -> forall h, exists r, pace h t = Some r /\ implb r h = true.
Proof.
  unfold pace. induction 1 as [|e t He _ IH]; intros h; [exists h; by destruct h|]. cbn.
  assert (exists h0, pace_step h e = Some h0 /\ implb h0 h = true) as (h0 & -> & Hh0).
  { destruct e; cbn in *; rewrite ?He; try (exists h; split; [done | by destruct h]).
    exists (if 500 <=? ms then false else h). split; [done|]. by destruct (500 <=? ms), h. }
  cbn. destruct (IH h0) as (r & Hr & Hrh0). exists r. split; [done|]. by destruct r, h0, h.
Qed.

Lemma paces_of_every {A} (m : M A) h : every (fun e => p e = false) m -> paces h h m.
Proof.
  intros Hm w. destruct (pace_quiet _ (Hm w) h) as (r & Hr & Hrh). exists r. by split.
Qed.
End Pace.

(** In a trace that [pace] accepts from a cool state, two events of
    class [p] are separated by a pause of at least 500 ms. *)
Lemma pace_separated (p : Event -> bool) (Hsleep : forall ms, p (ESleep ms) = false) (t : list Event) :
  forall h, pace p h t <> None ->
  (h = true -> forall j e, t !! j = Some e -> p e = true ->
     exists k ms, (k < j)%nat /\ t !! k = Some (ESleep ms) /\ 500 <= ms) /\
  (forall i j e1 e2, (i < j)%nat -> t !! i = Some e1 -> t !! j = Some e2 -> p e1 = true -> p e2 = true ->
     exists k ms, (i < k < j)%nat /\ t !! k = Some (ESleep ms) /\ 500 <= ms).
Proof.
  unfold pace. induction t as [|e t IH]; intros h Hp; [split; [intros _ j ? [=] | intros i j ? ? _ [=]]|].
  cbn in Hp. destruct (pace_step p h e) as [h0|] eqn:Hs; [|done]. cbn in Hp.
  destruct (IH h0 Hp) as [IH1 IH2].
  assert (Hsl : forall ms, e = ESleep ms -> 500 <= ms \/ h0 = h).
  { intros ms ->. cbn in Hs. injection Hs as <-. destruct (Z.leb_spec 500 ms); [by left | by right]. }
  assert (Hhot : p e = true -> h = false /\ h0 = true).
  { intros Hpe. destruct e; cbn in Hs |- *; rewrite ?Hpe in Hs;
      try (destruct h; [done | injection Hs as <-; done]). by rewrite Hsleep in Hpe. }
  assert (Hkeep : p e = false -> (forall ms, e <> ESleep ms) -> h0 = h).
  { intros Hpe Hns. destruct e; cbn in Hs; rewrite ?Hpe in Hs; try (by injection Hs as <-).
    by destruct (Hns ms). }
  split.
  - intros -> [|j] e' Hj He'; cbn in Hj.
    + injection Hj as ->. by destruct (Hhot He').
    + assert (Hcase : (exists ms, e = ESleep ms /\ 500 <= ms) \/ h0 = true).
      { destruct (p e) eqn:Hpe; [right; by destruct (Hhot eq_refl)|].
        destruct e; try (right; apply Hkeep; [done | intros ?; discriminate]).
        destruct (Hsl ms eq_refl) as [Hms| ->]; [left; by eexists | by right]. }
      destruct Hcase as [(ms & -> & Hms)|Hh0].
      { exists 0%nat, ms. split_and!; [lia | done | done]. }
      destruct (IH1 Hh0 j e' Hj He') as (k & ms & Hk & Hkt & Hms).
      exists (S k), ms. refine (conj _ (conj Hkt Hms)). lia.
  - intros [|i] [|j] e1 e2 Hij Hi Hj Hp1 Hp2; cbn in Hi, Hj; try lia.
    + injection Hi as ->. destruct (Hhot Hp1) as [_ Hh0].
      destruct (IH1 Hh0 j e2 Hj Hp2) as (k & ms & Hk & Hkt & Hms).
      exists (S k), ms. refine (conj _ (conj Hkt Hms)). lia.
    + destruct (IH2 i j e1 e2 ltac:(lia) Hi Hj Hp1 Hp2) as (k & ms & Hk & Hkt & Hms).
      exists (S k), ms. refine (conj _ (conj Hkt Hms)). lia.
Qed.

(** What [paces] from a cool state guarantees of every run. *)
Lemma paces_separated {A} (p : Event -> bool) (Hsleep : forall ms, p (ESleep ms) = false) (m : M A) h' :
  paces p false h' m ->
  forall w i j e1 e2, (i < j)%nat -> trace_of m w !! i = Some e1 -> trace_of m w !! j = Some e2 ->
  p e1 = true -> p e2 = true ->
  exists k ms, (i < k < j)%nat /\ trace_of m w !! k = Some (ESleep ms) /\ 500 <= ms.
Proof.
  intros Hm w. destruct (Hm w) as (r & Hr & _).
  destruct (pace_separated p Hsleep (trace_of m w) false) as [_ Hsep]; [unfold pace; by rewrite Hr|].
  exact Hsep.
Qed.

#[export] Hint Resolve paces_ret paces_ask paces_throw paces_lift_option paces_bind paces_if : traces.
#[export] Hint Extern 1 (paces _ _ _ (log _)) => (apply paces_emit; reflexivity) : traces.
#[export] Hint Extern 1 (paces _ _ _ (timeout _ false)) =>
  (apply paces_bind with (h2 := true); [apply paces_ret | intros; apply paces_emit; reflexivity]) : traces.
#[export] Hint Extern 1 (paces _ _ _ (emit _)) => (apply paces_emit; reflexivity) : traces.
