(* ===== verification/Scanner.v ===== *)
(** * The holder scanner of [main] (register-snapshot.ts, lines 40-92)

    State: [members] and [seenAddresses], the two mutable locals of [main]
    ([ScanState]).  Operations: the page requests
    [getPaginatedTokenAccounts] and [getPaginatedSftAccounts], the
    [forEach] callbacks [token_member_step] and [sft_member_step], and the
    paginated [for] loop [scan_loop] (the two loops of [main] are this loop
    with different requests and callbacks: [scanTokenHolders],
    [scanSftHolders]).

    Specification: [snapshot_spec] says which members the scan keeps,
    without state: the eligible token holders followed by the SFT holders,
    each kept at its first occurrence by address ([keep_first]).  The
    pages a pass reads are [pages_from]: the answers of pages 1 to 10 up to
    the first empty one.  For every world, a pass pauses between two of
    its requests and its 11 iterations of fuel are enough. *)

From S2P Require Import Prelude JsRuntime Types Script Traces Pacing.
From Stdlib Require Import Qpower.

Local Open Scope Z_scope.
Local Set Warnings "-clear-no-such-hyp".

Record ScanState := mkScanState {
  members : list SnapshotMember;
  seenAddresses : gset string
}.

Definition initial_scan_state : ScanState := mkScanState [] ∅.

(** [.map((candidate) => ({ address: candidate.address,
    weight: candidate.balance }))] *)
Definition to_member (candidate : SnapshotCandidate) : SnapshotMember :=
  mkMember (address candidate) (BVString (balance candidate)).

(** [seenAddresses.add(member.address); members.push(member)] *)
Definition add_member (st : ScanState) (member : SnapshotMember) : ScanState :=
  mkScanState (members st ++ [member]) ({[member_address member]} ∪ seenAddresses st).

(** [new BigNumber(member.weight).shiftedBy(-decimals).gte(minHold)] *)
Definition satisfiesMinHoldAmount (decimals : Z) (itheumMinHoldAmount : xnum)
    (member : SnapshotMember) : bool :=
  xnum_gte (xnum_shifted_by (bignumber_of_value (weight member)) (- decimals))
    itheumMinHoldAmount.

(** The token pass's [forEach] callback. *)
Definition token_member_step (decimals : Z) (itheumMinHoldAmount : xnum)
    (st : ScanState) (member : SnapshotMember) : ScanState :=
  let satisfies := satisfiesMinHoldAmount decimals itheumMinHoldAmount member in
  if negb (bool_decide (member_address member ∈ seenAddresses st)) && satisfies
  then add_member st member
  else st.

(** The SFT pass's [forEach] callback. *)
Definition sft_member_step (st : ScanState) (member : SnapshotMember) : ScanState :=
  if negb (bool_decide (member_address member ∈ seenAddresses st))
  then add_member st member
  else st.

(** [getPaginatedTokenAccounts(provider, tokenId, page)] *)
Definition getPaginatedTokenAccounts (tokenId : string) (page : Z) : M (list SnapshotCandidate) :=
  let perPage := 1000 in
  let from := (page - 1) * perPage in
  doGetGeneric ("tokens/" +:+ tokenId +:+ "/accounts?from=" +:+ js_to_string_int from
                +:+ "&size=" +:+ js_to_string_int perPage).

(** [getPaginatedSftAccounts(provider, nftId, page)] *)
Definition getPaginatedSftAccounts (nftId : string) (page : Z) : M (list SnapshotCandidate) :=
  let perPage := 1000 in
  let from := (page - 1) * perPage in
  doGetGeneric ("nfts/" +:+ nftId +:+ "/accounts?includeFlagged=true&from=" +:+ js_to_string_int from
                +:+ "&size=" +:+ js_to_string_int perPage).

(** [for (let page = 1; page <= 10; page++) { const c = await fetch(page);
    if (c.length === 0) break; c.map(...).forEach(step); await timeout(500) }].
    The fuel only makes the recursion structural: the guard [page <= 10]
    stops the loop, and [scan_loop_fuel] shows that any fuel above the
    number of remaining pages gives the same result. *)
Fixpoint scan_loop (fuel : nat) (fetch : Z -> M (list SnapshotCandidate))
    (step : ScanState -> SnapshotMember -> ScanState) (page : Z) (st : ScanState) : M ScanState :=
  match fuel with
  | O => mret st
  | S fuel' =>
      if page <=? 10 then
        paginatedCandidates ← fetch page;
        if bool_decide (length paginatedCandidates = 0%nat) then mret st
        else
          let st' := fold_left step (map to_member paginatedCandidates) st in
          timeout 500 false ;;
          scan_loop fuel' fetch step (page + 1) st'
      else mret st
  end.

(** Eleven loop tests: pages 1 to 10 and the final [page <= 10] test. *)
Definition scan_fuel : nat := 11.

Definition scanTokenHolders (tokenId : string) (decimals : Z) (itheumMinHoldAmount : xnum)
    (st : ScanState) : M ScanState :=
  scan_loop scan_fuel (getPaginatedTokenAccounts tokenId)
    (token_member_step decimals itheumMinHoldAmount) 1 st.

Definition scanSftHolders (nftId : string) (st : ScanState) : M ScanState :=
  scan_loop scan_fuel (getPaginatedSftAccounts nftId) sft_member_step 1 st.

(** ** Specification *)

(** Keep each member whose address does not occur earlier in the list
    (nor in [prev]). *)
Fixpoint keep_first (prev : list string) (l : list SnapshotMember) : list SnapshotMember :=
  match l with
  | [] => []
  | m :: l' =>
      (if bool_decide (member_address m ∈ prev) then [] else [m])
      ++ keep_first (prev ++ [member_address m]) l'
  end.

(** The membership list a run should build from the candidates of the two
    passes. *)
Definition snapshot_spec (decimals : Z) (itheumMinHoldAmount : xnum)
    (tokenCandidates sftCandidates : list SnapshotCandidate) : list SnapshotMember :=
  keep_first []
    (filter (fun m => satisfiesMinHoldAmount decimals itheumMinHoldAmount m = true)
       (map to_member tokenCandidates)
     ++ map to_member sftCandidates).

(** The candidates of a pass: the answers for pages [page], [page + 1],
    ... up to the first empty page, [n] pages at most; [None] when a
    request fails. *)
Fixpoint pages_from (n : nat) (get : Z -> option (list SnapshotCandidate)) (page : Z)
    : option (list SnapshotCandidate) :=
  match n with
  | O => Some []
  | S n' =>
      match get page with
      | None => None
      | Some [] => Some []
      | Some cs => (cs ++.) <$> pages_from n' get (page + 1)
      end
  end.

(** ** The callbacks *)

(** Both callbacks are one guarded step: push a member whose address is
    not yet seen and that passes the pass's test. *)
Definition guarded_step (ok : SnapshotMember -> bool) (st : ScanState) (m : SnapshotMember) : ScanState :=
  if negb (bool_decide (member_address m ∈ seenAddresses st)) && ok m then add_member st m else st.

Lemma token_member_step_guarded (decimals : Z) (h : xnum) st m :
  token_member_step decimals h st m = guarded_step (satisfiesMinHoldAmount decimals h) st m.
Proof. done. Qed.

Lemma sft_member_step_guarded st m : sft_member_step st m = guarded_step (fun _ => true) st m.
Proof. unfold sft_member_step, guarded_step. by rewrite andb_true_r. Qed.

(** The scan invariant: the members have pairwise distinct addresses and
    [seenAddresses] is exactly the set of their addresses. *)
Definition scan_inv (st : ScanState) : Prop :=
  NoDup (member_address <$> members st) /\
  forall a, a ∈ seenAddresses st <-> a ∈ member_address <$> members st.

Lemma scan_inv_initial : scan_inv initial_scan_state.
Proof. split; [constructor | set_solver]. Qed.

Lemma guarded_step_inv ok st m : scan_inv st -> scan_inv (guarded_step ok st m).
Proof.
  intros [Hnd Hseen]. unfold guarded_step.
  destruct (bool_decide _) eqn:Hin; simpl; [done|].
  destruct (ok m); [|done]. apply bool_decide_eq_false in Hin.
  unfold scan_inv, add_member; cbn [members seenAddresses]. rewrite fmap_app. split.
  - apply NoDup_app. split_and!; [done| |by apply NoDup_singleton].
    intros a Ha ->%list_elem_of_singleton. apply Hin, Hseen, Ha.
  - intros a. rewrite elem_of_union, Hseen. set_solver.
Qed.

Lemma fold_guarded_inv ok l st :
  scan_inv st -> scan_inv (fold_left (guarded_step ok) l st).
Proof. revert st. induction l as [|m l IH]; intros st Hst; simpl; [done|]. by apply IH, guarded_step_inv. Qed.

Lemma guarded_step_skip ok st m :
  ok m = false \/ member_address m ∈ seenAddresses st -> guarded_step ok st m = st.
Proof.
  unfold guarded_step. intros [H|H]; [by rewrite H, andb_false_r|].
  by rewrite bool_decide_true.
Qed.

Lemma guarded_step_add ok st m :
  ok m = true -> member_address m ∉ seenAddresses st -> guarded_step ok st m = add_member st m.
Proof. unfold guarded_step. intros H1 H2. by rewrite H1, bool_decide_false. Qed.

(** The fold of the guarded step over a page, against [keep_first]: the
    members pushed are the first occurrences of the addresses that pass
    the test, and the seen set grows by their addresses. *)
Lemma fold_guarded_spec ok l :
  forall st prev, (forall a, a ∈ seenAddresses st <-> a ∈ prev) ->
  members (fold_left (guarded_step ok) l st)
    = members st ++ keep_first prev (filter (fun m => ok m = true) l) /\
  (forall a, a ∈ seenAddresses (fold_left (guarded_step ok) l st)
             <-> a ∈ prev ++ (member_address <$> filter (fun m => ok m = true) l)).
Proof.
  induction l as [|m l IH]; intros st prev Hseen; cbn [fold_left].
  - split; [by rewrite app_nil_r|]. intros a. by rewrite app_nil_r.
  - rewrite filter_cons. destruct (ok m) eqn:Hok.
    + rewrite decide_True by done. rewrite fmap_cons. cbn [keep_first].
      destruct (decide (member_address m ∈ seenAddresses st)) as [Hin|Hin].
      * rewrite guarded_step_skip by auto. rewrite bool_decide_true by (by apply Hseen).
        destruct (IH st (prev ++ [member_address m])) as [-> Hs];
          [intros a; rewrite elem_of_app, list_elem_of_singleton, Hseen; naive_solver|].
        split; [done|]. intros a. rewrite Hs, <- app_assoc. done.
      * rewrite guarded_step_add by done. rewrite bool_decide_false by (by rewrite <- Hseen).
        destruct (IH (add_member st m) (prev ++ [member_address m])) as [-> Hs];
          [intros a; cbn [add_member seenAddresses]; rewrite elem_of_union, elem_of_singleton,
             elem_of_app, list_elem_of_singleton, Hseen; naive_solver|].
        split; [cbn [add_member members]; by rewrite <- app_assoc|].
        intros a. rewrite Hs, <- app_assoc. done.
    + rewrite decide_False by congruence. rewrite guarded_step_skip by auto. apply IH, Hseen.
Qed.

(** ** The paginated loop *)

(** The pages a pass requests: [page], then the following ones while the
    answers are not empty, [n] at most. *)
Fixpoint pages_requested (n : nat) (get : Z -> option (list SnapshotCandidate)) (page : Z)
    : list Z :=
  match n with
  | O => []
  | S n' =>
      page :: match get page with
              | Some (_ :: _) => pages_requested n' get (page + 1)
              | _ => []
              end
  end.

Section Loop.
Context (path : Z -> string) (step : ScanState -> SnapshotMember -> ScanState) (w : World).

Local Abbreviation get := (fun p => w_api_get w (path p)).
Local Abbreviation fetch := (fun p => doGetGeneric (path p)).

Lemma page_after (n : nat) : 11 - Z.of_nat (S n) + 1 = 11 - Z.of_nat n.
Proof. lia. Qed.

(** Functional behaviour: when the requests succeed, the loop folds the
    callback over the candidates of [pages_from]. *)
Lemma scan_loop_outcome :
  forall n fuel st cs, (n < fuel)%nat ->
  pages_from n get (11 - Z.of_nat n) = Some cs ->
  outcome_of (scan_loop fuel fetch step (11 - Z.of_nat n) st) w
  = Ok (fold_left step (map to_member cs) st).
Proof.
  induction n as [|n IH]; intros [|fuel] st cs Hf Hp; try lia; cbn [scan_loop pages_from] in *.
  - injection Hp as <-. destruct (Z.leb_spec (11 - Z.of_nat 0) 10); [lia|done].
  - destruct (Z.leb_spec (11 - Z.of_nat (S n)) 10); [|lia]. run_simpl.
    rewrite page_after in *.
    destruct (w_api_get w (path _)) as [[|c cs0]|]; [by injection Hp as <-| |done].
    destruct (pages_from n _ _) as [rest|] eqn:Hrest; [|done]. injection Hp as <-.
    rewrite bool_decide_false by done. run_simpl.
    rewrite (IH fuel _ rest) by (done || lia).
    by rewrite app_comm_cons, map_app, fold_left_app.
Qed.

(** Error path: a failed request stops the pass with its exception. *)
Lemma scan_loop_failure :
  forall n fuel st, (n < fuel)%nat ->
  pages_from n get (11 - Z.of_nat n) = None ->
  exists p, outcome_of (scan_loop fuel fetch step (11 - Z.of_nat n) st) w
            = Thrown (RequestFailed (path p)).
Proof.
  induction n as [|n IH]; intros [|fuel] st Hf Hp; try lia; cbn [scan_loop pages_from] in *;
    [done|].
  destruct (Z.leb_spec (11 - Z.of_nat (S n)) 10); [|lia]. run_simpl.
  rewrite page_after in *.
  destruct (w_api_get w (path _)) as [[|c cs0]|]; [done| |by eexists].
  destruct (pages_from n _ _) as [rest|] eqn:Hrest; [done|].
  rewrite bool_decide_false by done. run_simpl. by apply IH; [lia|].
Qed.

(** The requests: the loop asks exactly for [pages_requested]. *)
Lemma scan_loop_requests :
  forall n fuel st, (n < fuel)%nat ->
  gets (trace_of (scan_loop fuel fetch step (11 - Z.of_nat n) st) w)
  = path <$> pages_requested n get (11 - Z.of_nat n).
Proof.
  induction n as [|n IH]; intros [|fuel] st Hf; try lia; cbn [scan_loop pages_requested].
  - destruct (Z.leb_spec (11 - Z.of_nat 0) 10); [lia|done].
  - destruct (Z.leb_spec (11 - Z.of_nat (S n)) 10); [|lia]. run_simpl.
    rewrite page_after.
    destruct (w_api_get w (path _)) as [[|c cs0]|]; run_simpl; [done| |done].
    rewrite bool_decide_false by done. run_simpl.
    rewrite !gets_app, IH by lia. done.
Qed.

(** A pass whose pages have holders up to an empty one stops right after
    requesting the empty page: the [break] skips the [timeout(500)]. *)
Lemma scan_loop_ends_on_empty :
  forall n fuel st (j : nat), (n < fuel)%nat -> (j < n)%nat ->
  (forall i : nat, (i < j)%nat -> exists c cs, w_api_get w (path (11 - Z.of_nat n + Z.of_nat i)) = Some (c :: cs)) ->
  w_api_get w (path (11 - Z.of_nat n + Z.of_nat j)) = Some [] ->
  exists t0 st', trace_of (scan_loop fuel fetch step (11 - Z.of_nat n) st) w
                 = t0 ++ [EGet (path (11 - Z.of_nat n + Z.of_nat j))] /\
               outcome_of (scan_loop fuel fetch step (11 - Z.of_nat n) st) w = Ok st'.
Proof.
  induction n as [|n IH]; intros [|fuel] st j Hf Hj Hne Hk; try lia; cbn [scan_loop].
  destruct (Z.leb_spec (11 - Z.of_nat (S n)) 10); [|lia]. run_simpl.
  destruct j as [|j].
  - rewrite Z.add_0_r in Hk. rewrite Hk. run_simpl. exists [], st. by rewrite Z.add_0_r.
  - destruct (Hne 0%nat) as (c & cs & Hc); [lia|]. rewrite Z.add_0_r in Hc. rewrite Hc.
    rewrite bool_decide_false by done. run_simpl. rewrite page_after.
    destruct (IH fuel (fold_left step (map to_member (c :: cs)) st) j) as (t0 & st' & Ht & Ho); [lia | lia | | |].
    + intros i Hi. destruct (Hne (S i)) as (c' & cs' & Hc'); [lia|]. exists c', cs'.
      by replace (11 - Z.of_nat n + Z.of_nat i) with (11 - Z.of_nat (S n) + Z.of_nat (S i)) by lia.
    + by replace (11 - Z.of_nat n + Z.of_nat j) with (11 - Z.of_nat (S n) + Z.of_nat (S j)) by lia.
    + rewrite Ht, Ho. exists (EGet (path (11 - Z.of_nat (S n))) :: ESleep 500 :: t0), st'. split; [|done].
      replace (11 - Z.of_nat n + Z.of_nat j) with (11 - Z.of_nat (S n) + Z.of_nat (S j)) by lia. done.
Qed.

(** A pass begins with its first page request. *)
Lemma scan_loop_starts fuel page st :
  page <= 10 -> exists t, trace_of (scan_loop (S fuel) fetch step page st) w = EGet (path page) :: t.
Proof. intros Hp. cbn [scan_loop]. rewrite (proj2 (Z.leb_le _ _) Hp). run_simpl. by eexists. Qed.
End Loop.

(** ** The two passes against the specification *)

Lemma keep_first_app prev l1 l2 :
  keep_first prev (l1 ++ l2)
  = keep_first prev l1 ++ keep_first (prev ++ (member_address <$> l1)) l2.
Proof.
  revert prev. induction l1 as [|m l1 IH]; intros prev; simpl.
  - by rewrite app_nil_r.
  - rewrite IH, <- app_assoc. by rewrite <- app_assoc.
Qed.

(** Folding the two callbacks over the two candidate lists computes the
    specification, and keeps the scan invariant. *)
Lemma two_pass_fold (decimals : Z) (h : xnum) (tcs scs : list SnapshotCandidate) :
  let st := fold_left sft_member_step (map to_member scs)
              (fold_left (token_member_step decimals h) (map to_member tcs) initial_scan_state) in
  members st = snapshot_spec decimals h tcs scs /\ scan_inv st.
Proof.
  intros st. subst st.
  rewrite (fold_left_ext (token_member_step decimals h) (guarded_step (satisfiesMinHoldAmount decimals h)))
    by apply token_member_step_guarded.
  rewrite (fold_left_ext sft_member_step (guarded_step (fun _ => true)))
    by apply sft_member_step_guarded.
  split; [|by apply fold_guarded_inv, fold_guarded_inv, scan_inv_initial].
  destruct (fold_guarded_spec (satisfiesMinHoldAmount decimals h) (map to_member tcs)
              initial_scan_state []) as [H1 H2]; [set_solver|].
  destruct (fold_guarded_spec (fun _ => true) (map to_member scs) _ _ H2) as [-> _].
  rewrite H1. unfold snapshot_spec. rewrite keep_first_app. simpl.
  f_equal. f_equal. clear. induction (map to_member scs) as [|m l IH]; [done|].
  rewrite filter_cons, decide_True by done. by rewrite IH.
Qed.

(** The request path of a token page and of an SFT page. *)
Definition token_path (tokenId : string) (page : Z) : string :=
  "tokens/" +:+ tokenId +:+ "/accounts?from=" +:+ js_to_string_int ((page - 1) * 1000)
  +:+ "&size=" +:+ js_to_string_int 1000.

Definition sft_path (nftId : string) (page : Z) : string :=
  "nfts/" +:+ nftId +:+ "/accounts?includeFlagged=true&from=" +:+ js_to_string_int ((page - 1) * 1000)
  +:+ "&size=" +:+ js_to_string_int 1000.

Lemma pages_requested_stop (get : Z -> option (list SnapshotCandidate)) :
  forall n page (j : nat), (1 <= j <= n)%nat ->
  (forall i : nat, (i < j - 1)%nat -> exists c cs, get (page + Z.of_nat i) = Some (c :: cs)) ->
  ((forall c cs, get (page + Z.of_nat j - 1) <> Some (c :: cs)) \/ j = n) ->
  pages_requested n get page = seqZ page (Z.of_nat j).
Proof.
  induction n as [|n IH]; intros page j Hj Hne Hstop; [lia|]. cbn [pages_requested].
  rewrite seqZ_cons by lia. f_equal.
  destruct (decide (j = 1%nat)) as [->|Hj1].
  - rewrite seqZ_nil by lia.
    destruct Hstop as [Hstop|Hn]; [|assert (n = 0%nat) as -> by lia; by destruct (get page) as [[|]|]].
    replace (page + Z.of_nat 1 - 1) with page in Hstop by lia.
    destruct (get page) as [[|c cs]|]; [done| |done]. by destruct (Hstop c cs).
  - destruct (Hne 0%nat) as (c & cs & Hc); [lia|]. rewrite Z.add_0_r in Hc. rewrite Hc.
    replace (Z.pred (Z.of_nat j)) with (Z.of_nat (j - 1)) by lia.
    apply IH; [lia| |].
    + intros i Hi. destruct (Hne (S i)) as (c' & cs' & Hc'); [lia|].
      exists c', cs'. by replace (Z.succ page + Z.of_nat i) with (page + Z.of_nat (S i)) by lia.
    + destruct Hstop as [Hstop|Hn]; [left|right; lia].
      by replace (Z.succ page + Z.of_nat (j - 1) - 1) with (page + Z.of_nat j - 1) by lia.
Qed.

Lemma getPaginatedTokenAccounts_path (tokenId : string) :
  getPaginatedTokenAccounts tokenId = fun p => doGetGeneric (token_path tokenId p).
Proof. reflexivity. Qed.

Lemma getPaginatedSftAccounts_path (nftId : string) :
  getPaginatedSftAccounts nftId = fun p => doGetGeneric (sft_path nftId p).
Proof. reflexivity. Qed.

Lemma scan_loop_no_sends (path : Z -> string) (step : ScanState -> SnapshotMember -> ScanState)
    (w : World) :
  forall fuel page st,
  sends (trace_of (scan_loop fuel (fun p => doGetGeneric (path p)) step page st) w) = [].
Proof.
  induction fuel as [|fuel IH]; intros page st; cbn [scan_loop]; [done|].
  destruct (page <=? 10); run_simpl; [|done].
  destruct (w_api_get w (path page)) as [[|c cs]|]; run_simpl; [done| |done].
  rewrite bool_decide_false by done. run_simpl. rewrite !sends_app, IH. done.
Qed.

(** Whatever the answers, a pass causes only its requests and its
    pauses. *)
Lemma scan_loop_every (P : Event -> Prop) (fetch : Z -> M (list SnapshotCandidate))
    (step : ScanState -> SnapshotMember -> ScanState) :
  (forall p, every P (fetch p)) -> P (ESleep 500) ->
  forall fuel page st, every P (scan_loop fuel fetch step page st).
Proof.
  intros Hf Hs. induction fuel as [|fuel IH]; intros page st; cbn [scan_loop]; eauto 10 with traces.
Qed.

Lemma scanTokenHolders_every (P : Event -> Prop) tokenId decimals h st :
  (forall path, P (EGet path)) -> P (ESleep 500) -> every P (scanTokenHolders tokenId decimals h st).
Proof. intros Hg Hs. apply scan_loop_every; [|done]. intros p. unfold getPaginatedTokenAccounts. eauto with traces. Qed.

Lemma scanSftHolders_every (P : Event -> Prop) nftId st :
  (forall path, P (EGet path)) -> P (ESleep 500) -> every P (scanSftHolders nftId st).
Proof. intros Hg Hs. apply scan_loop_every; [|done]. intros p. unfold getPaginatedSftAccounts. eauto with traces. Qed.

(** A pass ends only with the exceptions of its requests. *)
Lemma scan_loop_throws_only (E : Exn -> Prop) (fetch : Z -> M (list SnapshotCandidate))
    (step : ScanState -> SnapshotMember -> ScanState) :
  (forall p, throws_only E (fetch p)) ->
  forall fuel page st, throws_only E (scan_loop fuel fetch step page st).
Proof.
  intros Hf. induction fuel as [|fuel IH]; intros page st; cbn [scan_loop]; eauto 10 with traces.
Qed.

Lemma scanTokenHolders_throws_only (E : Exn -> Prop) tokenId decimals h st :
  (forall path, E (RequestFailed path)) -> throws_only E (scanTokenHolders tokenId decimals h st).
Proof. intros He. apply scan_loop_throws_only. intros p. unfold getPaginatedTokenAccounts. eauto with traces. Qed.

Lemma scanSftHolders_throws_only (E : Exn -> Prop) nftId st :
  (forall path, E (RequestFailed path)) -> throws_only E (scanSftHolders nftId st).
Proof. intros He. apply scan_loop_throws_only. intros p. unfold getPaginatedSftAccounts. eauto with traces. Qed.

(** With at least [11 - page] iterations left, more fuel changes nothing:
    the guard [page <= 10] ends the loop before the fuel does. *)
Lemma scan_loop_fuel_mono (fetch : Z -> M (list SnapshotCandidate))
    (step : ScanState -> SnapshotMember -> ScanState) :
  forall fuel1 fuel2 page st w, (Z.to_nat (11 - page) <= fuel1)%nat -> (fuel1 <= fuel2)%nat ->
  scan_loop fuel1 fetch step page st w = scan_loop fuel2 fetch step page st w.
Proof.
  induction fuel1 as [|f1 IH]; intros [|f2] page st w Hp Hf; cbn [scan_loop]; try done; try lia.
  - destruct (Z.leb_spec page 10); [lia | done].
  - destruct (page <=? 10) eqn:Hg; [|done]. apply Z.leb_le in Hg.
    apply run_bind_ext. intros cs. destruct (bool_decide _); [done|]. cbv zeta.
    apply run_bind_ext. intros _. apply IH; lia.
Qed.

(** A page request: cool before, hot after. *)
Lemma doGetGeneric_paces (path : string) : paces is_get false true (doGetGeneric path).
Proof.
  unfold doGetGeneric. apply paces_bind with (h2 := true); [by apply paces_emit|].
  intros _. eauto with traces.
Qed.

(** A pass pauses between two of its page requests; it may end hot,
    right after the empty page that stopped it. *)
Lemma scan_loop_paces (fetch : Z -> M (list SnapshotCandidate))
    (step : ScanState -> SnapshotMember -> ScanState) :
  (forall p, paces is_get false true (fetch p)) ->
  forall fuel page st, paces is_get false true (scan_loop fuel fetch step page st).
Proof.
  intros Hf. induction fuel as [|fuel IH]; intros page st; cbn [scan_loop].
  { apply (paces_weaken _ _ false false); [apply paces_ret | done | done]. }
  destruct (page <=? 10); [|apply (paces_weaken _ _ false false); [apply paces_ret | done | done]].
  apply paces_bind with (h2 := true); [apply Hf|]. intros cs.
  destruct (bool_decide _); [apply paces_ret|]. cbv zeta.
  apply paces_bind with (h2 := false); [eauto with traces | intros _; apply IH].
Qed.

#[export] Hint Resolve scanTokenHolders_every scanSftHolders_every scanTokenHolders_throws_only
  scanSftHolders_throws_only : traces.

Lemma scan_loop_logs (path : Z -> string) (step : ScanState -> SnapshotMember -> ScanState) (w : World)
    fuel page st :
  logs (trace_of (scan_loop fuel (fun p => doGetGeneric (path p)) step page st) w) = [].
Proof.
  apply logs_silent, scan_loop_every; [|intros ?; discriminate].
  intros p. unfold doGetGeneric. apply every_bind; [apply every_emit; intros ?; discriminate|].
  eauto with traces.
Qed.

Section Pass.
Context (path : Z -> string) (step : ScanState -> SnapshotMember -> ScanState) (w : World).

Lemma scan_pass_outcome st cs :
  pages_from 10 (fun p => w_api_get w (path p)) 1 = Some cs ->
  outcome_of (scan_loop scan_fuel (fun p => doGetGeneric (path p)) step 1 st) w
  = Ok (fold_left step (map to_member cs) st).
Proof. intros H. apply (scan_loop_outcome path step w 10); [unfold scan_fuel; lia | exact H]. Qed.

Lemma scan_pass_failure st :
  pages_from 10 (fun p => w_api_get w (path p)) 1 = None ->
  exists p, outcome_of (scan_loop scan_fuel (fun p => doGetGeneric (path p)) step 1 st) w
            = Thrown (RequestFailed (path p)).
Proof. intros H. apply (scan_loop_failure path step w 10); [unfold scan_fuel; lia | exact H]. Qed.
Lemma scan_pass_requests st :
  gets (trace_of (scan_loop scan_fuel (fun p => doGetGeneric (path p)) step 1 st) w)
  = path <$> pages_requested 10 (fun p => w_api_get w (path p)) 1.
Proof. exact (scan_loop_requests path step w 10 scan_fuel st ltac:(unfold scan_fuel; lia)). Qed.

(** A pass that reaches an empty page [k] ends with the request of page
    [k]: no pause follows it. *)
Lemma scan_pass_ends_on_empty st (k : nat) :
  (1 <= k <= 10)%nat ->
  (forall i : nat, (1 <= i < k)%nat -> exists c cs, w_api_get w (path (Z.of_nat i)) = Some (c :: cs)) ->
  w_api_get w (path (Z.of_nat k)) = Some [] ->
  exists t0 st', trace_of (scan_loop scan_fuel (fun p => doGetGeneric (path p)) step 1 st) w
                 = t0 ++ [EGet (path (Z.of_nat k))] /\
               outcome_of (scan_loop scan_fuel (fun p => doGetGeneric (path p)) step 1 st) w = Ok st'.
Proof.
  intros Hk Hne He.
  assert (H := scan_loop_ends_on_empty path step w 10 scan_fuel st (k - 1)).
  change (11 - Z.of_nat 10) with 1 in H.
  replace (1 + Z.of_nat (k - 1)) with (Z.of_nat k) in H by lia. apply H; [unfold scan_fuel; lia | lia | |done].
  intros i Hi. replace (1 + Z.of_nat i) with (Z.of_nat (S i)) by lia. apply Hne. lia.
Qed.
End Pass.

(** A NaN minimum admits no token holder: [gte] is false against NaN. *)
Lemma snapshot_spec_nan (decimals : Z) (tcs scs : list SnapshotCandidate) :
  snapshot_spec decimals XNaN tcs scs = keep_first [] (map to_member scs).
Proof.
  unfold snapshot_spec. replace (filter _ _) with (@nil SnapshotMember); [done|].
  induction tcs as [|c tcs IH]; [done|]. cbn [map]. rewrite filter_cons_False; [done|].
  unfold satisfiesMinHoldAmount. destruct (xnum_shifted_by _ _) as [|[]|]; cbn; congruence.
Qed.

(** A minimum of 0 admits every token holder whose balance is a
    non-negative integer, zero included. *)
Lemma snapshot_spec_zero (decimals : Z) (tcs scs : list SnapshotCandidate) :
  Forall (fun c => exists n : N, balance c = pretty (Z.of_N n)) tcs ->
  snapshot_spec decimals (XFin 0) tcs scs = keep_first [] (map to_member tcs ++ map to_member scs).
Proof.
  intros Hb. unfold snapshot_spec. f_equal. f_equal.
  induction Hb as [|c tcs [n Hn] _ IH]; [done|]. cbn [map]. rewrite filter_cons_True, IH; [done|].
  unfold satisfiesMinHoldAmount. cbn [to_member weight bignumber_of_value]. rewrite Hn, bignumber_of_string_pretty.
  cbn [xnum_shifted_by xnum_gte]. apply Qle_bool_iff. apply Qmult_le_0_compat.
  - unfold Qle. cbn. lia.
  - apply Qpower_0_le. unfold Qle. cbn. lia.
Qed.

(** ** Properties of the scanner *)

(** C3: refinement.  When every page request succeeds, the token pass
    followed by the SFT pass ends with the membership list of
    [snapshot_spec] (eligible token holders, then SFT holders, each
    address kept at its first occurrence), in a state that satisfies the
    scan invariant. *)
Theorem scan_refines (w : World) (tokenId nftId : string) (decimals : Z) (h : xnum)
    (tcs scs : list SnapshotCandidate) :
  pages_from 10 (fun p => w_api_get w (token_path tokenId p)) 1 = Some tcs ->
  pages_from 10 (fun p => w_api_get w (sft_path nftId p)) 1 = Some scs ->
  exists st,
    outcome_of (scanTokenHolders tokenId decimals h initial_scan_state ≫= scanSftHolders nftId) w
      = Ok st /\
    members st = snapshot_spec decimals h tcs scs /\ scan_inv st.
Proof.
  intros Ht Hs. rewrite outcome_of_bind.
  unfold scanTokenHolders. rewrite getPaginatedTokenAccounts_path.
  rewrite (scan_pass_outcome (token_path tokenId) _ w _ tcs) by exact Ht.
  unfold scanSftHolders. rewrite getPaginatedSftAccounts_path.
  rewrite (scan_pass_outcome (sft_path nftId) _ w _ scs) by exact Hs.
  eexists. split; [done|]. apply two_pass_fold.
Qed.

Lemma keep_first_find (a : string) :
  forall prev l, a ∉ prev ->
  find (fun m => String.eqb (member_address m) a) (keep_first prev l)
  = find (fun m => String.eqb (member_address m) a) l.
Proof.
  intros prev l. revert prev. induction l as [|m l IH]; intros prev Ha; [done|]. cbn [keep_first].
  destruct (String.eqb_spec (member_address m) a) as [<-|Hne].
  - rewrite bool_decide_false by done. simpl. by rewrite String.eqb_refl.
  - simpl. rewrite (proj2 (String.eqb_neq _ _) Hne).
    case_bool_decide; simpl; rewrite ?(proj2 (String.eqb_neq _ _) Hne); (apply IH; set_solver).
Qed.

Lemma keep_first_elem (a : string) :
  forall prev l,
  a ∈ member_address <$> keep_first prev l <-> a ∈ member_address <$> l /\ a ∉ prev.
Proof.
  intros prev l. revert prev. induction l as [|m l IH]; intros prev; cbn [keep_first]; [set_solver|].
  rewrite fmap_app, elem_of_app, IH. clear IH. rewrite fmap_cons, elem_of_cons, elem_of_app, list_elem_of_singleton.
  case_bool_decide; cbn [fmap list_fmap]; rewrite ?elem_of_nil, ?list_elem_of_singleton;
    destruct (decide (a = member_address m)); naive_solver.
Qed.

(** C5: de-duplication.  After the two passes, each address of an
    eligible token holder or of an SFT holder occurs exactly once among
    the members, and the member with that address is the first candidate
    that had it: a token holder's weight wins over the same address's SFT
    balance. *)
Theorem scan_dedup_first (decimals : Z) (h : xnum) (tcs scs : list SnapshotCandidate) (a : string) :
  let st := fold_left sft_member_step (map to_member scs)
              (fold_left (token_member_step decimals h) (map to_member tcs) initial_scan_state) in
  let E := filter (fun m => satisfiesMinHoldAmount decimals h m = true) (map to_member tcs)
           ++ map to_member scs in
  find (fun m => String.eqb (member_address m) a) (members st)
    = find (fun m => String.eqb (member_address m) a) E /\
  length (filter (fun m => member_address m = a) (members st))
    = (if bool_decide (a ∈ member_address <$> E) then 1 else 0)%nat.
Proof.
  intros st E. destruct (two_pass_fold decimals h tcs scs) as [Hm [Hnd _]].
  fold st in Hm, Hnd. rewrite Hm in *. unfold snapshot_spec in *. fold E in Hm, Hnd |- *.
  split; [by apply keep_first_find; set_solver|].
  rewrite NoDup_fmap_filter_length by done.
  rewrite (bool_decide_ext (a ∈ member_address <$> keep_first [] E) (a ∈ member_address <$> E));
    [done|].
  rewrite keep_first_elem. pose proof (not_elem_of_nil a). tauto.
Qed.

(** C4: invariant.  Each [forEach] callback preserves the scan invariant:
    the members' addresses stay pairwise distinct and [seenAddresses]
    stays the set of these addresses. *)
Theorem scan_steps_preserve_inv (decimals : Z) (h : xnum) (st : ScanState) (m : SnapshotMember) :
  scan_inv st ->
  scan_inv (token_member_step decimals h st m) /\ scan_inv (sft_member_step st m).
Proof.
  intros Hinv. rewrite token_member_step_guarded, sft_member_step_guarded.
  split; by apply guarded_step_inv.
Qed.

(** C10: the threshold.  A token holder not seen yet, whose balance is the
    decimal string of the integer [n] (as the API returns it), is pushed
    exactly when [n * 10^-decimals] is at least the minimum: a holder at
    the minimum is included, one below it is not. *)
Theorem token_threshold (decimals : Z) (q : Q) (n : N) (st : ScanState) (c : SnapshotCandidate) :
  balance c = pretty (Z.of_N n) ->
  address c ∉ seenAddresses st ->
  members (token_member_step decimals (XFin q) st (to_member c))
  = members st ++ (if Qle_bool q (inject_Z (Z.of_N n) * Qpower (inject_Z 10) (- decimals))%Q
                   then [to_member c] else []).
Proof.
  intros Hb Hseen. unfold token_member_step, satisfiesMinHoldAmount. cbn [to_member weight member_address].
  cbn [bignumber_of_value]. rewrite Hb, bignumber_of_string_pretty, bool_decide_false by done. cbn.
  destruct (Qle_bool _ _); cbn; [done | by rewrite app_nil_r].
Qed.

(** C30: the loop stops exactly when a page comes back empty (or fails),
    or after the tenth page: if pages [1 .. k-1] have holders and page [k]
    has none or [k] is 10, the pass requests pages [1 .. k] in order and
    nothing else. *)
Theorem scan_stops (path : Z -> string) (step : ScanState -> SnapshotMember -> ScanState)
    (w : World) (st : ScanState) (k : nat) :
  (1 <= k <= 10)%nat ->
  (forall i : nat, (1 <= i < k)%nat -> exists c cs, w_api_get w (path (Z.of_nat i)) = Some (c :: cs)) ->
  (forall c cs, w_api_get w (path (Z.of_nat k)) <> Some (c :: cs)) \/ k = 10%nat ->
  gets (trace_of (scan_loop scan_fuel (fun p => doGetGeneric (path p)) step 1 st) w)
  = path <$> seqZ 1 (Z.of_nat k).
Proof.
  intros Hk Hne Hstop.
  rewrite scan_pass_requests.
  f_equal. apply (pages_requested_stop _ 10 1 k Hk).
  - intros i Hi. replace (1 + Z.of_nat i) with (Z.of_nat (S i)) by lia. apply Hne. lia.
  - by replace (1 + Z.of_nat k - 1) with (Z.of_nat k) by lia.
Qed.

(** C31: error path.  When a page request of the token pass fails, the
    pass rejects with [RequestFailed] for that page's path. *)
Theorem scan_request_failure (w : World) (tokenId : string) (decimals : Z) (h : xnum) (st : ScanState) :
  pages_from 10 (fun p => w_api_get w (token_path tokenId p)) 1 = None ->
  exists p, outcome_of (scanTokenHolders tokenId decimals h st) w
            = Thrown (RequestFailed (token_path tokenId p)).
Proof.
  intros H. unfold scanTokenHolders. rewrite getPaginatedTokenAccounts_path.
  by apply scan_pass_failure.
Qed.

(** C20: the fuel of a pass is enough.  [scan_loop] with its 11
    iterations of fuel behaves as with any larger fuel: the guard
    [page <= 10] (or an empty page) always ends the [for] loop first, so
    the bound of the model never cuts a pass short. *)
Theorem scan_fuel_sufficient (fetch : Z -> M (list SnapshotCandidate))
    (step : ScanState -> SnapshotMember -> ScanState) (st : ScanState) (fuel : nat) (w : World) :
  (scan_fuel <= fuel)%nat ->
  scan_loop fuel fetch step 1 st w = scan_loop scan_fuel fetch step 1 st w.
Proof. intros Hf. symmetry. apply scan_loop_fuel_mono; unfold scan_fuel in *; [cbn; lia | lia]. Qed.

(** C16: a pass paces its requests.  In every run of a paginated pass,
    two page requests are separated by a pause of at least 500 ms (the
    [timeout(500)] at the end of each page with holders). *)
Theorem scan_pages_paced (path : Z -> string) (step : ScanState -> SnapshotMember -> ScanState)
    (st : ScanState) (w : World) (i j : nat) (p1 p2 : string) :
  let t := trace_of (scan_loop scan_fuel (fun p => doGetGeneric (path p)) step 1 st) w in
  (i < j)%nat -> t !! i = Some (EGet p1) -> t !! j = Some (EGet p2) ->
  exists k ms, (i < k < j)%nat /\ t !! k = Some (ESleep ms) /\ 500 <= ms.
Proof.
  intros t Hij Hi Hj.
  exact (paces_separated is_get (fun _ => eq_refl) _ true
           (scan_loop_paces (fun p => doGetGeneric (path p)) step (fun p => doGetGeneric_paces (path p)) scan_fuel 1 st)
           w i j _ _ Hij Hi Hj eq_refl eq_refl).
Qed.

(** ** A concrete run: the scenario of the specification

    Token [ITH] with 18 decimals and a minimum of 10: page 1 has two
    holders at or above the minimum, page 2 is empty.  SFT [TRAIL]: page 1
    has three holders, one of them also a token holder; page 2 is empty. *)

Definition ex_token_page : list SnapshotCandidate :=
  [mkCandidate "erd1tok1" "20000000000000000000"; mkCandidate "erd1tok2" "10000000000000000000"].

Definition ex_sft_page : list SnapshotCandidate :=
  [mkCandidate "erd1tok1" "1"; mkCandidate "erd1sft1" "1"; mkCandidate "erd1sft2" "2"].

Definition ex_api_get (path : string) : option (list SnapshotCandidate) :=
  if String.eqb path (token_path "ITH" 1) then Some ex_token_page
  else if String.eqb path (token_path "ITH" 2) then Some []
  else if String.eqb path (sft_path "TRAIL" 1) then Some ex_sft_page
  else if String.eqb path (sft_path "TRAIL" 2) then Some []
  else None.

Definition ex_world (api_get : string -> option (list SnapshotCandidate)) : World :=
  mkWorld [] None None (fun _ => Some 18) api_get (fun _ => Some 7)
    (Some (mkNetworkConfig 1500 "D")) (fun _ => true).

Lemma scan_refines_witness :
  pages_from 10 (fun p => w_api_get (ex_world ex_api_get) (token_path "ITH" p)) 1 = Some ex_token_page /\
  pages_from 10 (fun p => w_api_get (ex_world ex_api_get) (sft_path "TRAIL" p)) 1 = Some ex_sft_page /\
  exists st,
    outcome_of (scanTokenHolders "ITH" 18 (XFin 10) initial_scan_state ≫= scanSftHolders "TRAIL")
      (ex_world ex_api_get) = Ok st /\
    members st = snapshot_spec 18 (XFin 10) ex_token_page ex_sft_page /\ scan_inv st.
Proof.
  split; [vm_compute; reflexivity|]. split; [vm_compute; reflexivity|].
  apply scan_refines; vm_compute; reflexivity.
Defined.

Lemma scan_steps_preserve_inv_witness :
  scan_inv initial_scan_state /\
  scan_inv (token_member_step 18 (XFin 10) initial_scan_state (to_member (mkCandidate "erd1a" "5"))) /\
  scan_inv (sft_member_step initial_scan_state (to_member (mkCandidate "erd1a" "5"))).
Proof. split; [apply scan_inv_initial|]. apply scan_steps_preserve_inv, scan_inv_initial. Defined.

Lemma token_threshold_witness :
  "10000000000000000000" = pretty (Z.of_N 10000000000000000000) /\
  members (token_member_step 18 (XFin 10) initial_scan_state
             (to_member (mkCandidate "erd1tok2" "10000000000000000000")))
  = [to_member (mkCandidate "erd1tok2" "10000000000000000000")].
Proof.
  split; [vm_compute; reflexivity|].
  rewrite (token_threshold 18 10 10000000000000000000 initial_scan_state
             (mkCandidate "erd1tok2" "10000000000000000000")); [vm_compute; reflexivity | set_solver |].
  cbn. set_solver.
Defined.

Lemma scan_stops_witness :
  gets (trace_of (scan_loop scan_fuel (fun p => doGetGeneric (token_path "ITH" p))
                    (token_member_step 18 (XFin 10)) 1 initial_scan_state) (ex_world ex_api_get))
  = token_path "ITH" <$> seqZ 1 2.
Proof.
  apply (scan_stops _ _ _ _ 2); [lia| |left].
  - intros i Hi. assert (i = 1%nat) as -> by lia. vm_compute. eauto.
  - intros c cs. vm_compute. discriminate.
Defined.

Lemma scan_request_failure_witness :
  pages_from 10 (fun p => w_api_get (ex_world (fun _ => None)) (token_path "ITH" p)) 1 = None /\
  exists p, outcome_of (scanTokenHolders "ITH" 18 (XFin 10) initial_scan_state) (ex_world (fun _ => None))
            = Thrown (RequestFailed (token_path "ITH" p)).
Proof. split; [reflexivity|]. apply scan_request_failure. reflexivity. Defined.

Lemma scan_fuel_sufficient_witness :
  (scan_fuel <= 50)%nat /\
  scan_loop 50 (getPaginatedTokenAccounts "ITH") (token_member_step 18 (XFin 10)) 1 initial_scan_state
    (ex_world ex_api_get)
  = scan_loop scan_fuel (getPaginatedTokenAccounts "ITH") (token_member_step 18 (XFin 10)) 1 initial_scan_state
      (ex_world ex_api_get).
Proof.
  split; [unfold scan_fuel; lia|].
  apply (scan_fuel_sufficient (getPaginatedTokenAccounts "ITH") (token_member_step 18 (XFin 10))
           initial_scan_state 50 (ex_world ex_api_get)).
  unfold scan_fuel; lia.
Defined.

Lemma scan_pages_paced_witness :
  let t := trace_of (scan_loop scan_fuel (fun p => doGetGeneric (token_path "ITH" p))
                       (token_member_step 18 (XFin 10)) 1 initial_scan_state) (ex_world ex_api_get) in
  (0 < 2)%nat /\ t !! 0%nat = Some (EGet (token_path "ITH" 1)) /\ t !! 2%nat = Some (EGet (token_path "ITH" 2)) /\
  exists k ms, (0 < k < 2)%nat /\ t !! k = Some (ESleep ms) /\ 500 <= ms.
Proof.
  intros t.
  assert (Hi : t !! 0%nat = Some (EGet (token_path "ITH" 1))) by (vm_compute; reflexivity).
  assert (Hj : t !! 2%nat = Some (EGet (token_path "ITH" 2))) by (vm_compute; reflexivity).
  split; [lia|]. split; [exact Hi|]. split; [exact Hj|].
  exact (scan_pages_paced (token_path "ITH") (token_member_step 18 (XFin 10)) initial_scan_state
           (ex_world ex_api_get) 0 2 _ _ ltac:(lia) Hi Hj).
Defined.
