(* ===== verification/Config.v ===== *)
(** * The configuration of [main] (register-snapshot.ts, lines 22-34 and
      115-119)

    [loadMxpyConfig] reads and parses [mxpy.data-storage.json]; the parsed
    value is the [World]'s [w_config].  [main] then reads six properties of
    [mxpyConfig[env]], converts the minimum with unary [+], and returns
    early, after one console line, when the environment name or one of the
    five string fields is falsy.  Reading a property of [undefined] (an
    unknown environment) throws before the guard is reached. *)

From S2P Require Import Prelude JsRuntime Types Script Helpers.

Local Open Scope Z_scope.

(** The fields [main] reads, as JavaScript values. *)
Record MxpyConfig := mkMxpyConfig {
  apiUrl : jsval;
  proxyUrl : jsval;
  itheumTokenId : jsval;
  itheumMinHoldAmount : xnum;
  trailblazerNftId : jsval;
  scAddress : jsval
}.

(** [env] as a JavaScript value, and as a property key: [undefined]
    becomes the key ["undefined"]. *)
Definition env_value (env : option string) : jsval :=
  match env with Some s => JString s | None => JUndefined end.

Definition env_key (env : option string) : string :=
  match env with Some s => s | None => "undefined" end.

(** [loadMxpyConfig()] *)
Definition loadMxpyConfig : M jsval :=
  w ← ask;
  lift_option ConfigReadFailed (w_config w).

(** [mxpyConfig[env][key]] *)
Definition config_field (mxpyConfig : jsval) (env : option string) (key : string) : M jsval :=
  section ← lift_option TypeErrorUndefined (get_prop mxpyConfig (env_key env));
  lift_option TypeErrorUndefined (get_prop section key).

(** Lines 24-29. *)
Definition read_config (mxpyConfig : jsval) (env : option string) : M MxpyConfig :=
  apiUrl ← config_field mxpyConfig env "api";
  proxyUrl ← config_field mxpyConfig env "proxy";
  itheumTokenId ← config_field mxpyConfig env "itheum-tokenid";
  minHold ← config_field mxpyConfig env "itheum-min-hold-amount";
  trailblazerNftId ← config_field mxpyConfig env "trailblazer-nftid";
  scAddress ← config_field mxpyConfig env "contract-address";
  mret (mkMxpyConfig apiUrl proxyUrl itheumTokenId (js_to_number minHold) trailblazerNftId scAddress).

(** The guard of line 31, negated: the configuration is used when this
    holds. *)
Definition config_ok (env : option string) (c : MxpyConfig) : bool :=
  negb (negb (js_truthy (env_value env)) || negb (js_truthy (itheumTokenId c))
        || negb (js_truthy (trailblazerNftId c)) || negb (js_truthy (scAddress c))
        || negb (js_truthy (apiUrl c)) || negb (js_truthy (proxyUrl c))).

(** ** Reading the configuration without effects *)

Definition lookup_section (mxpyConfig : jsval) (env : option string) : option jsval :=
  get_prop mxpyConfig (env_key env).

(** The six reads succeed exactly when the section is an object (or any
    value that is neither [undefined] nor [null]). *)
Definition config_of (mxpyConfig : jsval) (env : option string) : option MxpyConfig :=
  section ← lookup_section mxpyConfig env;
  a ← get_prop section "api";
  p ← get_prop section "proxy";
  t ← get_prop section "itheum-tokenid";
  m ← get_prop section "itheum-min-hold-amount";
  n ← get_prop section "trailblazer-nftid";
  c ← get_prop section "contract-address";
  Some (mkMxpyConfig a p t (js_to_number m) n c).

Lemma config_field_run (mxpyConfig : jsval) (env : option string) (key : string) (w : World) :
  config_field mxpyConfig env key w =
  ([], match lookup_section mxpyConfig env ≫= fun s => get_prop s key with
       | Some v => Ok v
       | None => Thrown TypeErrorUndefined
       end).
Proof.
  unfold config_field, lookup_section, mbind at 1, M_bind.
  destruct (get_prop mxpyConfig (env_key env)) as [s|]; [|done]. cbn.
  by destruct (get_prop s key).
Qed.

Lemma read_config_run (mxpyConfig : jsval) (env : option string) (w : World) :
  read_config mxpyConfig env w =
  ([], match config_of mxpyConfig env with Some c => Ok c | None => Thrown TypeErrorUndefined end).
Proof.
  unfold read_config, config_of.
  unfold mbind at 1 2 3 4 5 6, M_bind. rewrite !config_field_run.
  destruct (lookup_section mxpyConfig env) as [s|]; [|done]. cbn.
  destruct (get_prop s "api"); [|done]. destruct (get_prop s "proxy"); [|done].
  destruct (get_prop s "itheum-tokenid"); [|done].
  destruct (get_prop s "itheum-min-hold-amount"); [|done].
  destruct (get_prop s "trailblazer-nftid"); [|done].
  by destruct (get_prop s "contract-address").
Qed.

Lemma outcome_of_read_config (mxpyConfig : jsval) (env : option string) (w : World) :
  outcome_of (read_config mxpyConfig env) w =
  match config_of mxpyConfig env with Some c => Ok c | None => Thrown TypeErrorUndefined end.
Proof. unfold outcome_of. by rewrite read_config_run. Qed.

Lemma trace_of_read_config (mxpyConfig : jsval) (env : option string) (w : World) :
  trace_of (read_config mxpyConfig env) w = [].
Proof. unfold trace_of. by rewrite read_config_run. Qed.

Lemma outcome_of_loadMxpyConfig (w : World) :
  outcome_of loadMxpyConfig w = match w_config w with Some c => Ok c | None => Thrown ConfigReadFailed end.
Proof. unfold loadMxpyConfig. run_simpl. by destruct (w_config w). Qed.

Lemma trace_of_loadMxpyConfig (w : World) : trace_of loadMxpyConfig w = [].
Proof. unfold loadMxpyConfig. run_simpl. by destruct (w_config w). Qed.

#[export] Hint Rewrite outcome_of_read_config trace_of_read_config outcome_of_loadMxpyConfig
  trace_of_loadMxpyConfig : snap_rw.

(** An environment whose section is missing (or [null]) makes every read
    throw: the guard is never reached. *)
Lemma config_of_missing_section (mxpyConfig : jsval) (env : option string) :
  lookup_section mxpyConfig env = Some JUndefined \/ lookup_section mxpyConfig env = Some JNull \/
  lookup_section mxpyConfig env = None ->
  config_of mxpyConfig env = None.
Proof. unfold config_of. intros [->|[->| ->]]; done. Qed.

(** The minimum is the unary [+] of the field as read. *)
Lemma config_of_min_hold (mxpyConfig section m : jsval) (env : option string) (cfg : MxpyConfig) :
  lookup_section mxpyConfig env = Some section ->
  get_prop section "itheum-min-hold-amount" = Some m ->
  config_of mxpyConfig env = Some cfg ->
  itheumMinHoldAmount cfg = js_to_number m.
Proof.
  intros Hs Hm. unfold config_of. rewrite Hs. cbn.
  destruct (get_prop section "api"); [|done]. destruct (get_prop section "proxy"); [|done].
  destruct (get_prop section "itheum-tokenid"); [|done]. rewrite Hm. cbn.
  destruct (get_prop section "trailblazer-nftid"); [|done].
  destruct (get_prop section "contract-address"); [|done]. by intros [= <-].
Qed.
