(* ===== verification/Submitter.v ===== *)
(** * The transaction submitter (register-snapshot.ts, lines 98-113 and
      133-174)

    State: the SDK [Account] object, whose nonce [registerSnapshotInContract]
    mutates through [getNonceThenIncrement]; it is threaded through the
    batch loop as a value.  Operations: the payload [reduce]
    ([build_payload]), the gas formula ([computedGasLimit]),
    [registerSnapshotInContract] and the batch loop ([register_batches]).
    Besides the runs where everything succeeds, the file proves what holds
    for every world: each broadcast is well formed ([tx_wf]), the loop
    pauses after each broadcast, throws only the program's exceptions, and
    its fuel is enough.

    The SDK is reached through the class [Sdk]: how an address and a weight
    become arguments of the call, how a transaction is serialised for
    signing, and the laws the theorems rely on (arguments are hexadecimal,
    an address argument has 64 digits, each argument decodes back).  The
    payload builder's wire format, [function@arg1@arg2...], is written out
    ([build]) with its parser [split_args]. *)

From S2P Require Import Prelude JsRuntime Types Script Helpers Traces Pacing.
From Stdlib Require Import Ascii.

Local Open Scope Z_scope.
Local Set Warnings "-clear-no-such-hyp".

(** ** The SDK interface *)

Definition is_hex_digit (c : ascii) : bool := bool_decide (is_Some (digit_in_base 16 c)).

Definition hex_string (s : string) : Prop := Forall (fun c => is_hex_digit c = true) (String.list_ascii_of_string s).

Class Sdk := {
  (** [new AddressValue(Address.fromBech32(a))], encoded: [None] when
      [fromBech32] throws *)
  sdk_address_arg : string -> option string;
  (** [new BigUIntValue(v)], encoded: [None] when the constructor throws
      (not a non-negative integer) *)
  sdk_biguint_arg : BigNumberValue -> option string;
  (** [new Address(scAddress)], as its bech32 string; [None] when it throws *)
  sdk_new_address : jsval -> option string;
  (** [tx.serializeForSigning()] *)
  sdk_serialize : Transaction -> string;
  (** what the contract reads back from an argument *)
  sdk_decode_address : string -> option string;
  sdk_decode_biguint : string -> option Z;

  sdk_address_arg_hex : forall a h, sdk_address_arg a = Some h -> hex_string h;
  sdk_address_arg_length : forall a h, sdk_address_arg a = Some h -> String.length h = 64%nat;
  sdk_biguint_arg_hex : forall v h, sdk_biguint_arg v = Some h -> hex_string h;
  sdk_address_roundtrip : forall a h, sdk_address_arg a = Some h -> sdk_decode_address h = Some a;
  sdk_biguint_roundtrip : forall v h, sdk_biguint_arg v = Some h ->
    exists n, bignumber_of_value v = XFin (inject_Z n) /\ sdk_decode_biguint h = Some n
}.

(** ** The payload builder's format *)

Record PayloadBuilder := mkPayloadBuilder {
  pb_function : string;
  pb_args : list string
}.

(** [new ContractCallPayloadBuilder().setFunction(new ContractFunction(f))] *)
Definition setFunction (f : string) : PayloadBuilder := mkPayloadBuilder f [].

(** [builder.addArg(arg)] *)
Definition addArg (b : PayloadBuilder) (arg : string) : PayloadBuilder :=
  mkPayloadBuilder (pb_function b) (pb_args b ++ [arg]).

(** [builder.build()]: [f@arg1@arg2...] *)
Definition build (b : PayloadBuilder) : string :=
  pb_function b +:+ foldr (fun a s => "@" +:+ a +:+ s) "" (pb_args b).

(** Splitting the data field at every [@]. *)
Fixpoint split_args_go (cur : string) (s : string) : list string :=
  match s with
  | EmptyString => [cur]
  | String c s' =>
      if (c =? "@")%char then cur :: split_args_go "" s'
      else split_args_go (cur +:+ String c EmptyString) s'
  end.

Definition split_args (s : string) : list string := split_args_go "" s.

(** ** The submitter *)

Definition MaxBlockGasLimit : Z := 600000000.

Record Account := mkAccount {
  account_address : string;
  account_nonce : Z
}.

(** [new Account(address)] *)
Definition new_account (addr : string) : Account := mkAccount addr 0.

(** [account.update(accountOnNetwork)] *)
Definition account_update (a : Account) (nonce : Z) : Account := mkAccount (account_address a) nonce.

(** [account.getNonceThenIncrement()] *)
Definition getNonceThenIncrement (a : Account) : Z * Account :=
  (account_nonce a, mkAccount (account_address a) (account_nonce a + 1)).

(** [tx.setNonce(n)] *)
Definition setNonce (tx : Transaction) (n : Z) : Transaction :=
  mkTransaction n (tx_value tx) (tx_receiver tx) (tx_sender tx) (tx_gasLimit tx) (tx_data tx)
    (tx_chainID tx) (tx_signature tx).

(** [tx.applySignature(signature)] *)
Definition applySignature (tx : Transaction) (signature : string) : Transaction :=
  mkTransaction (tx_nonce tx) (tx_value tx) (tx_receiver tx) (tx_sender tx) (tx_gasLimit tx)
    (tx_data tx) (tx_chainID tx) (Some signature).

Section Submitter.
Context `{!Sdk}.

(** The [reduce] of [registerSnapshotInContract]: [fromBech32] on the
    address, then [BigUIntValue] on the weight, for each entry. *)
Definition build_payload (entries : list SnapshotMember) : M string :=
  b ← foldl (fun carry entry =>
         c ← carry;
         a ← lift_option (InvalidArgument "address") (sdk_address_arg (member_address entry));
         v ← lift_option (InvalidArgument "biguint") (sdk_biguint_arg (weight entry));
         mret (addArg (addArg c a) v))
       (mret (setFunction "registerMembersSnapshotBatch")) entries;
  mret (build b).

(** [Math.min(MaxBlockGasLimit, 20_000_000 + (GasPerDataByte + 20_000) *
    payload.length())] *)
Definition computedGasLimit (gasPerDataByte : Z) (payloadLength : Z) : Z :=
  Z.min MaxBlockGasLimit (20000000 + (gasPerDataByte + 20000) * payloadLength).

(** [provider.getNetworkConfig()] *)
Definition getNetworkConfig : M NetworkConfig :=
  emit EGetNetworkConfig ;;
  w ← ask;
  lift_option (RequestFailed "network config") (w_network_config w).

(** [provider.sendTransaction(tx)] *)
Definition sendTransaction (tx : Transaction) : M unit :=
  emit (ESend tx) ;;
  w ← ask;
  if w_send_ok w tx then mret tt else throw (SendFailed tx).

(** [registerSnapshotInContract(provider, account, signer, scAddress,
    entries)]: returns the account (its nonce incremented) and the
    transaction. *)
Definition registerSnapshotInContract (account : Account) (signer : UserSigner)
    (scAddress : jsval) (entries : list SnapshotMember) : M (Account * Transaction) :=
  networkConfig ← getNetworkConfig;
  payload ← build_payload entries;
  let gasLimit := computedGasLimit (GasPerDataByte networkConfig) (Z.of_nat (String.length payload)) in
  receiver ← lift_option (InvalidArgument "receiver") (sdk_new_address scAddress);
  let tx := mkTransaction 0 0 receiver (account_address account) gasLimit payload
              (ChainID networkConfig) None in
  let '(nonce, account') := getNonceThenIncrement account in
  let tx := setNonce tx nonce in
  let signature := signer_sign signer (sdk_serialize tx) in
  let tx := applySignature tx signature in
  sendTransaction tx ;;
  mret (account', tx).

(** [for (let i = 0; i < batches.length; i++) { const chunk = batches[i];
    console.log(...); await registerSnapshotInContract(...); await
    timeout(500) }]; the fuel counts the loop tests. *)
Fixpoint register_batches (fuel : nat) (batches : list (list SnapshotMember)) (i : Z)
    (account : Account) (signer : UserSigner) (scAddress : jsval) : M Account :=
  match fuel with
  | O => mret account
  | S fuel' =>
      if i <? Z.of_nat (length batches) then
        chunk ← lift_option TypeErrorUndefined (js_index batches i);
        log (LogBatch (i + 1) (Z.of_nat (length batches))) ;;
        '(account', _) ← registerSnapshotInContract account signer scAddress chunk;
        timeout 500 false ;;
        register_batches fuel' batches (i + 1) account' signer scAddress
      else mret account
  end.

End Submitter.

(** ** Specification of the payload *)

Section PayloadSpec.
Context `{!Sdk}.

(** The arguments of a batch, two per entry, or the first exception. *)
Fixpoint encode_entries (entries : list SnapshotMember) : Outcome (list string) :=
  match entries with
  | [] => Ok []
  | e :: es =>
      match sdk_address_arg (member_address e) with
      | None => Thrown (InvalidArgument "address")
      | Some a =>
          match sdk_biguint_arg (weight e) with
          | None => Thrown (InvalidArgument "biguint")
          | Some v =>
              match encode_entries es with
              | Ok rest => Ok (a :: v :: rest)
              | Thrown ex => Thrown ex
              end
          end
      end
  end.

Definition payload_step (carry : M PayloadBuilder) (entry : SnapshotMember) : M PayloadBuilder :=
  c ← carry;
  a ← lift_option (InvalidArgument "address") (sdk_address_arg (member_address entry));
  v ← lift_option (InvalidArgument "biguint") (sdk_biguint_arg (weight entry));
  mret (addArg (addArg c a) v).

Lemma payload_fold_outcome (w : World) (entries : list SnapshotMember) :
  forall carry : M PayloadBuilder,
  outcome_of (foldl payload_step carry entries) w =
  match outcome_of carry w with
  | Ok c => match encode_entries entries with
            | Ok args => Ok (mkPayloadBuilder (pb_function c) (pb_args c ++ args))
            | Thrown ex => Thrown ex
            end
  | Thrown ex => Thrown ex
  end.
Proof.
  induction entries as [|e es IH]; intros carry; cbn [foldl encode_entries].
  - destruct (outcome_of carry w) as [[f args]|]; [by rewrite app_nil_r|done].
  - rewrite IH. unfold payload_step. run_simpl.
    destruct (outcome_of carry w) as [[f args]|ex]; [|done].
    destruct (sdk_address_arg _) as [a|]; run_simpl; [|done].
    destruct (sdk_biguint_arg _) as [v|]; run_simpl; [|done].
    destruct (encode_entries es); [|done]. cbn. by rewrite <- !app_assoc.
Qed.

Lemma payload_fold_trace (w : World) (entries : list SnapshotMember) :
  forall carry : M PayloadBuilder,
  trace_of (foldl payload_step carry entries) w = trace_of carry w.
Proof.
  induction entries as [|e es IH]; intros carry; cbn [foldl]; [done|].
  rewrite IH. unfold payload_step. run_simpl.
  destruct (outcome_of carry w); [|by rewrite app_nil_r].
  destruct (sdk_address_arg _); run_simpl; [|by rewrite ?app_nil_r].
  destruct (sdk_biguint_arg _); run_simpl; by rewrite ?app_nil_r.
Qed.

Lemma build_payload_outcome (w : World) (entries : list SnapshotMember) :
  outcome_of (build_payload entries) w =
  match encode_entries entries with
  | Ok args => Ok (build (mkPayloadBuilder "registerMembersSnapshotBatch" args))
  | Thrown ex => Thrown ex
  end.
Proof.
  unfold build_payload. run_simpl. fold payload_step. rewrite payload_fold_outcome. cbn.
  by destruct (encode_entries entries).
Qed.

Lemma build_payload_trace (w : World) (entries : list SnapshotMember) :
  trace_of (build_payload entries) w = [].
Proof.
  unfold build_payload. run_simpl. fold payload_step.
  rewrite payload_fold_trace, payload_fold_outcome. cbn.
  by destruct (encode_entries entries).
Qed.
End PayloadSpec.

(** ** One batch *)

Section Register.
Context `{!Sdk}.

(** The transaction [registerSnapshotInContract] signs and sends for a
    batch whose arguments are [args]. *)
Definition batch_tx (signer : UserSigner) (nc : NetworkConfig) (receiver sender : string)
    (nonce : Z) (args : list string) : Transaction :=
  let payload := build (mkPayloadBuilder "registerMembersSnapshotBatch" args) in
  let tx := setNonce (mkTransaction 0 0 receiver sender
                        (computedGasLimit (GasPerDataByte nc) (Z.of_nat (String.length payload)))
                        payload (ChainID nc) None) nonce in
  applySignature tx (signer_sign signer (sdk_serialize tx)).

Lemma outcome_of_getNetworkConfig (w : World) :
  outcome_of getNetworkConfig w =
  match w_network_config w with Some nc => Ok nc | None => Thrown (RequestFailed "network config") end.
Proof. unfold getNetworkConfig. run_simpl. by destruct (w_network_config w). Qed.

Lemma trace_of_getNetworkConfig (w : World) : trace_of getNetworkConfig w = [EGetNetworkConfig].
Proof. unfold getNetworkConfig. run_simpl. by destruct (w_network_config w). Qed.

Lemma outcome_of_sendTransaction (w : World) (tx : Transaction) :
  outcome_of (sendTransaction tx) w = if w_send_ok w tx then Ok tt else Thrown (SendFailed tx).
Proof. unfold sendTransaction. run_simpl. by destruct (w_send_ok w tx). Qed.

Lemma trace_of_sendTransaction (w : World) (tx : Transaction) :
  trace_of (sendTransaction tx) w = [ESend tx].
Proof. unfold sendTransaction. run_simpl. by destruct (w_send_ok w tx). Qed.

#[local] Hint Rewrite outcome_of_getNetworkConfig trace_of_getNetworkConfig outcome_of_sendTransaction
  trace_of_sendTransaction build_payload_outcome build_payload_trace : snap_rw.

(** A batch that encodes and is accepted: one network-config request, one
    broadcast of [batch_tx] with the account's nonce, and the account's
    nonce incremented. *)
Lemma register_run (w : World) (account : Account) (signer : UserSigner) (scAddress : jsval)
    (entries : list SnapshotMember) (nc : NetworkConfig) (r : string) (args : list string) :
  w_network_config w = Some nc -> encode_entries entries = Ok args ->
  sdk_new_address scAddress = Some r ->
  w_send_ok w (batch_tx signer nc r (account_address account) (account_nonce account) args) = true ->
  registerSnapshotInContract account signer scAddress entries w =
  ([EGetNetworkConfig; ESend (batch_tx signer nc r (account_address account) (account_nonce account) args)],
   Ok (mkAccount (account_address account) (account_nonce account + 1),
       batch_tx signer nc r (account_address account) (account_nonce account) args)).
Proof.
  intros Hnc Henc Hr Hok.
  rewrite (surjective_pairing (registerSnapshotInContract _ _ _ _ w)).
  fold (trace_of (registerSnapshotInContract account signer scAddress entries) w).
  fold (outcome_of (registerSnapshotInContract account signer scAddress entries) w).
  unfold registerSnapshotInContract. run_simpl. rewrite Hnc. run_simpl.
  rewrite Henc. run_simpl. rewrite Hr. run_simpl.
  unfold getNonceThenIncrement. cbn [fst snd]. run_simpl.
  unfold batch_tx in Hok. rewrite Hok. run_simpl. done.
Qed.
End Register.

#[export] Hint Rewrite outcome_of_getNetworkConfig trace_of_getNetworkConfig outcome_of_sendTransaction
  trace_of_sendTransaction @build_payload_outcome @build_payload_trace : snap_rw.

Lemma outcome_of_run {A} (m : M A) (w : World) t r :
  m w = (t, r) -> outcome_of m w = r.
Proof. unfold outcome_of. by intros ->. Qed.

Lemma trace_of_run {A} (m : M A) (w : World) t r :
  m w = (t, r) -> trace_of m w = t.
Proof. unfold trace_of. by intros ->. Qed.

(** ** The batch loop *)

Section Batches.
Context `{!Sdk} (w : World) (signer : UserSigner) (scAddress : jsval)
  (nc : NetworkConfig) (r : string).
Hypothesis Hnc : w_network_config w = Some nc.
Hypothesis Hr : sdk_new_address scAddress = Some r.
Hypothesis Hsend : forall tx, w_send_ok w tx = true.

(** When every batch encodes, the loop from batch [i] prints one line
    per remaining batch and sends one transaction per remaining batch,
    with consecutive nonces from the account's, and returns the account
    with its nonce advanced by the number of batches sent. *)
Lemma register_batches_trace (batches : list (list SnapshotMember)) (argss : list (list string)) :
  Forall2 (fun b args => encode_entries b = Ok args) batches argss ->
  forall n fuel (i : nat) (account : Account),
  (i + n)%nat = length batches -> (n < fuel)%nat ->
  let t := trace_of (register_batches fuel batches (Z.of_nat i) account signer scAddress) w in
  outcome_of (register_batches fuel batches (Z.of_nat i) account signer scAddress) w
    = Ok (mkAccount (account_address account) (account_nonce account + Z.of_nat n)) /\
  sends t = zip_with (batch_tx signer nc r (account_address account))
              (seqZ (account_nonce account) (Z.of_nat n)) (drop i argss) /\
  logs t = (fun k => LogBatch k (Z.of_nat (length batches))) <$> seqZ (Z.of_nat i + 1) (Z.of_nat n).
Proof.
  intros Hargs. pose proof (Forall2_length _ _ _ Hargs) as Hlen.
  induction n as [|n IH]; intros [|fuel] i account Hi Hf; try lia; cbn [register_batches].
  - destruct (Z.ltb_spec (Z.of_nat i) (Z.of_nat (length batches))); [lia|].
    run_simpl. rewrite Z.add_0_r, drop_ge by lia. by destruct account.
  - destruct (Z.ltb_spec (Z.of_nat i) (Z.of_nat (length batches))); [|lia].
    destruct (lookup_lt_is_Some_2 batches i) as [chunk Hchunk]; [lia|].
    destruct (Forall2_lookup_l _ _ _ _ _ Hargs Hchunk) as (args & Hai & Henc).
    unfold log. run_simpl. rewrite js_index_nonneg, Nat2Z.id, Hchunk by lia. run_simpl.
    assert (Hrun := register_run w account signer scAddress chunk nc r args Hnc Henc Hr (Hsend _)).
    rewrite (outcome_of_run _ _ _ _ Hrun), (trace_of_run _ _ _ _ Hrun). run_simpl.
    replace (Z.of_nat i + 1) with (Z.of_nat (S i)) by lia.
    destruct (IH fuel (S i) (mkAccount (account_address account) (account_nonce account + 1)))
      as (Ho & Hs & Hl); [lia | lia |].
    cbn [account_address account_nonce] in Ho, Hs. split_and!.
    + rewrite Ho. do 2 f_equal. lia.
    + rewrite !sends_app, Hs. rewrite (drop_S argss args i Hai).
      rewrite (seqZ_cons (account_nonce account)) by lia. cbn. do 2 f_equal.
      replace (Z.pred (Z.of_nat (S n))) with (Z.of_nat n) by lia. done.
    + rewrite !logs_app, Hl. rewrite (seqZ_cons (Z.of_nat (S i))) by lia. cbn. f_equal.
      replace (Z.succ (Z.of_nat (S i))) with (Z.of_nat (S i) + 1) by lia.
      by replace (Z.pred (Z.of_nat (S n))) with (Z.of_nat n) by lia.
Qed.

Lemma register_batches_run (batches : list (list SnapshotMember)) (argss : list (list string)) :
  Forall2 (fun b args => encode_entries b = Ok args) batches argss ->
  forall n fuel (i : nat) (account : Account),
  (i + n)%nat = length batches -> (n < fuel)%nat ->
  outcome_of (register_batches fuel batches (Z.of_nat i) account signer scAddress) w
    = Ok (mkAccount (account_address account) (account_nonce account + Z.of_nat n)) /\
  sends (trace_of (register_batches fuel batches (Z.of_nat i) account signer scAddress) w)
    = zip_with (batch_tx signer nc r (account_address account))
        (seqZ (account_nonce account) (Z.of_nat n)) (drop i argss).
Proof.
  intros Hargs n fuel i account Hi Hf.
  destruct (register_batches_trace batches argss Hargs n fuel i account Hi Hf) as (Ho & Hs & _). done.
Qed.
End Batches.

(** ** What the contract reads back *)

Definition no_at (s : string) : Prop := Forall (fun c => c <> "@"%char) (String.list_ascii_of_string s).

Lemma hex_string_no_at (s : string) : hex_string s -> no_at s.
Proof.
  unfold hex_string, no_at. intros H. eapply Forall_impl; [exact H|].
  intros c Hc ->. discriminate Hc.
Qed.

Lemma split_args_go_app (cur s rest : string) :
  no_at s -> split_args_go cur (s +:+ rest) = split_args_go (cur +:+ s) rest.
Proof.
  revert cur. induction s as [|c s IH]; intros cur Hs.
  - by rewrite string_app_nil_l, string_app_nil_r.
  - rewrite string_app_cons. inversion Hs as [|? ? Hc Hs']; subst. cbn [split_args_go].
    destruct (Ascii.eqb_spec c "@"); [done|]. rewrite IH by done.
    by rewrite string_app_assoc.
Qed.

Lemma split_args_go_args (cur : string) (args : list string) :
  Forall no_at args ->
  split_args_go cur (foldr (fun a s => "@" +:+ a +:+ s) "" args) = cur :: args.
Proof.
  revert cur. induction args as [|a args IH]; intros cur Hargs; [done|].
  inversion Hargs as [|? ? Ha Hargs']; subst. cbn [foldr].
  rewrite string_app_cons, string_app_nil_l. cbn [split_args_go]. cbn.
  rewrite split_args_go_app by done. rewrite string_app_nil_l. by rewrite IH.
Qed.

(** Round trip of the payload format: splitting the data field at [@]
    gives back the function name and the arguments. *)
Lemma split_args_build (f : string) (args : list string) :
  no_at f -> Forall no_at args -> split_args (build (mkPayloadBuilder f args)) = f :: args.
Proof.
  intros Hf Hargs. unfold split_args, build. cbn [pb_function pb_args].
  rewrite split_args_go_app by done. by apply split_args_go_args.
Qed.

Section Decode.
Context `{!Sdk}.

Fixpoint decode_pairs (args : list string) : option (list (string * Z)) :=
  match args with
  | [] => Some []
  | a :: v :: rest =>
      x ← sdk_decode_address a;
      n ← sdk_decode_biguint v;
      ps ← decode_pairs rest;
      Some ((x, n) :: ps)
  | _ => None
  end.

(** The function name and the (address, amount) pairs of a call's data. *)
Definition decode_call (data : string) : option (string * list (string * Z)) :=
  match split_args data with
  | f :: args => (fun ps => (f, ps)) <$> decode_pairs args
  | [] => None
  end.

(** A pair read back for an entry: its address and the integer value of
    its weight. *)
Definition registers (p : string * Z) (e : SnapshotMember) : Prop :=
  p.1 = member_address e /\ bignumber_of_value (weight e) = XFin (inject_Z p.2).

(** The addresses read back are the entries' addresses. *)
Lemma Forall2_registers_addresses (ps : list (string * Z)) (entries : list SnapshotMember) :
  Forall2 registers ps entries -> fst <$> ps = member_address <$> entries.
Proof. induction 1 as [|p e ps es [Hp _] _ IH]; [done|]. cbn. by rewrite Hp, IH. Qed.

Lemma encode_entries_no_at (entries : list SnapshotMember) args :
  encode_entries entries = Ok args -> Forall no_at args.
Proof.
  revert args. induction entries as [|e es IH]; intros args; cbn; [by intros [= <-]|].
  destruct (sdk_address_arg _) as [a|] eqn:Ha; [|done].
  destruct (sdk_biguint_arg _) as [v|] eqn:Hv; [|done].
  destruct (encode_entries es) as [rest|]; [|done]. intros [= <-].
  repeat constructor; [eapply hex_string_no_at, sdk_address_arg_hex, Ha
                      | eapply hex_string_no_at, sdk_biguint_arg_hex, Hv | by apply IH].
Qed.

Lemma encode_entries_decode (entries : list SnapshotMember) args :
  encode_entries entries = Ok args ->
  exists ps, decode_pairs args = Some ps /\ Forall2 registers ps entries.
Proof.
  revert args. induction entries as [|e es IH]; intros args; cbn; [intros [= <-]; by eexists|].
  destruct (sdk_address_arg _) as [a|] eqn:Ha; [|done].
  destruct (sdk_biguint_arg _) as [v|] eqn:Hv; [|done].
  destruct (encode_entries es) as [rest|]; [|done]. intros [= <-].
  destruct (IH rest eq_refl) as (ps & Hps & Hreg).
  destruct (sdk_biguint_roundtrip _ _ Hv) as (n & Hn & Hdec).
  exists ((member_address e, n) :: ps). cbn.
  rewrite (sdk_address_roundtrip _ _ Ha), Hdec, Hps. split; [done|].
  constructor; [|done]. by split.
Qed.

(** The contract reads, from the data of a batch's call, the function
    [registerMembersSnapshotBatch] and one pair per entry of the batch. *)
Lemma batch_call_decodes (entries : list SnapshotMember) args :
  encode_entries entries = Ok args ->
  exists ps, decode_call (build (mkPayloadBuilder "registerMembersSnapshotBatch" args))
             = Some ("registerMembersSnapshotBatch", ps) /\ Forall2 registers ps entries.
Proof.
  intros Henc. destruct (encode_entries_decode _ _ Henc) as (ps & Hps & Hreg).
  exists ps. split; [|done]. unfold decode_call.
  rewrite split_args_build; [by rewrite Hps | | by eapply encode_entries_no_at].
  repeat constructor; discriminate.
Qed.
End Decode.

(** ** Lemmas on the sent transactions *)

Section Sent.
Context `{!Sdk}.

Lemma batch_tx_fields (signer : UserSigner) (nc : NetworkConfig) (r sender : string) (k : Z) args :
  let tx := batch_tx signer nc r sender k args in
  tx_nonce tx = k /\ tx_value tx = 0 /\ tx_receiver tx = r /\ tx_sender tx = sender /\
  tx_data tx = build (mkPayloadBuilder "registerMembersSnapshotBatch" args) /\
  tx_gasLimit tx = computedGasLimit (GasPerDataByte nc) (Z.of_nat (String.length (tx_data tx))).
Proof. done. Qed.

Lemma zip_with_batch_tx_nonces (signer : UserSigner) (nc : NetworkConfig) (r sender : string) :
  forall (ks : list Z) (argss : list (list string)), length ks = length argss ->
  tx_nonce <$> zip_with (batch_tx signer nc r sender) ks argss = ks.
Proof. induction ks as [|k ks IH]; intros [|a argss] Hl; simpl in *; try done. f_equal. apply IH. lia. Qed.

Lemma register_failure_run (w : World) (account : Account) (signer : UserSigner) (scAddress : jsval)
    (entries : list SnapshotMember) (nc : NetworkConfig) (ex : Exn) :
  w_network_config w = Some nc -> encode_entries entries = Thrown ex ->
  registerSnapshotInContract account signer scAddress entries w = ([EGetNetworkConfig], Thrown ex).
Proof.
  intros Hnc Henc.
  rewrite (surjective_pairing (registerSnapshotInContract _ _ _ _ w)).
  fold (trace_of (registerSnapshotInContract account signer scAddress entries) w).
  fold (outcome_of (registerSnapshotInContract account signer scAddress entries) w).
  unfold registerSnapshotInContract. run_simpl. rewrite Hnc. run_simpl.
  rewrite Henc. run_simpl. done.
Qed.

(** The length of a payload: the function name, then one [@] and the
    digits of each argument. *)
Lemma build_length (f : string) (args : list string) :
  String.length (build (mkPayloadBuilder f args))
  = (String.length f + foldr (fun a n => S (String.length a + n)) 0%nat args)%nat.
Proof.
  unfold build. cbn [pb_function pb_args]. rewrite string_length_app. f_equal.
  induction args as [|a args IH]; [done|]. cbn [foldr].
  rewrite string_app_cons, string_app_nil_l. cbn [String.length].
  by rewrite string_length_app, IH.
Qed.

Lemma encode_entries_length (entries : list SnapshotMember) args :
  encode_entries entries = Ok args ->
  (66 * length entries <= foldr (fun a n => S (String.length a + n)) 0%nat args)%nat.
Proof.
  revert args. induction entries as [|e es IH]; intros args; cbn; [lia|].
  destruct (sdk_address_arg _) as [a|] eqn:Ha; [|done].
  destruct (sdk_biguint_arg _) as [v|] eqn:Hv; [|done].
  destruct (encode_entries es) as [rest|]; [|done]. intros [= <-].
  specialize (IH rest eq_refl). cbn [foldr]. rewrite (sdk_address_arg_length _ _ Ha). lia.
Qed.
(** Entries whose addresses and weights all encode give an argument
    list. *)
Lemma encode_entries_ok (entries : list SnapshotMember) :
  Forall (fun e => is_Some (sdk_address_arg (member_address e)) /\ is_Some (sdk_biguint_arg (weight e)))
    entries ->
  exists args, encode_entries entries = Ok args.
Proof.
  induction 1 as [|e es [[a Ha] [v Hv]] _ [rest IH]]; [by eexists|].
  exists (a :: v :: rest). cbn. by rewrite Ha, Hv, IH.
Qed.

Lemma encode_batches_ok (batches : list (list SnapshotMember)) :
  Forall (fun e => is_Some (sdk_address_arg (member_address e)) /\ is_Some (sdk_biguint_arg (weight e)))
    (concat batches) ->
  exists argss, Forall2 (fun b args => encode_entries b = Ok args) batches argss.
Proof.
  induction batches as [|b bs IH]; intros Hall; [by exists []|].
  rewrite concat_cons, Forall_app in Hall. destruct Hall as [Hb Hbs].
  destruct (encode_entries_ok b Hb) as [args Hargs]. destruct (IH Hbs) as [argss Hargss].
  exists (args :: argss). by constructor.
Qed.

(** The pairs of consecutive calls, read together, register the entries
    of consecutive batches. *)
Lemma decoded_calls_concat (txs : list Transaction) (batches : list (list SnapshotMember)) :
  Forall2 (fun tx b => exists ps, decode_call (tx_data tx) = Some ("registerMembersSnapshotBatch", ps)
                                  /\ Forall2 registers ps b) txs batches ->
  exists pss, Forall2 (fun tx ps => decode_call (tx_data tx) = Some ("registerMembersSnapshotBatch", ps))
                txs pss /\ Forall2 registers (concat pss) (concat batches).
Proof.
  induction 1 as [|tx b txs bs [ps [Hd Hps]] _ [pss [Hpss Hreg]]]; [by exists []; split; constructor|].
  exists (ps :: pss). split; [by constructor|]. cbn. by apply Forall2_app.
Qed.
End Sent.

Section Failures.
Context `{!Sdk} (w : World) (signer : UserSigner) (scAddress : jsval)
  (nc : NetworkConfig) (r : string).
Hypothesis Hnc : w_network_config w = Some nc.
Hypothesis Hr : sdk_new_address scAddress = Some r.
Hypothesis Hsend : forall tx, w_send_ok w tx = true.

(** When batch [j] is the first that does not encode, the loop has sent
    exactly the [j] batches before it and rejects with that batch's
    exception. *)
Lemma register_batches_stop (batches : list (list SnapshotMember)) (j : nat) (b : list SnapshotMember)
    (ex : Exn) :
  (forall i c, (i < j)%nat -> batches !! i = Some c -> exists args, encode_entries c = Ok args) ->
  batches !! j = Some b -> encode_entries b = Thrown ex ->
  forall k fuel (i : nat) (account : Account),
  (i + k)%nat = j -> (length batches - i < fuel)%nat ->
  outcome_of (register_batches fuel batches (Z.of_nat i) account signer scAddress) w = Thrown ex /\
  length (sends (trace_of (register_batches fuel batches (Z.of_nat i) account signer scAddress) w)) = k.
Proof.
  intros Hok Hb Hex. pose proof (lookup_lt_Some _ _ _ Hb) as Hj.
  induction k as [|k IH]; intros [|fuel] i account Hi Hf; try lia; cbn [register_batches];
    (destruct (Z.ltb_spec (Z.of_nat i) (Z.of_nat (length batches))); [|lia]);
    unfold log; run_simpl; rewrite js_index_nonneg, Nat2Z.id by lia.
  - replace i with j by lia. rewrite Hb. run_simpl.
    assert (Hrun := register_failure_run w account signer scAddress b nc ex Hnc Hex).
    rewrite (outcome_of_run _ _ _ _ Hrun), (trace_of_run _ _ _ _ Hrun). run_simpl. done.
  - destruct (lookup_lt_is_Some_2 batches i) as [c Hc]; [lia|]. rewrite Hc. run_simpl.
    destruct (Hok i c) as [args Hargs]; [lia | done |].
    assert (Hrun := register_run w account signer scAddress c nc r args Hnc Hargs Hr (Hsend _)).
    rewrite (outcome_of_run _ _ _ _ Hrun), (trace_of_run _ _ _ _ Hrun). run_simpl.
    replace (Z.of_nat i + 1) with (Z.of_nat (S i)) by lia.
    destruct (IH fuel (S i) (mkAccount (account_address account) (account_nonce account + 1)))
      as [Ho Hs]; [lia | lia |].
    split; [done|]. rewrite !sends_app, !length_app, Hs. done.
Qed.
End Failures.

(** ** Every run of the batch loop *)

(** A well-formed contract call: no value, a gas limit within the block's
    maximum, a signature, and data that is the function
    [registerMembersSnapshotBatch] followed by hex arguments, two per
    member. *)
Definition tx_wf (tx : Transaction) : Prop :=
  tx_value tx = 0 /\ (tx_gasLimit tx <= MaxBlockGasLimit) /\ is_Some (tx_signature tx) /\
  exists args, split_args (tx_data tx) = "registerMembersSnapshotBatch" :: args /\
               Forall hex_string args /\ Nat.Even (length args).

Definition sent_wf (e : Event) : Prop := match e with ESend tx => tx_wf tx | _ => True end.

Lemma Forall_sent_wf_sends (t : list Event) : Forall sent_wf t -> Forall tx_wf (sends t).
Proof. induction 1 as [|[] t Hx _ IH]; cbn; try constructor; done. Qed.

Section EveryRun.
Context `{!Sdk}.

Lemma encode_entries_hex (entries : list SnapshotMember) args :
  encode_entries entries = Ok args -> Forall hex_string args /\ length args = (2 * length entries)%nat.
Proof.
  revert args. induction entries as [|e es IH]; intros args; cbn; [by intros [= <-]|].
  destruct (sdk_address_arg _) as [a|] eqn:Ha; [|done].
  destruct (sdk_biguint_arg _) as [v|] eqn:Hv; [|done].
  destruct (encode_entries es) as [rest|]; [|done]. intros [= <-].
  destruct (IH rest eq_refl) as [Hh Hl]. split; [|cbn; lia].
  repeat constructor; [eapply sdk_address_arg_hex, Ha | eapply sdk_biguint_arg_hex, Hv | done].
Qed.

Lemma batch_tx_wf (signer : UserSigner) (nc : NetworkConfig) (r sender : string) (k : Z)
    (entries : list SnapshotMember) args :
  encode_entries entries = Ok args -> tx_wf (batch_tx signer nc r sender k args).
Proof.
  intros Henc. destruct (encode_entries_hex _ _ Henc) as [Hh Hl].
  split_and!; [done | apply Z.le_min_l | by eexists |].
  exists args. split_and!; [| done | exists (length entries); lia].
  apply split_args_build; [repeat constructor; discriminate | by eapply encode_entries_no_at].
Qed.

Lemma every_getNetworkConfig (P : Event -> Prop) : P EGetNetworkConfig -> every P getNetworkConfig.
Proof. intros Hp. unfold getNetworkConfig. eauto with traces. Qed.

Lemma every_sendTransaction (P : Event -> Prop) tx : P (ESend tx) -> every P (sendTransaction tx).
Proof. intros Hp. unfold sendTransaction. eauto with traces. Qed.

Lemma every_build_payload (P : Event -> Prop) entries : every P (build_payload entries).
Proof. intros w. rewrite build_payload_trace. constructor. Qed.

Lemma every_registerSnapshotInContract (P : Event -> Prop) account signer scAddress entries :
  P EGetNetworkConfig -> (forall tx, P (ESend tx)) ->
  every P (registerSnapshotInContract account signer scAddress entries).
Proof.
  intros Hn Hs. unfold registerSnapshotInContract, getNonceThenIncrement.
  eauto 10 using every_getNetworkConfig, every_build_payload, every_sendTransaction with traces.
Qed.

(** The transaction a batch sends is well formed, whatever the world
    answers. *)
Lemma registerSnapshotInContract_wf account signer scAddress entries :
  every sent_wf (registerSnapshotInContract account signer scAddress entries).
Proof.
  unfold registerSnapshotInContract, getNonceThenIncrement.
  apply every_bind; [by apply every_getNetworkConfig|]. intros nc.
  apply every_bind_ok; [apply every_build_payload|]. intros w payload Hp.
  rewrite build_payload_outcome in Hp.
  destruct (encode_entries entries) as [args|] eqn:Henc; [|done]. injection Hp as <-.
  revert w. match goal with |- forall w, Forall _ (trace_of ?m w) => change (every sent_wf m) end.
  apply every_bind; [apply every_lift_option|]. intros r.
  apply every_bind; [|eauto with traces]. apply every_sendTransaction.
  exact (batch_tx_wf signer nc r (account_address account) (account_nonce account) entries args Henc).
Qed.

(** The batch loop causes only the events of its batches, its console
    lines and its pauses. *)
Lemma register_batches_every (P : Event -> Prop) signer scAddress :
  (forall account chunk, every P (registerSnapshotInContract account signer scAddress chunk)) ->
  (forall i n, P (ELog (LogBatch i n))) -> P (ESleep 500) ->
  forall fuel batches i account, every P (register_batches fuel batches i account signer scAddress).
Proof.
  intros Hr Hl Hs. induction fuel as [|fuel IH]; intros batches i account; cbn [register_batches];
    [eauto with traces|].
  apply every_if; [|eauto with traces].
  apply every_bind; [eauto with traces|]. intros chunk.
  apply every_bind; [eauto with traces|]. intros _.
  apply every_bind; [apply Hr|]. intros [account' tx]. eauto with traces.
Qed.
(** The exceptions of a batch's encoding. *)
Lemma encode_entries_exn (entries : list SnapshotMember) (ex : Exn) :
  encode_entries entries = Thrown ex -> ex = InvalidArgument "address" \/ ex = InvalidArgument "biguint".
Proof.
  induction entries as [|e es IH]; cbn; [done|].
  destruct (sdk_address_arg _); [|intros [= <-]; by left].
  destruct (sdk_biguint_arg _); [|intros [= <-]; by right].
  destruct (encode_entries es); [done | exact IH].
Qed.

Lemma build_payload_throws_only (E : Exn -> Prop) entries :
  E (InvalidArgument "address") -> E (InvalidArgument "biguint") -> throws_only E (build_payload entries).
Proof.
  intros Ha Hb w ex. rewrite build_payload_outcome.
  destruct (encode_entries entries) eqn:He; [done|]. intros [= <-].
  by destruct (encode_entries_exn _ _ He) as [-> | ->].
Qed.

Lemma registerSnapshotInContract_throws_only (E : Exn -> Prop) account signer scAddress entries :
  E (RequestFailed "network config") -> (forall what, E (InvalidArgument what)) ->
  (forall tx, E (SendFailed tx)) ->
  throws_only E (registerSnapshotInContract account signer scAddress entries).
Proof.
  intros Hn Hi Hs. unfold registerSnapshotInContract, getNonceThenIncrement, getNetworkConfig, sendTransaction.
  eauto 20 using build_payload_throws_only with traces.
Qed.

Lemma register_batches_throws_only (E : Exn -> Prop) signer scAddress :
  (forall account chunk, throws_only E (registerSnapshotInContract account signer scAddress chunk)) ->
  E TypeErrorUndefined ->
  forall fuel batches i account, throws_only E (register_batches fuel batches i account signer scAddress).
Proof.
  intros Hr Ht. induction fuel as [|fuel IH]; intros batches i account; cbn [register_batches];
    [eauto with traces|].
  apply throws_only_if; [|eauto with traces].
  apply throws_only_bind; [eauto with traces|]. intros chunk.
  apply throws_only_bind; [eauto with traces|]. intros _.
  apply throws_only_bind; [apply Hr|]. intros [account' tx]. eauto with traces.
Qed.

(** With more iterations of fuel than batches left, more fuel changes
    nothing: the guard [i < batches.length] ends the loop first. *)
Lemma register_batches_fuel_mono signer scAddress :
  forall fuel1 fuel2 batches i account w,
  (Z.to_nat (Z.of_nat (length batches) - i) < fuel1)%nat -> (fuel1 <= fuel2)%nat ->
  register_batches fuel1 batches i account signer scAddress w
  = register_batches fuel2 batches i account signer scAddress w.
Proof.
  induction fuel1 as [|f1 IH]; intros [|f2] batches i account w Hi Hf; cbn [register_batches]; try lia.
  destruct (i <? Z.of_nat (length batches)) eqn:Hg; [|done]. apply Z.ltb_lt in Hg.
  apply run_bind_ext. intros chunk. apply run_bind_ext. intros _.
  apply run_bind_ext. intros [account' tx]. apply run_bind_ext. intros _. apply IH; lia.
Qed.
(** One batch: cool before; hot after its broadcast. *)
Lemma registerSnapshotInContract_paces account signer scAddress entries :
  paces is_send false true (registerSnapshotInContract account signer scAddress entries).
Proof.
  unfold registerSnapshotInContract.
  apply paces_bind with (h2 := false); [apply paces_of_every, every_getNetworkConfig; reflexivity|]. intros nc.
  apply paces_bind with (h2 := false); [apply paces_of_every, every_build_payload|]. intros payload.
  apply paces_bind with (h2 := false); [apply paces_lift_option|]. intros r.
  unfold getNonceThenIncrement. cbv beta iota zeta.
  apply paces_bind with (h2 := true); [|intros; apply paces_ret].
  unfold sendTransaction. apply paces_bind with (h2 := true); [eauto with traces|]. intros _.
  eauto with traces.
Qed.

(** The batch loop pauses after each broadcast. *)
Lemma register_batches_paces signer scAddress :
  forall fuel batches i account, paces is_send false false (register_batches fuel batches i account signer scAddress).
Proof.
  induction fuel as [|fuel IH]; intros batches i account; cbn [register_batches]; [apply paces_ret|].
  apply paces_if; [|apply paces_ret].
  apply paces_bind with (h2 := false); [apply paces_lift_option|]. intros chunk.
  apply paces_bind with (h2 := false); [eauto with traces|]. intros _.
  apply paces_bind with (h2 := true); [apply registerSnapshotInContract_paces|]. intros [account' tx].
  apply paces_bind with (h2 := false); [eauto with traces|]. intros _. apply IH.
Qed.
End EveryRun.

#[export] Hint Resolve registerSnapshotInContract_wf every_registerSnapshotInContract register_batches_every
  registerSnapshotInContract_throws_only register_batches_throws_only : traces.
#[export] Hint Extern 1 (sent_wf _) => exact I : traces.

(** ** A test implementation of the interface

    Used by the witnesses only: addresses are given as their 64 hex
    digits, amounts are written in decimal (decimal digits are hex digits,
    so the laws hold).  The theorems above hold for every implementation
    of [Sdk]. *)

Definition test_address_arg (a : string) : option string :=
  if forallb is_hex_digit (String.list_ascii_of_string a) && (String.length a =? 64)%nat
  then Some a else None.

Definition test_biguint_arg (v : BigNumberValue) : option string :=
  match bignumber_of_value v with
  | XFin q => if (Qden q =? 1)%positive && (0 <=? Qnum q) then Some (pretty (Qnum q)) else None
  | _ => None
  end.

Definition test_decode_biguint (h : string) : option Z :=
  match span_digits 10 0 0 h with (v, S _, EmptyString) => Some v | _ => None end.

Lemma test_address_arg_spec a h :
  test_address_arg a = Some h -> h = a /\ hex_string h /\ String.length h = 64%nat.
Proof.
  unfold test_address_arg. destruct (forallb _ _ && _) eqn:E; [|done]. intros [= <-].
  apply andb_prop in E as [Hall Hlen]. apply Nat.eqb_eq in Hlen. split_and!; [done| |done].
  apply Forall_forall. intros c Hc. apply forallb_forall with (x := c) in Hall; [done|].
  by apply list_elem_of_In.
Qed.

Lemma test_biguint_arg_spec v h :
  test_biguint_arg v = Some h ->
  exists n, bignumber_of_value v = XFin (inject_Z (Z.of_N n)) /\ h = pretty (Z.of_N n).
Proof.
  unfold test_biguint_arg. destruct (bignumber_of_value v) as [| |[num den]]; try done.
  cbn [Qden Qnum]. destruct ((den =? 1)%positive && (0 <=? num)) eqn:E; [|done].
  apply andb_prop in E as [Hden Hnum]. apply Pos.eqb_eq in Hden. apply Z.leb_le in Hnum.
  subst den. intros [= <-]. exists (Z.to_N num). rewrite Z2N.id by done. done.
Qed.

Lemma test_sdk_biguint_hex v h : test_biguint_arg v = Some h -> hex_string h.
Proof.
  intros (n & _ & ->)%test_biguint_arg_spec. destruct (span_pretty_N n) as [k Hk].
  apply span_digits_all in Hk. eapply Forall_impl; [exact Hk|]. intros c Hc.
  unfold is_hex_digit. apply bool_decide_eq_true. by apply (digit_in_base_mono 10 16).
Qed.

Lemma test_sdk_biguint_roundtrip v h :
  test_biguint_arg v = Some h ->
  exists n, bignumber_of_value v = XFin (inject_Z n) /\ test_decode_biguint h = Some n.
Proof.
  intros (n & Hv & ->)%test_biguint_arg_spec. exists (Z.of_N n). split; [done|].
  unfold test_decode_biguint. destruct (span_pretty_N n) as [k ->]. done.
Qed.

Definition test_sdk : Sdk := {|
  sdk_address_arg := test_address_arg;
  sdk_biguint_arg := test_biguint_arg;
  sdk_new_address v := match v with JString s => Some s | _ => None end;
  sdk_serialize tx := tx_data tx;
  sdk_decode_address h := Some h;
  sdk_decode_biguint := test_decode_biguint;
  sdk_address_arg_hex a h H := proj1 (proj2 (test_address_arg_spec a h H));
  sdk_address_arg_length a h H := proj2 (proj2 (test_address_arg_spec a h H));
  sdk_biguint_arg_hex := test_sdk_biguint_hex;
  sdk_address_roundtrip a h H := f_equal Some (proj1 (test_address_arg_spec a h H));
  sdk_biguint_roundtrip := test_sdk_biguint_roundtrip
|}.

(** ** Properties of the submitter *)

Lemma zip_with_batch_tx_registers `{!Sdk} (signer : UserSigner) (nc : NetworkConfig) (r sender : string)
    (batches : list (list SnapshotMember)) (argss : list (list string)) :
  Forall2 (fun b args => encode_entries b = Ok args) batches argss ->
  forall ks : list Z, length ks = length argss ->
  Forall2 (fun tx b => exists ps, decode_call (tx_data tx) = Some ("registerMembersSnapshotBatch", ps)
                                  /\ Forall2 registers ps b)
    (zip_with (batch_tx signer nc r sender) ks argss) batches.
Proof.
  induction 1 as [|b args batches argss Hb Hrest IH]; intros [|k ks] Hl; simpl in *; try lia.
  - constructor.
  - constructor; [by apply batch_call_decodes | apply IH; lia].
Qed.

(** C7: nonces.  When every batch encodes and every broadcast succeeds,
    the batch loop sends one transaction per batch, in order, with the
    consecutive nonces [n, n+1, ...] starting at the account's nonce: no
    two transactions of a run share a nonce. *)
Theorem register_batches_nonces `{!Sdk} (w : World) (signer : UserSigner) (scAddress : jsval)
    (nc : NetworkConfig) (r : string) (batches : list (list SnapshotMember))
    (argss : list (list string)) (account : Account) :
  w_network_config w = Some nc -> sdk_new_address scAddress = Some r ->
  (forall tx, w_send_ok w tx = true) ->
  Forall2 (fun b args => encode_entries b = Ok args) batches argss ->
  tx_nonce <$> sends (trace_of (register_batches (S (length batches)) batches 0 account signer scAddress) w)
  = seqZ (account_nonce account) (Z.of_nat (length batches)).
Proof.
  intros Hnc Hr Hsend Hargs. pose proof (Forall2_length _ _ _ Hargs) as Hlen.
  destruct (register_batches_run w signer scAddress nc r Hnc Hr Hsend batches argss Hargs
              (length batches) (S (length batches)) 0 account) as [_ Hs]; [lia | lia |].
  change (Z.of_nat 0) with 0 in Hs. rewrite Hs, drop_0.
  apply zip_with_batch_tx_nonces. rewrite length_seqZ. lia.
Qed.

(** C6: every batch is registered.  Under the same conditions, the data
    of the [i]-th transaction decodes, on the contract's side, to the call
    [registerMembersSnapshotBatch] with one (address, amount) pair per
    member of the [i]-th batch, in order: the address and the integer
    value of the weight. *)
Theorem register_batches_registers `{!Sdk} (w : World) (signer : UserSigner) (scAddress : jsval)
    (nc : NetworkConfig) (r : string) (batches : list (list SnapshotMember))
    (argss : list (list string)) (account : Account) :
  w_network_config w = Some nc -> sdk_new_address scAddress = Some r ->
  (forall tx, w_send_ok w tx = true) ->
  Forall2 (fun b args => encode_entries b = Ok args) batches argss ->
  Forall2 (fun tx b => exists ps, decode_call (tx_data tx) = Some ("registerMembersSnapshotBatch", ps)
                                  /\ Forall2 registers ps b)
    (sends (trace_of (register_batches (S (length batches)) batches 0 account signer scAddress) w))
    batches.
Proof.
  intros Hnc Hr Hsend Hargs. pose proof (Forall2_length _ _ _ Hargs) as Hlen.
  destruct (register_batches_run w signer scAddress nc r Hnc Hr Hsend batches argss Hargs
              (length batches) (S (length batches)) 0 account) as [_ Hs]; [lia | lia |].
  change (Z.of_nat 0) with 0 in Hs. rewrite Hs, drop_0.
  apply zip_with_batch_tx_registers; [done|]. rewrite length_seqZ. lia.
Qed.

(** C27: a batch of 439 members or more (every full batch of 500) is sent
    with the block's maximum gas limit, whatever the per-byte price: its
    data has at least 28 + 66 * 439 bytes, and 20,000 gas per byte alone
    reaches the cap. *)
Theorem full_batch_gas_capped `{!Sdk} (signer : UserSigner) (nc : NetworkConfig) (r sender : string)
    (k : Z) (entries : list SnapshotMember) (args : list string) :
  (439 <= length entries)%nat -> 0 <= GasPerDataByte nc -> encode_entries entries = Ok args ->
  tx_gasLimit (batch_tx signer nc r sender k args) = MaxBlockGasLimit.
Proof.
  intros Hn Hg Henc. unfold batch_tx, setNonce, applySignature. cbn [tx_gasLimit].
  rewrite build_length. pose proof (encode_entries_length _ _ Henc) as Hl.
  unfold computedGasLimit, MaxBlockGasLimit. cbn [String.length].
  apply Z.min_l.
  assert (29000 <= Z.of_nat (28 + foldr (fun a n => S (String.length a + n)) 0%nat args)) by lia.
  nia.
Qed.

(** C28: no rollback.  When batch [j] is the first batch that does not
    encode (an invalid address or weight), the run has already broadcast
    the [j] batches before it, and then rejects with that exception. *)
Theorem register_batches_partial_failure `{!Sdk} (w : World) (signer : UserSigner) (scAddress : jsval)
    (nc : NetworkConfig) (r : string) (batches : list (list SnapshotMember)) (j : nat)
    (b : list SnapshotMember) (ex : Exn) (account : Account) :
  w_network_config w = Some nc -> sdk_new_address scAddress = Some r ->
  (forall tx, w_send_ok w tx = true) ->
  (forall i c, (i < j)%nat -> batches !! i = Some c -> exists args, encode_entries c = Ok args) ->
  batches !! j = Some b -> encode_entries b = Thrown ex ->
  outcome_of (register_batches (S (length batches)) batches 0 account signer scAddress) w = Thrown ex /\
  length (sends (trace_of (register_batches (S (length batches)) batches 0 account signer scAddress) w)) = j.
Proof.
  intros Hnc Hr Hsend Hok Hb Hex.
  exact (register_batches_stop w signer scAddress nc r Hnc Hr Hsend batches j b ex Hok Hb Hex
           j (S (length batches)) 0 account ltac:(lia) ltac:(lia)).
Qed.

(** C21: the fuel of the batch loop is enough.  With one iteration more
    than there are batches, [register_batches] behaves as with any larger
    fuel: the guard [i < batches.length] always ends the [for] loop
    first. *)
Theorem register_batches_fuel_sufficient `{!Sdk} (batches : list (list SnapshotMember)) (account : Account)
    (signer : UserSigner) (scAddress : jsval) (fuel : nat) (w : World) :
  (S (length batches) <= fuel)%nat ->
  register_batches fuel batches 0 account signer scAddress w
  = register_batches (S (length batches)) batches 0 account signer scAddress w.
Proof. intros Hf. symmetry. apply register_batches_fuel_mono; lia. Qed.

(** ** A concrete run of the batch loop *)

Definition hex64 (c : ascii) : string := String.string_of_list_ascii (replicate 64 c).

Definition ex_member_a : SnapshotMember := mkMember (hex64 "a") (BVString "5").
Definition ex_member_b : SnapshotMember := mkMember (hex64 "b") (BVString "7").
Definition ex_member_bad : SnapshotMember := mkMember "erd1bad" (BVString "1").

Definition ex_submit_world : World :=
  mkWorld [] None None (fun _ => None) (fun _ => None) (fun _ => Some 7)
    (Some (mkNetworkConfig 1500 "D")) (fun _ => true).

Definition ex_signer : UserSigner := mkUserSigner "erd1admin" (fun s => s).

Lemma register_batches_nonces_witness :
  @encode_entries test_sdk [ex_member_a] = Ok [hex64 "a"; "5"] /\
  @encode_entries test_sdk [ex_member_b] = Ok [hex64 "b"; "7"] /\
  tx_nonce <$> sends (trace_of (@register_batches test_sdk 3 [[ex_member_a]; [ex_member_b]] 0
                                 (mkAccount "erd1admin" 7) ex_signer (JString "erd1sc")) ex_submit_world)
  = seqZ 7 2.
Proof.
  split; [vm_compute; reflexivity|]. split; [vm_compute; reflexivity|].
  apply (@register_batches_nonces test_sdk ex_submit_world ex_signer (JString "erd1sc")
           (mkNetworkConfig 1500 "D") "erd1sc" [[ex_member_a]; [ex_member_b]]
           [[hex64 "a"; "5"]; [hex64 "b"; "7"]] (mkAccount "erd1admin" 7));
    [reflexivity | reflexivity | reflexivity |].
  repeat constructor; vm_compute; reflexivity.
Defined.

Lemma register_batches_registers_witness :
  Forall2 (fun tx b => exists ps, @decode_call test_sdk (tx_data tx) = Some ("registerMembersSnapshotBatch", ps)
                                  /\ Forall2 registers ps b)
    (sends (trace_of (@register_batches test_sdk 3 [[ex_member_a]; [ex_member_b]] 0
                        (mkAccount "erd1admin" 7) ex_signer (JString "erd1sc")) ex_submit_world))
    [[ex_member_a]; [ex_member_b]].
Proof.
  apply (@register_batches_registers test_sdk ex_submit_world ex_signer (JString "erd1sc")
           (mkNetworkConfig 1500 "D") "erd1sc" [[ex_member_a]; [ex_member_b]]
           [[hex64 "a"; "5"]; [hex64 "b"; "7"]] (mkAccount "erd1admin" 7));
    [reflexivity | reflexivity | reflexivity |].
  repeat constructor; vm_compute; reflexivity.
Defined.

Lemma full_batch_gas_capped_witness :
  @encode_entries test_sdk (replicate 439 ex_member_a)
    = Ok (concat (replicate 439 [hex64 "a"; "5"])) /\
  tx_gasLimit (@batch_tx test_sdk ex_signer (mkNetworkConfig 0 "D") "erd1sc" "erd1admin" 0
                 (concat (replicate 439 [hex64 "a"; "5"]))) = MaxBlockGasLimit.
Proof.
  split; [vm_compute; reflexivity|].
  apply (@full_batch_gas_capped test_sdk ex_signer (mkNetworkConfig 0 "D") "erd1sc" "erd1admin" 0
           (replicate 439 ex_member_a) (concat (replicate 439 [hex64 "a"; "5"])));
    [rewrite length_replicate; lia | cbn; lia | vm_compute; reflexivity].
Defined.

Lemma register_batches_partial_failure_witness :
  outcome_of (@register_batches test_sdk 3 [[ex_member_a]; [ex_member_bad]] 0
                (mkAccount "erd1admin" 7) ex_signer (JString "erd1sc")) ex_submit_world
    = Thrown (InvalidArgument "address") /\
  length (sends (trace_of (@register_batches test_sdk 3 [[ex_member_a]; [ex_member_bad]] 0
                             (mkAccount "erd1admin" 7) ex_signer (JString "erd1sc")) ex_submit_world)) = 1%nat.
Proof.
  apply (@register_batches_partial_failure test_sdk ex_submit_world ex_signer (JString "erd1sc")
           (mkNetworkConfig 1500 "D") "erd1sc" [[ex_member_a]; [ex_member_bad]] 1 [ex_member_bad]
           (InvalidArgument "address") (mkAccount "erd1admin" 7));
    [reflexivity | reflexivity | reflexivity | | reflexivity | vm_compute; reflexivity].
  intros i c Hi Hc. assert (i = 0%nat) as -> by lia. injection Hc as <-.
  eexists. vm_compute. reflexivity.
Defined.

Lemma register_batches_fuel_sufficient_witness :
  (S (length [[ex_member_a]; [ex_member_b]]) <= 10)%nat /\
  @register_batches test_sdk 10 [[ex_member_a]; [ex_member_b]] 0 (mkAccount "erd1admin" 7) ex_signer
    (JString "erd1sc") ex_submit_world
  = @register_batches test_sdk 3 [[ex_member_a]; [ex_member_b]] 0 (mkAccount "erd1admin" 7) ex_signer
      (JString "erd1sc") ex_submit_world.
Proof.
  split; [cbn; lia|].
  apply (@register_batches_fuel_sufficient test_sdk [[ex_member_a]; [ex_member_b]] (mkAccount "erd1admin" 7)
           ex_signer (JString "erd1sc") 10 ex_submit_world).
  cbn; lia.
Defined.
