(* ===== verification/Signing.v ===== *)
(** * Nonces and signatures of the broadcasts (register-snapshot.ts,
      lines 101-110 and 167-171)

    [registerSnapshotInContract] takes the transaction's nonce from the
    shared [Account] ([account.getNonceThenIncrement()]), signs
    [tx.serializeForSigning()] once the nonce is set, and attaches the
    signature.  Every run of the batch loop is checked here by an
    automaton over its trace, [nonce_step]: its state is the next nonce,
    and it accepts a broadcast that carries that nonce, the signer's
    address as sender and the signer's signature of the transaction as
    it was before [applySignature].  The triples are per world
    ([follows_in] of [Traces]), so failing requests, rejected broadcasts
    and batches that do not encode are all covered. *)

From S2P Require Import Prelude JsRuntime Types Script Traces Submitter.

Local Open Scope Z_scope.

(** The transaction [applySignature] received: the same fields, without
    a signature. *)
Definition unsigned (tx : Transaction) : Transaction :=
  mkTransaction (tx_nonce tx) (tx_value tx) (tx_receiver tx) (tx_sender tx) (tx_gasLimit tx)
    (tx_data tx) (tx_chainID tx) None.

Section Signing.
Context `{!Sdk}.

(** Sent from the signer's account and signed by it. *)
Definition signed_by (signer : UserSigner) (tx : Transaction) : Prop :=
  tx_sender tx = signer_address signer /\
  tx_signature tx = Some (signer_sign signer (sdk_serialize (unsigned tx))).

#[global] Instance signed_by_dec (signer : UserSigner) (tx : Transaction) : Decision (signed_by signer tx).
Proof. unfold signed_by. solve_decision. Defined.

(** The automaton: the state is the nonce the next broadcast must carry. *)
Definition nonce_step (signer : UserSigner) (next : Z) (e : Event) : option Z :=
  match e with
  | ESend tx => if bool_decide (tx_nonce tx = next /\ signed_by signer tx) then Some (next + 1) else None
  | _ => Some next
  end.

Lemma nonce_step_quiet (signer : UserSigner) (next : Z) (e : Event) :
  not_send e -> nonce_step signer next e = Some next.
Proof. by destruct e. Qed.

(** What an accepted trace says of its broadcasts. *)
Lemma run_nonce_sends (signer : UserSigner) (t : list Event) :
  forall n n', run_auto (nonce_step signer) n t = Some n' ->
  tx_nonce <$> sends t = seqZ n (Z.of_nat (length (sends t))) /\
  Forall (signed_by signer) (sends t) /\ n' = n + Z.of_nat (length (sends t)).
Proof.
  induction t as [|e t IH]; intros n n' Hrun; cbn in Hrun;
    [injection Hrun as <-; split_and!; [done | constructor | cbn; lia]|].
  destruct e as [| | | | | |tx]; cbn in Hrun; try (apply IH; exact Hrun).
  change (sends (ESend tx :: t)) with (tx :: sends t).
  case_bool_decide as Hok; [|done]. destruct Hok as [Hn Hs]. cbn in Hrun.
  destruct (IH _ _ Hrun) as (Hseq & Hall & ->). rewrite fmap_cons, Hseq, Hn. cbn [length]. split_and!.
  - rewrite (seqZ_cons n) by lia. do 2 f_equal; lia.
  - by constructor.
  - lia.
Qed.

(** A computation that broadcasts nothing keeps the next nonce. *)
Lemma follows_in_not_send {A} (m : M A) signer w n (Q : Z -> A -> Prop) :
  every not_send m -> (forall a, Q n a) -> follows_in (nonce_step signer) w n Q m.
Proof. intros Hm HQ. apply (follows_in_quiet _ _ not_send); [intros; by apply nonce_step_quiet | done | done]. Qed.

(** One batch, in any world: its broadcast, if it gets that far, carries
    the account's nonce and the signer's signature; a normal end returns
    the account with the automaton's next nonce. *)
Lemma registerSnapshotInContract_nonces (w : World) (account : Account) (signer : UserSigner)
    (scAddress : jsval) (entries : list SnapshotMember) :
  account_address account = signer_address signer ->
  follows_in (nonce_step signer) w (account_nonce account)
    (fun n r => fst r = mkAccount (account_address account) n)
    (registerSnapshotInContract account signer scAddress entries).
Proof.
  intros Haddr. unfold registerSnapshotInContract, getNonceThenIncrement.
  apply follows_in_bind with (P := fun n _ => n = account_nonce account).
  { apply follows_in_not_send; [by apply every_getNetworkConfig | done]. }
  intros ? nc ->. apply follows_in_bind with (P := fun n _ => n = account_nonce account).
  { apply follows_in_not_send; [apply every_build_payload | done]. }
  intros ? payload ->. apply follows_in_bind with (P := fun n _ => n = account_nonce account).
  { by apply follows_in_lift_option. }
  intros ? r ->. cbv beta iota zeta.
  apply follows_in_bind with (P := fun n _ => n = account_nonce account + 1); [|intros ? _ ->; by apply follows_in_ret].
  unfold sendTransaction. apply follows_in_bind with (P := fun n _ => n = account_nonce account + 1).
  - eapply follows_in_emit; [|done]. cbn. rewrite bool_decide_true; [done|]. by split.
  - intros ? _ ->. apply follows_in_not_send; [eauto with traces | done].
Qed.

(** The batch loop, in any world, from an account of the signer. *)
Lemma register_batches_nonces_follow (w : World) (signer : UserSigner) (scAddress : jsval) :
  forall fuel batches i account, account_address account = signer_address signer ->
  follows_in (nonce_step signer) w (account_nonce account) (fun _ _ => True)
    (register_batches fuel batches i account signer scAddress).
Proof.
  induction fuel as [|fuel IH]; intros batches i account Haddr; cbn [register_batches];
    [by apply follows_in_ret|].
  apply follows_in_if; [|by apply follows_in_ret].
  apply follows_in_bind with (P := fun n _ => n = account_nonce account); [by apply follows_in_lift_option|].
  intros ? chunk ->. apply follows_in_bind with (P := fun n _ => n = account_nonce account).
  { apply follows_in_not_send; [eauto with traces | done]. }
  intros ? _ ->. eapply follows_in_bind; [by apply registerSnapshotInContract_nonces|].
  intros n [account' tx] Hacc. cbn in Hacc. subst account'.
  repeat (apply follows_in_bind with (P := fun n' _ => n' = n);
            [apply follows_in_not_send; [solve [eauto with traces] | done] | intros ? _ ->]).
  by apply (IH batches (i + 1) (mkAccount (account_address account) n)).
Qed.
End Signing.
