(* ===== verification/BatchRuns.v ===== *)
(** * What any run of the batch loop broadcasts (register-snapshot.ts,
      lines 105-110 and 141-174)

    [planned] is the sequence of transactions the batch loop means to
    send: one [batch_tx] per batch, with consecutive nonces, up to the
    first batch whose members do not encode.  In a world whose network
    configuration and contract address are readable, every run of the
    loop broadcasts exactly the planned transactions up to and including
    the first one the proxy rejects ([accepted_prefix]): a rejected
    broadcast is the last one, and the run then rejects with
    [SendFailed].  The one-iteration equation [register_batches_step]
    carries both inductions. *)

From S2P Require Import Prelude JsRuntime Types Script Traces Submitter.
From Stdlib Require Import Ascii.

Local Open Scope Z_scope.

(** The transactions of [txs] up to and including the first one [ok]
    rejects. *)
Fixpoint accepted_prefix (ok : Transaction -> bool) (txs : list Transaction) : list Transaction :=
  match txs with
  | [] => []
  | tx :: txs' => tx :: (if ok tx then accepted_prefix ok txs' else [])
  end.

Lemma accepted_prefix_prefix (ok : Transaction -> bool) (txs : list Transaction) :
  accepted_prefix ok txs `prefix_of` txs.
Proof.
  induction txs as [|tx txs IH]; cbn; [apply prefix_nil|].
  apply prefix_cons. destruct (ok tx); [done | apply prefix_nil].
Qed.

(** When [txs !! j] is the first transaction [ok] rejects, the accepted
    prefix is [take (S j) txs]. *)
Lemma accepted_prefix_take (ok : Transaction -> bool) (txs : list Transaction) (j : nat) (tx : Transaction) :
  txs !! j = Some tx -> ok tx = false ->
  (forall k tx', (k < j)%nat -> txs !! k = Some tx' -> ok tx' = true) ->
  accepted_prefix ok txs = take (S j) txs.
Proof.
  revert j. induction txs as [|tx0 txs IH]; intros [|j] Hj Hrej Hbefore; [done | done | |]; cbn in Hj |- *.
  - injection Hj as ->. by rewrite Hrej.
  - rewrite (Hbefore 0%nat tx0) by (done || lia). f_equal. apply IH; [done | done |].
    intros k tx' Hk Hk'. apply (Hbefore (S k)); [lia | done].
Qed.

Section Plan.
Context `{!Sdk}.

(** The transactions a run in which every broadcast succeeds sends, from
    the nonce [nonce], up to the first batch that does not encode. *)
Fixpoint planned (signer : UserSigner) (nc : NetworkConfig) (r sender : string) (nonce : Z)
    (batches : list (list SnapshotMember)) : list Transaction :=
  match batches with
  | [] => []
  | b :: bs =>
      match encode_entries b with
      | Ok args => batch_tx signer nc r sender nonce args :: planned signer nc r sender (nonce + 1) bs
      | Thrown _ => []
      end
  end.

(** A batch whose broadcast the proxy rejects: the transaction was sent,
    and the batch rejects with [SendFailed]. *)
Lemma register_rejected_run (w : World) (account : Account) (signer : UserSigner) (scAddress : jsval)
    (entries : list SnapshotMember) (nc : NetworkConfig) (r : string) (args : list string) :
  w_network_config w = Some nc -> encode_entries entries = Ok args ->
  sdk_new_address scAddress = Some r ->
  let tx := batch_tx signer nc r (account_address account) (account_nonce account) args in
  w_send_ok w tx = false ->
  registerSnapshotInContract account signer scAddress entries w = ([EGetNetworkConfig; ESend tx], Thrown (SendFailed tx)).
Proof.
  intros Hnc Henc Hr tx Hko.
  rewrite (surjective_pairing (registerSnapshotInContract _ _ _ _ w)).
  fold (trace_of (registerSnapshotInContract account signer scAddress entries) w).
  fold (outcome_of (registerSnapshotInContract account signer scAddress entries) w).
  unfold registerSnapshotInContract. run_simpl. rewrite Hnc. run_simpl.
  rewrite Henc. run_simpl. rewrite Hr. run_simpl.
  unfold getNonceThenIncrement. cbn [fst snd]. run_simpl.
  unfold tx, batch_tx in Hko. rewrite Hko. run_simpl. done.
Qed.

Section Loop.
Context (w : World) (signer : UserSigner) (scAddress : jsval) (nc : NetworkConfig) (r : string)
  (batches : list (list SnapshotMember)).
Hypothesis Hnc : w_network_config w = Some nc.
Hypothesis Hr : sdk_new_address scAddress = Some r.

(** One iteration of the loop on batch [i], in any world. *)
Lemma register_batches_step (fuel : nat) (i : nat) (account : Account) (c : list SnapshotMember) :
  batches !! i = Some c ->
  let rest := register_batches fuel batches (Z.of_nat (S i))
                (mkAccount (account_address account) (account_nonce account + 1)) signer scAddress in
  let tx args := batch_tx signer nc r (account_address account) (account_nonce account) args in
  let run := register_batches (S fuel) batches (Z.of_nat i) account signer scAddress in
  trace_of run w = [ELog (LogBatch (Z.of_nat i + 1) (Z.of_nat (length batches))); EGetNetworkConfig] ++
    match encode_entries c with
    | Ok args => [ESend (tx args)] ++ if w_send_ok w (tx args) then [ESleep 500] ++ trace_of rest w else []
    | Thrown _ => []
    end /\
  outcome_of run w =
    match encode_entries c with
    | Ok args => if w_send_ok w (tx args) then outcome_of rest w else Thrown (SendFailed (tx args))
    | Thrown ex => Thrown ex
    end.
Proof.
  intros Hc rest tx run. pose proof (lookup_lt_Some _ _ _ Hc) as Hi.
  unfold run. cbn [register_batches].
  destruct (Z.ltb_spec (Z.of_nat i) (Z.of_nat (length batches))); [|lia].
  unfold log. run_simpl. rewrite js_index_nonneg, Nat2Z.id, Hc by lia. run_simpl.
  destruct (encode_entries c) as [args|ex] eqn:Henc.
  - destruct (w_send_ok w (tx args)) eqn:Hok.
    + assert (Hrun := register_run w account signer scAddress c nc r args Hnc Henc Hr Hok).
      rewrite (outcome_of_run _ _ _ _ Hrun), (trace_of_run _ _ _ _ Hrun). run_simpl.
      replace (Z.of_nat i + 1) with (Z.of_nat (S i)) by lia. done.
    + assert (Hrun := register_rejected_run w account signer scAddress c nc r args Hnc Henc Hr Hok).
      rewrite (outcome_of_run _ _ _ _ Hrun), (trace_of_run _ _ _ _ Hrun). run_simpl. done.
  - assert (Hrun := register_failure_run w account signer scAddress c nc ex Hnc Henc).
    rewrite (outcome_of_run _ _ _ _ Hrun), (trace_of_run _ _ _ _ Hrun). run_simpl. done.
Qed.

(** The broadcasts of the loop from batch [i]: the planned transactions
    of the remaining batches up to the first rejected one. *)
Lemma register_batches_sends :
  forall n fuel (i : nat) (account : Account),
  (i + n)%nat = length batches -> (n < fuel)%nat ->
  sends (trace_of (register_batches fuel batches (Z.of_nat i) account signer scAddress) w)
  = accepted_prefix (w_send_ok w) (planned signer nc r (account_address account) (account_nonce account) (drop i batches)).
Proof.
  induction n as [|n IH]; intros [|fuel] i account Hi Hf; try lia.
  - cbn [register_batches]. destruct (Z.ltb_spec (Z.of_nat i) (Z.of_nat (length batches))); [lia|].
    run_simpl. by rewrite drop_ge by lia.
  - destruct (lookup_lt_is_Some_2 batches i) as [c Hc]; [lia|].
    destruct (register_batches_step fuel i account c Hc) as [-> _].
    rewrite (drop_S batches c i Hc). cbn [planned].
    destruct (encode_entries c) as [args|ex]; rewrite !sends_app; [|done]. cbn [accepted_prefix].
    destruct (w_send_ok w _); [|done]. rewrite sends_app, IH by lia. done.
Qed.

(** The outcome of the loop from batch [i] when the planned transaction
    [j] is the first one rejected. *)
Lemma register_batches_rejected :
  forall n fuel (i : nat) (account : Account) (j : nat) (tx : Transaction),
  (i + n)%nat = length batches -> (n < fuel)%nat ->
  let p := planned signer nc r (account_address account) (account_nonce account) (drop i batches) in
  p !! j = Some tx -> w_send_ok w tx = false ->
  (forall k tx', (k < j)%nat -> p !! k = Some tx' -> w_send_ok w tx' = true) ->
  outcome_of (register_batches fuel batches (Z.of_nat i) account signer scAddress) w = Thrown (SendFailed tx).
Proof.
  induction n as [|n IH]; intros [|fuel] i account j tx Hi Hf p Hj Hrej Hbefore; try lia.
  { unfold p in Hj. by rewrite drop_ge in Hj by lia. }
  destruct (lookup_lt_is_Some_2 batches i) as [c Hc]; [lia|].
  destruct (register_batches_step fuel i account c Hc) as [_ ->].
  unfold p in Hj, Hbefore. rewrite (drop_S batches c i Hc) in Hj, Hbefore. cbn [planned] in Hj, Hbefore.
  destruct (encode_entries c) as [args|ex]; [|done].
  destruct j as [|j]; cbn in Hj.
  - injection Hj as <-. by rewrite Hrej.
  - rewrite (Hbefore 0%nat _ ltac:(lia) eq_refl).
    apply (IH fuel (S i) _ j tx); [lia | lia | done | done |].
    intros k tx' Hk Hk'. apply (Hbefore (S k)); [lia | done].
Qed.
End Loop.
End Plan.

(** C29: a rejected broadcast stops the run.  In a world whose network
    configuration and contract address are readable, when the [j]-th
    planned transaction is the first one the proxy rejects, the batch
    loop has broadcast exactly the planned transactions [0 .. j] (the
    rejected one included: it was sent) and rejects with [SendFailed] of
    that transaction; no later batch is attempted and nothing is
    retried. *)
Theorem register_batches_send_rejected `{!Sdk} (w : World) (signer : UserSigner) (scAddress : jsval)
    (nc : NetworkConfig) (r : string) (batches : list (list SnapshotMember)) (account : Account)
    (j : nat) (tx : Transaction) :
  w_network_config w = Some nc -> sdk_new_address scAddress = Some r ->
  let p := planned signer nc r (account_address account) (account_nonce account) batches in
  p !! j = Some tx -> w_send_ok w tx = false ->
  (forall k tx', (k < j)%nat -> p !! k = Some tx' -> w_send_ok w tx' = true) ->
  outcome_of (register_batches (S (length batches)) batches 0 account signer scAddress) w = Thrown (SendFailed tx) /\
  sends (trace_of (register_batches (S (length batches)) batches 0 account signer scAddress) w) = take (S j) p.
Proof.
  intros Hnc Hr p Hj Hrej Hbefore. split.
  - exact (register_batches_rejected w signer scAddress nc r batches Hnc Hr (length batches) (S (length batches)) 0 account j tx
             ltac:(lia) ltac:(lia) Hj Hrej Hbefore).
  - transitivity (accepted_prefix (w_send_ok w) p).
    + exact (register_batches_sends w signer scAddress nc r batches Hnc Hr (length batches) (S (length batches)) 0
               account ltac:(lia) ltac:(lia)).
    + exact (accepted_prefix_take _ _ j tx Hj Hrej Hbefore).
Qed.

(** ** A run whose second broadcast is rejected *)

Definition ex_reject_world : World :=
  mkWorld [] None None (fun _ => None) (fun _ => None) (fun _ => Some 7)
    (Some (mkNetworkConfig 1500 "D")) (fun tx => tx_nonce tx =? 7).

Definition ex_rejected_tx : Transaction :=
  @batch_tx test_sdk ex_signer (mkNetworkConfig 1500 "D") "erd1sc" "erd1admin" 8 [hex64 "b"%char; "7"].

Lemma register_batches_send_rejected_witness :
  let p := @planned test_sdk ex_signer (mkNetworkConfig 1500 "D") "erd1sc" "erd1admin" 7
             [[ex_member_a]; [ex_member_b]] in
  let run := @register_batches test_sdk 3 [[ex_member_a]; [ex_member_b]] 0 (mkAccount "erd1admin" 7) ex_signer
               (JString "erd1sc") in
  p !! 1%nat = Some ex_rejected_tx /\ w_send_ok ex_reject_world ex_rejected_tx = false /\
  outcome_of run ex_reject_world = Thrown (SendFailed ex_rejected_tx) /\
  sends (trace_of run ex_reject_world) = take 2 p.
Proof.
  intros p run. assert (Hj : p !! 1%nat = Some ex_rejected_tx) by (vm_compute; reflexivity).
  assert (Hk : w_send_ok ex_reject_world ex_rejected_tx = false) by (vm_compute; reflexivity).
  split; [exact Hj|]. split; [exact Hk|].
  apply (@register_batches_send_rejected test_sdk ex_reject_world ex_signer (JString "erd1sc")
           (mkNetworkConfig 1500 "D") "erd1sc" [[ex_member_a]; [ex_member_b]] (mkAccount "erd1admin" 7)
           1 ex_rejected_tx); [reflexivity | reflexivity | exact Hj | exact Hk |].
  intros k tx' Hk' Htx. assert (k = 0%nat) as -> by lia. vm_compute in Htx. injection Htx as <-.
  vm_compute. reflexivity.
Defined.
