(* ===== verification/Main.v ===== *)
(** * [main] (register-snapshot.ts, lines 21-113, 133-139 and 176)

    [main] composes the parts: it reads the configuration ([Config]),
    returns early on an invalid one, asks the token's decimals, runs the
    token pass and the SFT pass ([Scanner]) on one [ScanState], cuts the
    members into batches of 500 ([Helpers.chunkArray]), loads the admin
    signer, reads the account's nonce once, and runs the batch loop
    ([Submitter]).  The theorems follow one run from the configuration to
    the transactions the contract receives and the lines it prints, and
    state what holds of every run whatever the world answers: ordering of
    requests and broadcasts, well-formed and paced broadcasts, the single
    read of the account before any broadcast, the nonces and signatures
    of the broadcasts (automata over the trace, [Traces.follows_in]), the
    exceptions, the exit status and the error paths. *)

From S2P Require Import Prelude JsRuntime Types Script Traces Pacing Helpers Scanner Config Submitter Signing BatchRuns.
From Stdlib Require Import Ascii.

Local Open Scope Z_scope.
Local Set Warnings "-clear-no-such-hyp".

(** [apiProvider.getDefinitionOfFungibleToken(tokenId)], of which the
    script reads [decimals]. *)
Definition getDefinitionOfFungibleToken (tokenId : string) : M Z :=
  emit (EGetTokenDefinition tokenId) ;;
  w ← ask;
  lift_option (RequestFailed ("tokens/" +:+ tokenId)) (w_token_decimals w tokenId).

(** [getAdminSigner()]: read [wallets/admin.pem], [UserSigner.fromPem]. *)
Definition getAdminSigner : M UserSigner :=
  w ← ask;
  lift_option PemReadFailed (w_admin_signer w).

(** [apiProvider.getAccount(address)], of which [account.update] keeps the
    nonce. *)
Definition getAccount (addr : string) : M Z :=
  emit (EGetAccount addr) ;;
  w ← ask;
  lift_option (RequestFailed ("accounts/" +:+ addr)) (w_account_nonce w addr).

(** The string a template literal makes of a configuration value. *)
Definition template_string (v : jsval) : M string :=
  lift_option (NotModelled "template literal") (js_to_string v).

Section Main.
Context `{!Sdk}.

Definition main : M unit :=
  w ← ask;
  let env := getArg (w_argv w) 0 in
  mxpyConfig ← loadMxpyConfig;
  cfg ← read_config mxpyConfig env;
  if negb (config_ok env cfg) then log (LogInvalidConfig env) else
  tokenId ← template_string (itheumTokenId cfg);
  decimals ← getDefinitionOfFungibleToken tokenId;
  log (LogScanTokens (itheumMinHoldAmount cfg)) ;;
  st ← scanTokenHolders tokenId decimals (itheumMinHoldAmount cfg) initial_scan_state;
  log LogTokensDone ;;
  log LogScanSft ;;
  nftId ← template_string (trailblazerNftId cfg);
  st ← scanSftHolders nftId st;
  log (LogIncluded (Z.of_nat (length (members st)))) ;;
  log LogRegistering ;;
  batches ← lift_option OutOfFuel (chunkArray (S (length (members st))) (members st) 500);
  signer ← getAdminSigner;
  let account := new_account (signer_address signer) in
  nonce ← getAccount (account_address account);
  let account := account_update account nonce in
  _ ← register_batches (S (length batches)) batches 0 account signer (scAddress cfg);
  log (LogDone (Z.of_nat (length (members st)))).
End Main.

(** [main()] at the top level (line 176): the promise is neither awaited
    nor given a [catch], so a rejection is unhandled and Node.js (15 and
    later) ends the process with exit status 1; a normal return ends it
    with status 0. *)
Definition exit_status (o : Outcome unit) : Z := match o with Ok _ => 0 | Thrown _ => 1 end.

(** ** The steps of [main] *)

Lemma outcome_of_getDefinitionOfFungibleToken (tokenId : string) (w : World) :
  outcome_of (getDefinitionOfFungibleToken tokenId) w =
  match w_token_decimals w tokenId with Some d => Ok d | None => Thrown (RequestFailed ("tokens/" +:+ tokenId)) end.
Proof. unfold getDefinitionOfFungibleToken. run_simpl. by destruct (w_token_decimals w tokenId). Qed.

Lemma trace_of_getDefinitionOfFungibleToken (tokenId : string) (w : World) :
  trace_of (getDefinitionOfFungibleToken tokenId) w = [EGetTokenDefinition tokenId].
Proof. unfold getDefinitionOfFungibleToken. run_simpl. by destruct (w_token_decimals w tokenId). Qed.

Lemma outcome_of_getAdminSigner (w : World) :
  outcome_of getAdminSigner w = match w_admin_signer w with Some s => Ok s | None => Thrown PemReadFailed end.
Proof. unfold getAdminSigner. run_simpl. by destruct (w_admin_signer w). Qed.

Lemma trace_of_getAdminSigner (w : World) : trace_of getAdminSigner w = [].
Proof. unfold getAdminSigner. run_simpl. by destruct (w_admin_signer w). Qed.

Lemma outcome_of_getAccount (addr : string) (w : World) :
  outcome_of (getAccount addr) w =
  match w_account_nonce w addr with Some n => Ok n | None => Thrown (RequestFailed ("accounts/" +:+ addr)) end.
Proof. unfold getAccount. run_simpl. by destruct (w_account_nonce w addr). Qed.

Lemma trace_of_getAccount (addr : string) (w : World) : trace_of (getAccount addr) w = [EGetAccount addr].
Proof. unfold getAccount. run_simpl. by destruct (w_account_nonce w addr). Qed.

Lemma outcome_of_template_string (v : jsval) (w : World) :
  outcome_of (template_string v) w =
  match js_to_string v with Some s => Ok s | None => Thrown (NotModelled "template literal") end.
Proof. unfold template_string. run_simpl. by destruct (js_to_string v). Qed.

Lemma trace_of_template_string (v : jsval) (w : World) : trace_of (template_string v) w = [].
Proof. unfold template_string. run_simpl. done. Qed.

#[export] Hint Rewrite outcome_of_getDefinitionOfFungibleToken trace_of_getDefinitionOfFungibleToken
  outcome_of_getAdminSigner trace_of_getAdminSigner outcome_of_getAccount trace_of_getAccount
  outcome_of_template_string trace_of_template_string : snap_rw.

(** Step through [main]: rewrite with the hypothesis that gives the
    world's next answer, then compute the binds it unblocks. *)
Ltac step H := rewrite H; cbn [negb account_address new_account]; run_simpl.

(** Up to the guard of line 31, for a configuration read as [cfg]. *)
Ltac enter_main Hc Hcfg := unfold main; run_simpl; step Hc; step Hcfg.

(** ** Every run of [main] *)

Section EveryStep.
Context (P : Event -> Prop).

Lemma every_loadMxpyConfig : every P loadMxpyConfig.
Proof. unfold loadMxpyConfig. eauto with traces. Qed.

Lemma every_read_config json env : every P (read_config json env).
Proof. intros w. rewrite trace_of_read_config. constructor. Qed.

Lemma every_getDefinitionOfFungibleToken t :
  P (EGetTokenDefinition t) -> every P (getDefinitionOfFungibleToken t).
Proof. intros Hp. unfold getDefinitionOfFungibleToken. eauto with traces. Qed.

Lemma every_getAdminSigner : every P getAdminSigner.
Proof. unfold getAdminSigner. eauto with traces. Qed.

Lemma every_getAccount a : P (EGetAccount a) -> every P (getAccount a).
Proof. intros Hp. unfold getAccount. eauto with traces. Qed.

Lemma every_template_string v : every P (template_string v).
Proof. unfold template_string. eauto with traces. Qed.
End EveryStep.

#[export] Hint Resolve every_loadMxpyConfig every_read_config every_getDefinitionOfFungibleToken
  every_getAdminSigner every_getAccount every_template_string : traces.

(** Every run of [main] is a part without broadcasts followed by a part
    without page requests. *)
Lemma main_phased `{!Sdk} : phased not_send not_get main.
Proof. unfold main. eauto 40 with traces. Qed.

(** Every broadcast of every run satisfies [tx_wf]. *)
Lemma main_every_sent_wf `{!Sdk} : every sent_wf main.
Proof. unfold main. eauto 40 with traces. Qed.

(** Every run of [main] pauses between two broadcasts: everything before
    the batch loop broadcasts nothing. *)
Ltac pace_main :=
  first
  [ apply paces_if
  | apply paces_bind with (h2 := false);
      [ solve [apply register_batches_paces | apply paces_of_every; eauto 10 with traces] | intros; cbv beta zeta ]
  | solve [apply paces_of_every; eauto 10 with traces] ].

Lemma main_paces `{!Sdk} : paces is_send false false main.
Proof. unfold main. repeat pace_main. Qed.

(** Every run of [main], in a world whose admin wallet is [signer] and
    whose account nonce on chain is [n0], is accepted by the automaton
    [nonce_step signer] from [n0]. *)
Section Nonces.
Context `{!Sdk} (w : World) (signer : UserSigner) (n0 : Z).
Hypothesis H_signer : w_admin_signer w = Some signer.
Hypothesis H_nonce : w_account_nonce w (signer_address signer) = Some n0.

Lemma getAdminSigner_nonces :
  follows_in (nonce_step signer) w n0 (fun n a => n = n0 /\ a = signer) getAdminSigner.
Proof.
  unfold getAdminSigner. apply follows_in_bind with (P := fun n a => n = n0 /\ a = w); [by apply follows_in_ask|].
  intros ? ? [-> ->]. apply follows_in_lift_option. rewrite H_signer. by intros ? [= <-].
Qed.

Lemma getAccount_nonces :
  follows_in (nonce_step signer) w n0 (fun n a => n = n0 /\ a = n0) (getAccount (signer_address signer)).
Proof.
  unfold getAccount. apply follows_in_bind with (P := fun n _ => n = n0); [by eapply follows_in_emit|].
  intros ? _ ->. apply follows_in_bind with (P := fun n a => n = n0 /\ a = w); [by apply follows_in_ask|].
  intros ? ? [-> ->]. apply follows_in_lift_option. rewrite H_nonce. by intros ? [= <-].
Qed.

(** One bind of [main]: the signer, the nonce, the batch loop, or a step
    that broadcasts nothing. *)
Ltac nonce_main :=
  first
  [ apply follows_in_if
  | apply follows_in_bind with (P := fun n a => n = n0 /\ a = signer);
      [apply getAdminSigner_nonces | intros ? ? [-> ->]; cbv beta zeta]
  | apply follows_in_bind with (P := fun n a => n = n0 /\ a = n0);
      [apply getAccount_nonces | intros ? ? [-> ->]; cbv beta zeta]
  | apply follows_in_bind with (P := fun _ _ => True);
      [ apply (register_batches_nonces_follow w signer _ _ _ _ (account_update (new_account (signer_address signer)) n0));
        reflexivity
      | intros; apply follows_in_not_send; [solve [eauto 10 with traces] | done] ]
  | apply follows_in_bind with (P := fun n _ => n = n0);
      [apply follows_in_not_send; [solve [eauto 10 with traces] | done] | intros ? ? ->; cbv beta zeta]
  | apply follows_in_not_send; [solve [eauto 10 with traces] | done] ].

Lemma main_nonces_follow : follows_in (nonce_step signer) w n0 (fun _ _ => True) main.
Proof. unfold main. repeat nonce_main. Qed.
End Nonces.

(** ** The account is read once, before the first broadcast *)

(** The events a run may cause before it reads the account, and after. *)
Definition before_read (e : Event) : Prop := match e with ESend _ | EGetAccount _ => False | _ => True end.
Definition not_account_read (e : Event) : Prop := match e with EGetAccount _ => False | _ => True end.

(** The automaton: its state says whether the account has been read. *)
Definition read_once_step (read : bool) (e : Event) : option bool :=
  match e with
  | EGetAccount _ => if read then None else Some true
  | ESend _ => if read then Some true else None
  | _ => Some read
  end.

Lemma read_once_step_spec (read : bool) (e : Event) (r : bool) :
  read_once_step read e = Some r ->
  (read = true -> r = true /\ not_account_read e) /\
  (read = false -> (r = false /\ before_read e) \/ (r = true /\ exists a, e = EGetAccount a)).
Proof. destruct e, read; cbn; intros Hs; simplify_eq; split; intros; simplify_eq; eauto. Qed.

(** What an accepted trace says: before the read, no broadcast; after
    it, no second read. *)
Lemma run_read_once (t : list Event) :
  (forall r, run_auto read_once_step true t = Some r -> Forall not_account_read t) /\
  (forall r, run_auto read_once_step false t = Some r ->
     Forall before_read t \/
     exists t1 a t2, t = t1 ++ EGetAccount a :: t2 /\ Forall before_read t1 /\ Forall not_account_read t2).
Proof.
  induction t as [|e t [IH1 IH2]]; split; intros r Hr; [by constructor | left; by constructor | |];
    cbn in Hr; destruct (read_once_step _ e) as [r0|] eqn:Hs; cbn in Hr; try done;
    destruct (read_once_step_spec _ _ _ Hs) as [Ht Hf].
  - destruct (Ht eq_refl) as [-> He]. constructor; [done | by eapply IH1].
  - destruct (Hf eq_refl) as [[-> He]|[-> [a ->]]].
    + destruct (IH2 r Hr) as [Hall|(t1 & a & t2 & -> & H1 & H2)]; [left; by constructor|].
      right. exists (e :: t1), a, t2. split_and!; [done | by constructor | done].
    + right. exists [], a, t. split_and!; [done | constructor | by eapply IH1].
Qed.

#[local] Hint Extern 1 (before_read _) => exact I : traces.
#[local] Hint Extern 1 (not_account_read _) => exact I : traces.

Section ReadOnce.
Context `{!Sdk} (w : World).

Lemma getAccount_read_once (a : string) :
  follows_in read_once_step w false (fun r _ => r = true) (getAccount a).
Proof.
  unfold getAccount. apply follows_in_bind with (P := fun r _ => r = true); [by eapply follows_in_emit|].
  intros ? _ ->. apply follows_in_bind with (P := fun r _ => r = true); [by apply follows_in_ask|].
  intros ? ? ->. by apply follows_in_lift_option.
Qed.

(** A part of [main] that keeps the state: before the read, no broadcast
    and no read; after it, no read. *)
Ltac quiet_read P :=
  apply (follows_in_quiet _ _ P);
    [let e := fresh in let He := fresh in intros e He; destruct e; cbn in He |- *; done
    | solve [eauto 10 with traces] | done].

Ltac read_main :=
  first
  [ apply follows_in_if
  | apply follows_in_bind with (P := fun r _ => r = true);
      [apply getAccount_read_once | intros ? ? ->; cbv beta zeta]
  | apply follows_in_bind with (P := fun r _ => r = false);
      [quiet_read before_read | intros ? ? ->; cbv beta zeta]
  | quiet_read before_read
  | quiet_read not_account_read ].

Lemma main_read_once : follows_in read_once_step w false (fun _ _ => True) main.
Proof. unfold main. repeat read_main. Qed.
End ReadOnce.

(** ** One run, from the configuration to the batches *)

Section EndToEnd.
Context `{!Sdk} (w : World) (json : jsval) (cfg : MxpyConfig) (tokenId nftId : string) (decimals : Z)
  (tcs scs : list SnapshotCandidate) (signer : UserSigner) (nonce : Z) (nc : NetworkConfig) (r : string).
Hypothesis H_config : w_config w = Some json.
Hypothesis H_cfg : config_of json (getArg (w_argv w) 0) = Some cfg.
Hypothesis H_ok : config_ok (getArg (w_argv w) 0) cfg = true.
Hypothesis H_tok : js_to_string (itheumTokenId cfg) = Some tokenId.
Hypothesis H_nft : js_to_string (trailblazerNftId cfg) = Some nftId.
Hypothesis H_dec : w_token_decimals w tokenId = Some decimals.
Hypothesis H_tpages : pages_from 10 (fun p => w_api_get w (token_path tokenId p)) 1 = Some tcs.
Hypothesis H_spages : pages_from 10 (fun p => w_api_get w (sft_path nftId p)) 1 = Some scs.
Hypothesis H_signer : w_admin_signer w = Some signer.
Hypothesis H_nonce : w_account_nonce w (signer_address signer) = Some nonce.

Let st1 := fold_left (token_member_step decimals (itheumMinHoldAmount cfg)) (map to_member tcs)
             initial_scan_state.
Let st2 := fold_left sft_member_step (map to_member scs) st1.

(** With a valid configuration and answering services, [main] reaches
    the batch loop with the chunks of the scanned members and the
    account's on-chain nonce; nothing is broadcast before it. *)
Lemma main_reaches_batches :
  let batches := chunks 499 (members st2) in
  let account := mkAccount (signer_address signer) nonce in
  let reg := register_batches (S (length batches)) batches 0 account signer (scAddress cfg) in
  outcome_of main w = outcome_of (reg ;; log (LogDone (Z.of_nat (length (members st2))))) w /\
  sends (trace_of main w) = sends (trace_of reg w) /\
  logs (trace_of main w)
  = [LogScanTokens (itheumMinHoldAmount cfg); LogTokensDone; LogScanSft;
     LogIncluded (Z.of_nat (length (members st2))); LogRegistering]
    ++ logs (trace_of reg w)
    ++ match outcome_of reg w with Ok _ => [LogDone (Z.of_nat (length (members st2)))] | Thrown _ => [] end.
Proof.
  intros batches account reg.
  assert (Ht : outcome_of (scanTokenHolders tokenId decimals (itheumMinHoldAmount cfg) initial_scan_state) w
               = Ok st1).
  { unfold scanTokenHolders. rewrite getPaginatedTokenAccounts_path. by apply scan_pass_outcome. }
  assert (Hs : outcome_of (scanSftHolders nftId st1) w = Ok st2).
  { unfold scanSftHolders. rewrite getPaginatedSftAccounts_path. by apply scan_pass_outcome. }
  assert (Hc : chunkArray (S (length (members st2))) (members st2) 500 = Some batches).
  { unfold chunkArray. apply (chunkArray_loop_spec (members st2) 499 _ 0 []). lia. }
  enter_main H_config H_cfg. step H_ok. step H_tok. step H_dec. step Ht. step H_nft. step Hs. step Hc.
  step H_signer. step H_nonce.
  split; [done|].
  unfold scanTokenHolders, scanSftHolders.
  rewrite getPaginatedTokenAccounts_path, getPaginatedSftAccounts_path.
  change (account_update (new_account (signer_address signer)) nonce) with account. fold reg.
  remember (trace_of reg w) as R. remember (outcome_of reg w) as O.
  split.
  - rewrite !sends_app, !scan_loop_no_sends. destruct O; cbn; by rewrite ?app_nil_r.
  - rewrite !logs_app, !scan_loop_logs. destruct O; cbn; by rewrite ?app_nil_r.
Qed.

Hypothesis H_nc : w_network_config w = Some nc.
Hypothesis H_r : sdk_new_address (scAddress cfg) = Some r.
Hypothesis H_send : forall tx, w_send_ok w tx = true.
Hypothesis H_enc :
  Forall (fun e => is_Some (sdk_address_arg (member_address e)) /\ is_Some (sdk_biguint_arg (weight e)))
    (snapshot_spec decimals (itheumMinHoldAmount cfg) tcs scs).

(** With members that encode and broadcasts that succeed, the batch loop
    of [main] runs every batch: one console line and one broadcast each,
    with consecutive nonces from the account's on-chain nonce. *)
Lemma main_batch_run :
  let batches := chunks 499 (members st2) in
  let reg := register_batches (S (length batches)) batches 0 (mkAccount (signer_address signer) nonce)
               signer (scAddress cfg) in
  exists argss, Forall2 (fun b args => encode_entries b = Ok args) batches argss /\
  outcome_of reg w = Ok (mkAccount (signer_address signer) (nonce + Z.of_nat (length batches))) /\
  sends (trace_of reg w)
    = zip_with (batch_tx signer nc r (signer_address signer)) (seqZ nonce (Z.of_nat (length batches))) argss /\
  logs (trace_of reg w)
    = (fun k => LogBatch k (Z.of_nat (length batches))) <$> seqZ 1 (Z.of_nat (length batches)).
Proof.
  intros batches reg.
  destruct (two_pass_fold decimals (itheumMinHoldAmount cfg) tcs scs) as [Hm _]. fold st1 st2 in Hm.
  assert (Hall : Forall (fun e => is_Some (sdk_address_arg (member_address e)) /\ is_Some (sdk_biguint_arg (weight e)))
                   (concat batches)) by (unfold batches; by rewrite chunks_concat, Hm).
  destruct (encode_batches_ok batches Hall) as [argss Hargs]. exists argss. split; [done|].
  destruct (register_batches_trace w signer (scAddress cfg) nc r H_nc H_r H_send batches argss Hargs
              (length batches) (S (length batches)) 0 (mkAccount (signer_address signer) nonce))
    as (Ho & Hs & Hl); [lia | lia |].
  change (Z.of_nat 0) with 0 in Ho, Hs, Hl. rewrite drop_0 in Hs. exact (conj Ho (conj Hs Hl)).
Qed.

(** The calls of a successful run decode to the members of the scan, in
    order, one call per batch, with consecutive nonces. *)
Lemma main_decoded :
  let txs := sends (trace_of main w) in
  outcome_of main w = Ok tt /\
  exists pss, Forall2 (fun tx ps => decode_call (tx_data tx) = Some ("registerMembersSnapshotBatch", ps)) txs pss /\
    Forall2 registers (concat pss) (members st2) /\
    tx_nonce <$> txs = seqZ nonce (Z.of_nat (length txs)) /\
    length txs = length (chunks 499 (members st2)).
Proof.
  intros txs.
  destruct main_reaches_batches as (Ho & Hs & _).
  destruct main_batch_run as (argss & Hargs & Hro & Hrs & _).
  set (batches := chunks 499 (members st2)) in *.
  pose proof (Forall2_length _ _ _ Hargs) as Hlen.
  assert (Htxs : txs = zip_with (batch_tx signer nc r (signer_address signer))
                         (seqZ nonce (Z.of_nat (length batches))) argss) by (unfold txs; by rewrite Hs).
  assert (Hn : length txs = length batches) by (rewrite Htxs, length_zip_with, length_seqZ; lia).
  split; [by rewrite Ho; run_simpl; rewrite Hro|].
  destruct (decoded_calls_concat txs batches) as [pss [Hd Hreg]].
  { rewrite Htxs. apply zip_with_batch_tx_registers; [done|]. rewrite length_seqZ. lia. }
  exists pss. split; [done|]. split; [by rewrite <- (chunks_concat 499 (members st2))|].
  split; [rewrite Hn, Htxs; apply zip_with_batch_tx_nonces; rewrite length_seqZ; lia | done].
Qed.

(** C1: end-to-end refinement.  With a valid configuration, services that
    answer, members that encode and broadcasts that succeed, [main]
    finishes normally; the calls it sends, read back by the contract,
    register exactly the members of [snapshot_spec] (eligible token
    holders, then SFT holders, first occurrence of each address) in
    order, in one call per 500 members, with consecutive nonces from the
    account's on-chain nonce. *)
Theorem main_registers_snapshot :
  let spec := snapshot_spec decimals (itheumMinHoldAmount cfg) tcs scs in
  let txs := sends (trace_of main w) in
  outcome_of main w = Ok tt /\
  exists pss, Forall2 (fun tx ps => decode_call (tx_data tx) = Some ("registerMembersSnapshotBatch", ps)) txs pss /\
    Forall2 registers (concat pss) spec /\
    tx_nonce <$> txs = seqZ nonce (Z.of_nat (length txs)) /\
    length txs = ((length spec + 499) / 500)%nat.
Proof.
  intros spec txs.
  destruct (two_pass_fold decimals (itheumMinHoldAmount cfg) tcs scs) as [Hm _]. fold st1 st2 in Hm.
  destruct main_decoded as (Ho & pss & Hd & Hreg & Hnon & Hn). fold txs in Hd, Hnon, Hn.
  split; [done|]. exists pss. unfold spec. rewrite <- Hm. split_and!; [done | done | done |].
  by rewrite Hn, chunks_count.
Qed.
(** C18: no address registered twice.  In a successful run, the
    addresses the contract reads back from all the calls of the run,
    taken together, are pairwise distinct: an address held both as a
    token and as an SFT, or returned on two pages, is registered once. *)
Theorem main_registers_each_address_once (pss : list (list (string * Z))) :
  Forall2 (fun tx ps => decode_call (tx_data tx) = Some ("registerMembersSnapshotBatch", ps))
    (sends (trace_of main w)) pss ->
  NoDup (fst <$> concat pss).
Proof.
  intros Hd. destruct (two_pass_fold decimals (itheumMinHoldAmount cfg) tcs scs) as [_ [Hnd _]].
  fold st1 st2 in Hnd. destruct main_decoded as (_ & pss0 & Hd0 & Hreg & _).
  assert (pss = pss0) as ->.
  { refine (Forall2_functional _ _ _ _ _ Hd Hd0). intros tx ps1 ps2 H1 H2. congruence. }
  by rewrite (Forall2_registers_addresses _ _ Hreg).
Qed.

(** C19: the console lines.  Under the same conditions, the lines [main]
    prints are the scan messages, the number of members, one
    [Registering members batch i of n] line per batch in order, and the
    final count, as the specification's run prints them. *)
Theorem main_console_lines :
  let spec := snapshot_spec decimals (itheumMinHoldAmount cfg) tcs scs in
  let nb := Z.of_nat ((length spec + 499) / 500) in
  logs (trace_of main w)
  = [LogScanTokens (itheumMinHoldAmount cfg); LogTokensDone; LogScanSft;
     LogIncluded (Z.of_nat (length spec)); LogRegistering]
    ++ ((fun k => LogBatch k nb) <$> seqZ 1 nb) ++ [LogDone (Z.of_nat (length spec))].
Proof.
  intros spec nb.
  destruct (two_pass_fold decimals (itheumMinHoldAmount cfg) tcs scs) as [Hm _]. fold st1 st2 in Hm.
  destruct main_reaches_batches as (_ & _ & Hl). destruct main_batch_run as (argss & _ & Ho & _ & Hlg).
  rewrite Hl, Ho, Hlg. unfold nb, spec. by rewrite chunks_count, Hm.
Qed.
(** C2: every run follows the plan.  With a valid configuration,
    answering page requests, the admin signer, the on-chain nonce, the
    network configuration and the contract address readable, but whatever
    the members' encodings and the proxy's answers to the broadcasts, the
    transactions [main] broadcasts are exactly the planned ones for the
    batches of 500 members of [snapshot_spec] from the on-chain nonce, up
    to and including the first one the proxy rejects: a failing run sends
    a prefix of what a successful run sends, never anything else. *)
Theorem main_broadcasts_planned :
  sends (trace_of main w) =
  accepted_prefix (w_send_ok w)
    (planned signer nc r (signer_address signer) nonce
       (chunks 499 (snapshot_spec decimals (itheumMinHoldAmount cfg) tcs scs))).
Proof.
  pose proof main_reaches_batches as Hreach. cbv zeta in Hreach. destruct Hreach as (_ & -> & _).
  destruct (two_pass_fold decimals (itheumMinHoldAmount cfg) tcs scs) as [Hm _]. fold st1 st2 in Hm.
  rewrite <- Hm.
  exact (register_batches_sends w signer (scAddress cfg) nc r (chunks 499 (members st2)) H_nc H_r
           (length (chunks 499 (members st2)))
           (S (length (chunks 499 (members st2)))) 0 (mkAccount (signer_address signer) nonce) ltac:(lia) ltac:(lia)).
Qed.

End EndToEnd.

(** ** The configuration's failure modes *)

(** C22: an invalid configuration.  When the section of [env] exists but
    the environment name or one of the five string fields
    ([itheum-tokenid], [trailblazer-nftid], [sc-address], [api],
    [proxy]) is falsy in JavaScript's sense ([undefined], [null], [""],
    [0], [NaN], [false]), [main] prints [Invalid '<env>' config] and
    returns: one console line, nothing requested, nothing sent.  Each of
    the six fields alone is enough to trigger it. *)
Theorem main_invalid_config `{!Sdk} (w : World) (json : jsval) (cfg : MxpyConfig) :
  w_config w = Some json ->
  config_of json (getArg (w_argv w) 0) = Some cfg ->
  js_truthy (env_value (getArg (w_argv w) 0)) = false \/ js_truthy (itheumTokenId cfg) = false \/
  js_truthy (trailblazerNftId cfg) = false \/ js_truthy (scAddress cfg) = false \/
  js_truthy (apiUrl cfg) = false \/ js_truthy (proxyUrl cfg) = false ->
  main w = ([ELog (LogInvalidConfig (getArg (w_argv w) 0))], Ok tt).
Proof.
  intros Hc Hcfg Hfalsy.
  assert (Hok : config_ok (getArg (w_argv w) 0) cfg = false).
  { unfold config_ok. destruct Hfalsy as [Hf|[Hf|[Hf|[Hf|[Hf|Hf]]]]]; rewrite Hf; cbn; by rewrite ?orb_true_r. }
  rewrite (surjective_pairing (main w)).
  fold (trace_of main w) (outcome_of main w). enter_main Hc Hcfg. step Hok. done.
Qed.

(** C24: an unknown environment.  When [mxpyConfig[env]] is [undefined]
    (no such section, or no environment argument at all) or [null],
    reading [mxpyConfig[env]['api']] throws a [TypeError] before the
    guard of line 31: the process dies with nothing printed, which the
    [Invalid config] message does not cover. *)
Theorem main_missing_section_throws `{!Sdk} (w : World) (json : jsval) :
  w_config w = Some json ->
  lookup_section json (getArg (w_argv w) 0) = Some JUndefined \/
  lookup_section json (getArg (w_argv w) 0) = Some JNull \/
  lookup_section json (getArg (w_argv w) 0) = None ->
  main w = ([], Thrown TypeErrorUndefined).
Proof.
  intros Hc Hsec. rewrite (surjective_pairing (main w)).
  fold (trace_of main w) (outcome_of main w).
  enter_main Hc (config_of_missing_section _ _ Hsec). done.
Qed.

(** C25: a missing minimum.  The guard of line 31 does not test
    [itheum-min-hold-amount]: when the section has no such key, the
    minimum is [+undefined], NaN, the configuration is accepted, and the
    membership list [main] builds holds the SFT holders only; every token
    holder is left out, whatever the balance. *)
Theorem missing_min_hold_drops_tokens (json : jsval) (env : option string)
    (ps : list (string * jsval)) (cfg : MxpyConfig) :
  lookup_section json env = Some (JObject ps) ->
  assoc_last "itheum-min-hold-amount" ps = None ->
  config_of json env = Some cfg ->
  forall decimals tcs scs,
  snapshot_spec decimals (itheumMinHoldAmount cfg) tcs scs = keep_first [] (map to_member scs).
Proof.
  intros Hs Hk Hc decimals tcs scs.
  rewrite (config_of_min_hold json (JObject ps) JUndefined env cfg Hs) by (by cbn; rewrite Hk || done).
  apply snapshot_spec_nan.
Qed.

(** C26: a blank minimum keeps every token holder.  When the section's
    [itheum-min-hold-amount] is an empty or blank string, the guard of
    line 31 does not test it, [+''] is 0, and the snapshot keeps every
    token holder whose balance is a non-negative integer, zero balances
    included, followed by the SFT holders. *)
Theorem blank_min_hold_keeps_all_tokens (json : jsval) (env : option string) (ps : list (string * jsval))
    (s : string) (cfg : MxpyConfig) :
  lookup_section json env = Some (JObject ps) ->
  assoc_last "itheum-min-hold-amount" ps = Some (JString s) -> js_trim s = "" ->
  config_of json env = Some cfg ->
  forall decimals tcs scs, Forall (fun c => exists n : N, balance c = pretty (Z.of_N n)) tcs ->
  snapshot_spec decimals (itheumMinHoldAmount cfg) tcs scs = keep_first [] (map to_member tcs ++ map to_member scs).
Proof.
  intros Hs Hk Ht Hc decimals tcs scs Hb.
  rewrite (config_of_min_hold json (JObject ps) (JString s) env cfg Hs) by (by cbn; rewrite Hk || done).
  cbn [js_to_number]. unfold string_to_number. rewrite Ht. by apply snapshot_spec_zero.
Qed.

(** ** Every run: ordering, well-formed broadcasts, failed requests *)

(** C11: requests before broadcasts.  In every run of [main], whatever the
    configuration and the services answer, every page request of the two
    scans comes before every broadcast: registration starts only once the
    snapshot is complete. *)
Theorem main_requests_before_sends `{!Sdk} (w : World) (i j : nat) (tx : Transaction) (path : string) :
  trace_of main w !! i = Some (ESend tx) -> trace_of main w !! j = Some (EGet path) -> (j < i)%nat.
Proof.
  intros Hi Hj. destruct (main_phased w) as (t1 & t2 & Ht & H1 & H2). rewrite Ht in Hi, Hj.
  exact (split_order t1 t2 H1 H2 i j tx path Hi Hj).
Qed.

(** C13: well-formed broadcasts.  Every transaction any run of [main]
    broadcasts carries no value, a gas limit within the block's maximum
    and a signature, and its data is a call of
    [registerMembersSnapshotBatch] with hex arguments, two per member. *)
Theorem main_sends_well_formed `{!Sdk} (w : World) : Forall tx_wf (sends (trace_of main w)).
Proof. apply Forall_sent_wf_sends, main_every_sent_wf. Qed.

(** C14: a failed page request.  When a page request of the token scan
    fails, [main] rejects with [RequestFailed] for that page's path, and
    nothing has been broadcast. *)
Theorem main_token_page_failure `{!Sdk} (w : World) (json : jsval) (cfg : MxpyConfig) (tokenId : string)
    (decimals : Z) :
  w_config w = Some json ->
  config_of json (getArg (w_argv w) 0) = Some cfg ->
  config_ok (getArg (w_argv w) 0) cfg = true ->
  js_to_string (itheumTokenId cfg) = Some tokenId ->
  w_token_decimals w tokenId = Some decimals ->
  pages_from 10 (fun p => w_api_get w (token_path tokenId p)) 1 = None ->
  (exists p, outcome_of main w = Thrown (RequestFailed (token_path tokenId p))) /\ sends (trace_of main w) = [].
Proof.
  intros Hc Hcfg Hok Htok Hdec Hp.
  destruct (scan_pass_failure (token_path tokenId) (token_member_step decimals (itheumMinHoldAmount cfg)) w
              initial_scan_state Hp) as [p Hf].
  enter_main Hc Hcfg. step Hok. step Htok. step Hdec.
  unfold scanTokenHolders. rewrite getPaginatedTokenAccounts_path. step Hf.
  split; [by exists p|]. by rewrite !sends_app, scan_loop_no_sends.
Qed.

(** C15: broadcasts are paced.  In every run of [main], whatever the
    configuration and the services answer, two broadcasts are separated
    by a pause of at least 500 ms: the [timeout(500)] that ends each batch
    of the loop. *)
Theorem main_broadcasts_paced `{!Sdk} (w : World) (i j : nat) (tx1 tx2 : Transaction) :
  (i < j)%nat -> trace_of main w !! i = Some (ESend tx1) -> trace_of main w !! j = Some (ESend tx2) ->
  exists k ms, (i < k < j)%nat /\ trace_of main w !! k = Some (ESleep ms) /\ 500 <= ms.
Proof.
  intros Hij Hi Hj.
  exact (paces_separated is_send (fun _ => eq_refl) main false main_paces w i j _ _ Hij Hi Hj eq_refl eq_refl).
Qed.

(** C8: nonces and signatures in every run.  Whatever the configuration,
    the pages, the network configuration and the broadcasts' results, the
    transactions a run of [main] broadcasts carry the consecutive nonces
    [n0, n0+1, ...] from the account's nonce read on chain, with no gap and
    no reuse, and each is sent from the admin signer's address with the
    signer's signature of the transaction as it is sent (its nonce
    included). *)
Theorem main_broadcasts_signed_in_sequence `{!Sdk} (w : World) (signer : UserSigner) (n0 : Z) :
  w_admin_signer w = Some signer -> w_account_nonce w (signer_address signer) = Some n0 ->
  tx_nonce <$> sends (trace_of main w) = seqZ n0 (Z.of_nat (length (sends (trace_of main w)))) /\
  Forall (signed_by signer) (sends (trace_of main w)).
Proof.
  intros Hs Hn. destruct (main_nonces_follow w signer n0 Hs Hn) as (n' & Hrun & _).
  by destruct (run_nonce_sends signer _ _ _ Hrun) as (Hseq & Hall & _).
Qed.

(** C17: the two passes are not paced against each other.  When the token
    pass reaches an empty page [k] (pages [1 .. k-1] have holders), the
    request of page [k] is followed by the request of the first SFT page
    with only the two console lines between them: the [break] skips the
    [timeout(500)], so two API requests go out with no pause. *)
Theorem main_passes_not_paced `{!Sdk} (w : World) (json : jsval) (cfg : MxpyConfig) (tokenId nftId : string)
    (decimals : Z) (k : nat) :
  w_config w = Some json ->
  config_of json (getArg (w_argv w) 0) = Some cfg ->
  config_ok (getArg (w_argv w) 0) cfg = true ->
  js_to_string (itheumTokenId cfg) = Some tokenId ->
  js_to_string (trailblazerNftId cfg) = Some nftId ->
  w_token_decimals w tokenId = Some decimals ->
  (1 <= k <= 10)%nat ->
  (forall i : nat, (1 <= i < k)%nat -> exists c cs, w_api_get w (token_path tokenId (Z.of_nat i)) = Some (c :: cs)) ->
  w_api_get w (token_path tokenId (Z.of_nat k)) = Some [] ->
  exists pre post, trace_of main w =
    pre ++ [EGet (token_path tokenId (Z.of_nat k)); ELog LogTokensDone; ELog LogScanSft; EGet (sft_path nftId 1)]
    ++ post.
Proof.
  intros Hc Hcfg Hok Htok Hnft Hdec Hk Hne He.
  destruct (scan_pass_ends_on_empty (token_path tokenId) (token_member_step decimals (itheumMinHoldAmount cfg)) w
              initial_scan_state k Hk Hne He) as (t0 & st1 & Ht & Ho).
  enter_main Hc Hcfg. step Hok. step Htok. step Hdec.
  unfold scanTokenHolders. rewrite getPaginatedTokenAccounts_path. step Ho. step Hnft.
  unfold scanSftHolders. rewrite getPaginatedSftAccounts_path.
  destruct (scan_loop_starts (sft_path nftId) sft_member_step w 10 1 st1) as [t1 Hs]; [lia|].
  rewrite Ht. change scan_fuel with (S 10). rewrite Hs.
  exists ([EGetTokenDefinition tokenId; ELog (LogScanTokens (itheumMinHoldAmount cfg))] ++ t0). eexists.
  rewrite <- !app_assoc. cbn [app]. reflexivity.
Qed.

(** C12: the account is read once, before any broadcast.  In every run of
    [main], whatever the configuration and the services answer, either the
    account is never read and nothing is broadcast, or the run reads the
    account exactly once, broadcasts nothing before that read, and never
    reads it again: the nonce of every batch comes from that single read. *)
Theorem main_reads_account_once `{!Sdk} (w : World) :
  Forall before_read (trace_of main w) \/
  exists t1 a t2, trace_of main w = t1 ++ EGetAccount a :: t2 /\
                  Forall before_read t1 /\ Forall not_account_read t2.
Proof. destruct (main_read_once w) as (r & Hr & _). exact (proj2 (run_read_once _) r Hr). Qed.

(** The last line of a run of [main] that returns. *)
Definition final_line (e : Event) : Prop :=
  (exists env, e = ELog (LogInvalidConfig env)) \/ (exists n, e = ELog (LogDone n)).

(** C23: the exit status.  A run whose process exits with status 0 has
    printed, last, either [Invalid '<env>' config] (the configuration was
    rejected and nothing was registered) or [Done! Snapshot of total n
    members registered!]: a caller cannot tell the two apart by the
    status. Every exception, at any point, gives status 1. *)
Theorem main_exit_status `{!Sdk} (w : World) :
  exit_status (outcome_of main w) = 0 ->
  (exists env, last (trace_of main w) = Some (ELog (LogInvalidConfig env))) \/
  (exists n, last (trace_of main w) = Some (ELog (LogDone n))).
Proof.
  intros Hs. destruct (outcome_of main w) as [[]|e] eqn:Ho; [|done].
  assert (Hend : ends_with final_line main).
  { unfold main. repeat (apply ends_with_bind; intros); apply ends_with_if;
      repeat (apply ends_with_bind; intros); apply ends_with_emit; unfold final_line; eauto. }
  destruct (Hend w tt Ho) as (e & Hl & [[env ->]|[n ->]]); eauto.
Qed.

(** ** A run on the scenario of the specification

    Token holders with 20, 10 and 9 ITHEUM (18 decimals, minimum 10),
    then SFT holders of which the first is already a token holder; the
    account's nonce on chain is 42. *)

Definition ex_main_section (minHold : list (string * jsval)) : jsval :=
  JObject ([("api", JString "https://devnet-api.multiversx.com");
            ("proxy", JString "https://devnet-gateway.multiversx.com");
            ("itheum-tokenid", JString "ITH")] ++ minHold ++
           [("trailblazer-nftid", JString "TRAIL"); ("contract-address", JString "erd1sc")]).

Definition ex_main_json : jsval :=
  JObject [("devnet", ex_main_section [("itheum-min-hold-amount", JString "10")])].

Definition ex_main_config : MxpyConfig :=
  mkMxpyConfig (JString "https://devnet-api.multiversx.com") (JString "https://devnet-gateway.multiversx.com")
    (JString "ITH") (js_to_number (JString "10")) (JString "TRAIL") (JString "erd1sc").

Definition ex_main_tokens : list SnapshotCandidate :=
  [mkCandidate (hex64 "1") "20000000000000000000"; mkCandidate (hex64 "2") "10000000000000000000";
   mkCandidate (hex64 "5") "9000000000000000000"].

Definition ex_main_sfts : list SnapshotCandidate :=
  [mkCandidate (hex64 "1") "1"; mkCandidate (hex64 "3") "1"; mkCandidate (hex64 "4") "2"].

Definition ex_main_api (path : string) : option (list SnapshotCandidate) :=
  if String.eqb path (token_path "ITH" 1) then Some ex_main_tokens
  else if String.eqb path (token_path "ITH" 2) then Some []
  else if String.eqb path (sft_path "TRAIL" 1) then Some ex_main_sfts
  else if String.eqb path (sft_path "TRAIL" 2) then Some []
  else None.

Definition ex_main_world (argv : list string) (json : jsval) : World :=
  mkWorld argv (Some json) (Some ex_signer) (fun _ => Some 18) ex_main_api (fun _ => Some 42)
    (Some (mkNetworkConfig 1500 "D")) (fun _ => true).

Definition ex_argv : list string := ["node"; "register-snapshot.ts"; "devnet"].

Lemma main_registers_snapshot_witness :
  let spec := snapshot_spec 18 (itheumMinHoldAmount ex_main_config) ex_main_tokens ex_main_sfts in
  let txs := sends (trace_of (@main test_sdk) (ex_main_world ex_argv ex_main_json)) in
  outcome_of (@main test_sdk) (ex_main_world ex_argv ex_main_json) = Ok tt /\
  exists pss, Forall2 (fun tx ps => @decode_call test_sdk (tx_data tx) = Some ("registerMembersSnapshotBatch", ps))
                txs pss /\
    Forall2 registers (concat pss) spec /\
    tx_nonce <$> txs = seqZ 42 (Z.of_nat (length txs)) /\
    length txs = ((length spec + 499) / 500)%nat.
Proof.
  apply (@main_registers_snapshot test_sdk (ex_main_world ex_argv ex_main_json) ex_main_json ex_main_config
           "ITH" "TRAIL" 18 ex_main_tokens ex_main_sfts ex_signer 42 (mkNetworkConfig 1500 "D") "erd1sc");
    [vm_compute; reflexivity .. | intros; reflexivity | ].
  apply (bool_decide_unpack _). vm_compute. reflexivity.
Defined.

Lemma main_console_lines_witness :
  let spec := snapshot_spec 18 (itheumMinHoldAmount ex_main_config) ex_main_tokens ex_main_sfts in
  let nb := Z.of_nat ((length spec + 499) / 500) in
  logs (trace_of (@main test_sdk) (ex_main_world ex_argv ex_main_json))
  = [LogScanTokens (itheumMinHoldAmount ex_main_config); LogTokensDone; LogScanSft;
     LogIncluded (Z.of_nat (length spec)); LogRegistering]
    ++ ((fun k => LogBatch k nb) <$> seqZ 1 nb) ++ [LogDone (Z.of_nat (length spec))].
Proof.
  apply (@main_console_lines test_sdk (ex_main_world ex_argv ex_main_json) ex_main_json ex_main_config
           "ITH" "TRAIL" 18 ex_main_tokens ex_main_sfts ex_signer 42 (mkNetworkConfig 1500 "D") "erd1sc");
    [vm_compute; reflexivity .. | intros; reflexivity | ].
  apply (bool_decide_unpack _). vm_compute. reflexivity.
Defined.

Lemma main_invalid_config_witness :
  @main test_sdk (ex_main_world ["node"; "register-snapshot.ts"; "devnet"]
                    (JObject [("devnet", JObject [("api", JString "")])]))
  = ([ELog (LogInvalidConfig (getArg ["node"; "register-snapshot.ts"; "devnet"] 0))], Ok tt).
Proof.
  apply (@main_invalid_config test_sdk (ex_main_world ["node"; "register-snapshot.ts"; "devnet"]
                    (JObject [("devnet", JObject [("api", JString "")])])) (JObject [("devnet", JObject [("api", JString "")])])
           (mkMxpyConfig (JString "") JUndefined JUndefined XNaN JUndefined JUndefined));
    [vm_compute; reflexivity .. |]. right; left. vm_compute. reflexivity.
Defined.

Lemma main_missing_section_throws_witness :
  @main test_sdk (ex_main_world ["node"; "register-snapshot.ts"; "mainnet"] ex_main_json)
  = ([], Thrown TypeErrorUndefined).
Proof.
  apply (@main_missing_section_throws test_sdk (ex_main_world ["node"; "register-snapshot.ts"; "mainnet"] ex_main_json) ex_main_json); [reflexivity|].
  left. vm_compute. reflexivity.
Defined.

Lemma missing_min_hold_drops_tokens_witness :
  snapshot_spec 18 (js_to_number JUndefined) ex_main_tokens ex_main_sfts
  = keep_first [] (map to_member ex_main_sfts).
Proof.
  apply (missing_min_hold_drops_tokens (JObject [("devnet", ex_main_section [])]) (Some "devnet")
           (match ex_main_section [] with JObject ps => ps | _ => [] end)
           (mkMxpyConfig (JString "https://devnet-api.multiversx.com")
              (JString "https://devnet-gateway.multiversx.com") (JString "ITH") (js_to_number JUndefined)
              (JString "TRAIL") (JString "erd1sc"))); vm_compute; reflexivity.
Defined.

Definition ex_trace : list Event := trace_of (@main test_sdk) (ex_main_world ex_argv ex_main_json).

(** The transaction the scenario broadcasts. *)
Definition ex_sent_tx : Transaction :=
  match ex_trace !! 15%nat with
  | Some (ESend tx) => tx
  | _ => mkTransaction 0 0 EmptyString EmptyString 0 EmptyString EmptyString None
  end.

Lemma main_requests_before_sends_witness :
  ex_trace !! 15%nat = Some (ESend ex_sent_tx) /\ ex_trace !! 9%nat = Some (EGet (sft_path "TRAIL" 2)) /\
  (9 < 15)%nat.
Proof.
  assert (Hi : ex_trace !! 15%nat = Some (ESend ex_sent_tx)) by (vm_compute; reflexivity).
  assert (Hj : ex_trace !! 9%nat = Some (EGet (sft_path "TRAIL" 2))) by (vm_compute; reflexivity).
  split; [exact Hi|]. split; [exact Hj|].
  exact (@main_requests_before_sends test_sdk (ex_main_world ex_argv ex_main_json) 15 9 ex_sent_tx _ Hi Hj).
Defined.

Lemma main_registers_each_address_once_witness :
  let pss := [[(hex64 "1", 20000000000000000000); (hex64 "2", 10000000000000000000); (hex64 "3", 1);
               (hex64 "4", 2)]] in
  Forall2 (fun tx ps => @decode_call test_sdk (tx_data tx) = Some ("registerMembersSnapshotBatch", ps))
    (sends (trace_of (@main test_sdk) (ex_main_world ex_argv ex_main_json))) pss /\
  NoDup (fst <$> concat pss).
Proof.
  intros pss.
  assert (Hs : sends (trace_of (@main test_sdk) (ex_main_world ex_argv ex_main_json)) = [ex_sent_tx])
    by (vm_compute; reflexivity).
  assert (Hd : Forall2 (fun tx ps => @decode_call test_sdk (tx_data tx) = Some ("registerMembersSnapshotBatch", ps))
                 (sends (trace_of (@main test_sdk) (ex_main_world ex_argv ex_main_json))) pss).
  { rewrite Hs. constructor; [vm_compute; reflexivity | constructor]. }
  split; [exact Hd|].
  apply (@main_registers_each_address_once test_sdk (ex_main_world ex_argv ex_main_json) ex_main_json
           ex_main_config "ITH" "TRAIL" 18 ex_main_tokens ex_main_sfts ex_signer 42 (mkNetworkConfig 1500 "D")
           "erd1sc"); [vm_compute; reflexivity .. | intros; reflexivity | | exact Hd].
  apply (bool_decide_unpack _). vm_compute. reflexivity.
Defined.

(** The API is down: every request fails. *)
Definition ex_down_world : World :=
  mkWorld ex_argv (Some ex_main_json) (Some ex_signer) (fun _ => Some 18) (fun _ => None) (fun _ => Some 42)
    (Some (mkNetworkConfig 1500 "D")) (fun _ => true).

Lemma main_token_page_failure_witness :
  (exists p, outcome_of (@main test_sdk) ex_down_world = Thrown (RequestFailed (token_path "ITH" p))) /\
  sends (trace_of (@main test_sdk) ex_down_world) = [].
Proof.
  apply (@main_token_page_failure test_sdk ex_down_world ex_main_json ex_main_config "ITH" 18);
    vm_compute; reflexivity.
Defined.

(** ** A run with two batches: 501 token holders *)

Definition ex_addr (n : nat) : string :=
  let d := pretty (N.of_nat n) in
  String.string_of_list_ascii (replicate (64 - String.length d) "0"%char) +:+ d.

Definition ex_many_tokens : list SnapshotCandidate :=
  map (fun n => mkCandidate (ex_addr n) "20000000000000000000") (seq 1 501).

Definition ex_many_api (path : string) : option (list SnapshotCandidate) :=
  if String.eqb path (token_path "ITH" 1) then Some ex_many_tokens
  else if String.eqb path (token_path "ITH" 2) then Some []
  else if String.eqb path (sft_path "TRAIL" 1) then Some []
  else None.

Definition ex_many_world : World :=
  mkWorld ex_argv (Some ex_main_json) (Some ex_signer) (fun _ => Some 18) ex_many_api (fun _ => Some 42)
    (Some (mkNetworkConfig 1500 "D")) (fun _ => true).

Definition ex_many_trace : list Event := trace_of (@main test_sdk) ex_many_world.

(** Whether the event at position [n] is a broadcast (checked without
    building the transaction's normal form). *)
Definition send_at (t : list Event) (n : nat) : bool :=
  match t !! n with Some (ESend _) => true | _ => false end.

Lemma send_at_spec (t : list Event) (n : nat) : send_at t n = true -> exists tx, t !! n = Some (ESend tx).
Proof. unfold send_at. destruct (t !! n) as [[]|]; try done. intros _. by eexists. Qed.

Lemma main_broadcasts_paced_witness :
  exists tx1 tx2, (13 < 17)%nat /\ ex_many_trace !! 13%nat = Some (ESend tx1) /\
  ex_many_trace !! 17%nat = Some (ESend tx2) /\
  exists k ms, (13 < k < 17)%nat /\ ex_many_trace !! k = Some (ESleep ms) /\ 500 <= ms.
Proof.
  assert (H13 : send_at ex_many_trace 13 = true) by (vm_compute; reflexivity).
  assert (H17 : send_at ex_many_trace 17 = true) by (vm_compute; reflexivity).
  destruct (send_at_spec _ _ H13) as [tx1 Hi]. destruct (send_at_spec _ _ H17) as [tx2 Hj].
  exists tx1, tx2. split; [lia|]. split; [exact Hi|]. split; [exact Hj|].
  exact (@main_broadcasts_paced test_sdk ex_many_world 13 17 tx1 tx2 ltac:(lia) Hi Hj).
Defined.

Lemma main_broadcasts_signed_in_sequence_witness :
  w_admin_signer ex_many_world = Some ex_signer /\ w_account_nonce ex_many_world (signer_address ex_signer) = Some 42 /\
  tx_nonce <$> sends ex_many_trace = seqZ 42 (Z.of_nat (length (sends ex_many_trace))) /\
  Forall (@signed_by test_sdk ex_signer) (sends ex_many_trace).
Proof.
  split; [reflexivity|]. split; [reflexivity|].
  exact (@main_broadcasts_signed_in_sequence test_sdk ex_many_world ex_signer 42 eq_refl eq_refl).
Defined.

Lemma main_passes_not_paced_witness :
  exists pre post, trace_of (@main test_sdk) (ex_main_world ex_argv ex_main_json) =
    pre ++ [EGet (token_path "ITH" (Z.of_nat 2)); ELog LogTokensDone; ELog LogScanSft; EGet (sft_path "TRAIL" 1)]
    ++ post.
Proof.
  apply (@main_passes_not_paced test_sdk _ ex_main_json ex_main_config "ITH" "TRAIL" 18 2);
    [vm_compute; reflexivity .. | lia | | vm_compute; reflexivity].
  intros i Hi. assert (i = 1%nat) as -> by lia. eexists _, _. vm_compute. reflexivity.
Defined.

Lemma main_exit_status_witness :
  let w := ex_main_world ["node"; "register-snapshot.ts"; "devnet"] (JObject [("devnet", JObject [("api", JString "")])]) in
  exit_status (outcome_of (@main test_sdk) w) = 0 /\
  ((exists env, last (trace_of (@main test_sdk) w) = Some (ELog (LogInvalidConfig env))) \/
   (exists n, last (trace_of (@main test_sdk) w) = Some (ELog (LogDone n)))).
Proof.
  intros w. assert (Hs : exit_status (outcome_of (@main test_sdk) w) = 0) by (vm_compute; reflexivity).
  split; [exact Hs | exact (@main_exit_status test_sdk w Hs)].
Defined.

Lemma main_broadcasts_planned_witness :
  sends (trace_of (@main test_sdk) (ex_main_world ex_argv ex_main_json)) =
  accepted_prefix (w_send_ok (ex_main_world ex_argv ex_main_json))
    (@planned test_sdk ex_signer (mkNetworkConfig 1500 "D") "erd1sc" (signer_address ex_signer) 42
       (chunks 499 (snapshot_spec 18 (itheumMinHoldAmount ex_main_config) ex_main_tokens ex_main_sfts))).
Proof.
  apply (@main_broadcasts_planned test_sdk (ex_main_world ex_argv ex_main_json) ex_main_json ex_main_config
           "ITH" "TRAIL" 18 ex_main_tokens ex_main_sfts ex_signer 42 (mkNetworkConfig 1500 "D") "erd1sc");
    vm_compute; reflexivity.
Defined.

(** A blank minimum: a holder with a zero balance is kept. *)
Definition ex_blank_json : jsval :=
  JObject [("devnet", ex_main_section [("itheum-min-hold-amount", JString "  ")])].

Definition ex_blank_config : MxpyConfig :=
  match config_of ex_blank_json (Some "devnet") with Some c => c | None => ex_main_config end.

Definition ex_zero_tokens : list SnapshotCandidate :=
  [mkCandidate (hex64 "1") "0"; mkCandidate (hex64 "2") "3"].

Lemma blank_min_hold_keeps_all_tokens_witness :
  config_of ex_blank_json (Some "devnet") = Some ex_blank_config /\
  snapshot_spec 18 (itheumMinHoldAmount ex_blank_config) ex_zero_tokens []
  = keep_first [] (map to_member ex_zero_tokens ++ map to_member []).
Proof.
  assert (Hc : config_of ex_blank_json (Some "devnet") = Some ex_blank_config) by (vm_compute; reflexivity).
  split; [exact Hc|].
  eapply (blank_min_hold_keeps_all_tokens ex_blank_json (Some "devnet") _ "  " ex_blank_config);
    [reflexivity | vm_compute; reflexivity | vm_compute; reflexivity | exact Hc |].
  repeat constructor; [exists 0%N | exists 3%N]; vm_compute; reflexivity.
Defined.
